(** * CXL software-managed coherence: a Rocq model of the kernel sources

    The development embeds, function by function, the parts of the
    repository that its specification talks about:

    - [Kmsg]: the message format of [swmc_kmsg.h];
    - [Ring]: the shared-memory message ring of
      [popcorn_2MB/msg_layer_module/cxl_shm.c];
    - [Replication]: the replica pool of the page replication source
      ([create_page_replica], [flush_page_replica], ...);
    - [Hotness]: the sampling histogram and the replication tick of the
      same source ([handle_sampled_address], [kreplicationd]);
    - [Coherence]: the fault engine of
      [De_Stijl/famfs-linux/kernel/swmc/page_coherence.c];
    - [Transport]: sending and receiving over the ring
      ([cxl_kmsg_unicast], [cxl_kmsg_broadcast], [cxl_kmsg_receive]);
    - [Completion]: the answers to a transaction and the queue of the
      asynchronous ones ([swmc_kmsg_handle_ack_or_nack],
      [put_work_to_workqueue], [async_transaction_daemon]);
    - [Scenarios], [Cases]: the concrete states and messages at which the
      properties are instantiated.

    C integers are [Z] with their wrap-around written out; kernel objects
    reached through pointers live in explicit stores; what the rest of the
    system decides (allocator, transport, other threads) is an explicit
    oracle argument. *)

From Stdlib Require Import ZArith Bool String Ascii.
From stdpp Require Import base tactics option list gmap.

Local Open Scope Z_scope.

(** ** Machine integers and errno values *)

Definition wrap64 (x : Z) : Z := x mod 2 ^ 64.

(** [(int) x] for a 64-bit value: keep the low 32 bits, read as signed. *)
Definition to_int32 (x : Z) : Z := (x + 2 ^ 31) mod 2 ^ 32 - 2 ^ 31.

Definition ENOENT : Z := 2.
Definition EAGAIN : Z := 11.
Definition ENOMEM : Z := 12.
Definition EINVAL : Z := 22.
Definition ENODEV : Z := 19.
Definition ENOSYS : Z := 38.

(** x86-64 page geometry used by both kernel sources. *)
Definition PAGE_SHIFT : Z := 12.
Definition PAGE_SIZE : Z := 4096.
Definition PMD_ORDER : Z := 9.
Definition CL_SIZE : Z := 64.

(** ** Messages ([swmc_kmsg.h]) *)

Module Kmsg.

Definition SWMC_KMSG_TYPE_FETCH : Z := 0.
Definition SWMC_KMSG_TYPE_FETCH_ACK : Z := 1.
Definition SWMC_KMSG_TYPE_FETCH_NACK : Z := 2.
Definition SWMC_KMSG_TYPE_INVALIDATE : Z := 3.
Definition SWMC_KMSG_TYPE_INVALIDATE_ACK : Z := 4.
Definition SWMC_KMSG_TYPE_INVALIDATE_NACK : Z := 5.
Definition SWMC_KMSG_TYPE_ERROR : Z := 6.
Definition SWMC_KMSG_TYPE_MAX : Z := 7.

Record swmc_kmsg_hdr := mk_hdr {
  type : Z;
  ws_id : Z;
  from_nid : Z;
  to_nid : Z
}.

Record payload_data := mk_payload {
  cxl_hdm_offset : Z;
  page_order : Z;
  acked_fault_count : Z
}.

Record swmc_kmsg_message := mk_msg {
  header : swmc_kmsg_hdr;
  payload : payload_data
}.

End Kmsg.

(** ** The message ring ([cxl_shm.c]) *)

Module Ring.
Import Kmsg.

Definition CXL_KMSG_RBUF_SIZE : Z := 65536.

(** [struct cxl_kmsg_window]: [head] and [tail] are [unsigned long]
    counters, [buffer] the slot array. *)
Record cxl_kmsg_window := mk_window {
  head : Z;
  tail : Z;
  int_enabled : Z;
  buffer : list swmc_kmsg_message
}.

(** The two file-scope counters [insurance_recv] and [insurance_send]. *)
Record shm_globals := mk_globals {
  insurance_recv : Z;
  insurance_send : Z
}.

(** [__validate_kmsg]; the argument is a pointer, [None] is [NULL]. *)
Definition __validate_kmsg (msg : option swmc_kmsg_message) : Z :=
  match msg with
  | None => - EINVAL
  | Some m =>
      let h := header m in
      if (type h <? 0) || (SWMC_KMSG_TYPE_MAX <=? type h) then - EINVAL
      else if (ws_id h <? 0) || (from_nid h <? 0) || (to_nid h <? 0)
           then - EINVAL
           else 0
  end.

(** [win_inuse]: [head - tail] in [unsigned long] arithmetic. *)
Definition win_inuse (win : cxl_kmsg_window) : Z :=
  wrap64 (head win - tail win).

(** [win_put].  The cache flushes have no effect on the contents of the
    window and are left out. *)
Definition win_put (g : shm_globals) (win : cxl_kmsg_window)
    (msg : option swmc_kmsg_message) : Z * cxl_kmsg_window * shm_globals :=
  let ret := __validate_kmsg msg in
  if negb (ret =? 0) then (ret, win, g)
  else if CXL_KMSG_RBUF_SIZE - 1 <=? win_inuse win then (- EAGAIN, win, g)
  else
    match msg with
    | None => (ret, win, g)
    | Some m =>
        let ticket := head win mod CXL_KMSG_RBUF_SIZE in
        let win' := {| head := wrap64 (head win + 1);
                       tail := tail win;
                       int_enabled := int_enabled win;
                       buffer := <[Z.to_nat ticket := m]> (buffer win) |} in
        (0, win', {| insurance_recv := insurance_recv g;
                     insurance_send := head win' |})
    end.

(** [win_get]: [None] in the message position is the untouched [*msg]. *)
Definition win_get (g : shm_globals) (win : cxl_kmsg_window)
    : Z * option swmc_kmsg_message * cxl_kmsg_window * shm_globals :=
  if win_inuse win =? 0 then (-1, None, win, g)
  else
    let rcvd := buffer win !! Z.to_nat (tail win mod CXL_KMSG_RBUF_SIZE) in
    (0, rcvd,
     {| head := head win; tail := wrap64 (tail win + 1);
        int_enabled := int_enabled win; buffer := buffer win |},
     {| insurance_recv := wrap64 (tail win + 1);
        insurance_send := insurance_send g |}).

(** [__build_kmsg] for the node [node_id]; the payload pointer may be
    [NULL], in which case the payload is zeroed. *)
Definition __build_kmsg (node_id : Z) (ty ws dest_nid : Z)
    (p : option payload_data) : Z * swmc_kmsg_message :=
  let h := {| type := ty; ws_id := ws; from_nid := node_id;
              to_nid := dest_nid |} in
  let zero := {| cxl_hdm_offset := 0; page_order := 0;
                 acked_fault_count := 0 |} in
  if negb (__validate_kmsg (Some (mk_msg h zero)) =? 0)
  then (- EINVAL, mk_msg h zero)
  else (0, mk_msg h (default zero p)).

End Ring.

(** ** The replica pool (page replication source) *)

Module Replication.

Definition NULL : Z := 0.

Definition MAX_ALLOCATE_RETRIES : nat := 3.

Definition SWMC_TAG_MASK : Z := 3.
Definition SWMC_TAG_PTR : Z := 0.
Definition SWMC_TAG_ACCESS : Z := 1.
Definition SWMC_TAG_REPLICA_SELF : Z := 2.
Definition SWMC_TAG_RSVD : Z := 3.

(** The fields of [struct page] the sources read and write, and the bytes
    of the frame it describes ([contents], offset to byte). *)
Record page := mk_page {
  PG_modified : bool;
  PG_shared : bool;
  PG_coherence : bool;
  private : Z;
  memcg_data : Z;
  mapping : Z;
  index : Z;
  contents : Z -> Z
}.

(** A [struct page] nobody has written to yet. *)
Definition blank_page : page :=
  {| PG_modified := false; PG_shared := false; PG_coherence := false;
     private := 0; memcg_data := NULL; mapping := 0; index := 0;
     contents := fun _ => 0 |}.

Inductive mm_call :=
  | Unmap_mapping_pages (mapping index nr : Z)
  | Free_pages (pg order : Z)
  | Flush_dcache_page (pg : Z).

(** The pool: [struct page]s by address, the two LRU lists (MRU first),
    the allocation counter, and the calls made into the memory manager. *)
Record pool := mk_pool {
  pages : gmap Z page;
  replica_active_lru : list Z;
  replica_inactive_lru : list Z;
  page_replica_allocated_pages : Z;
  mm_calls : list mm_call
}.

Definition page_at (s : pool) (a : Z) : page :=
  default blank_page (pages s !! a).

Definition upd_page (a : Z) (f : page -> page) (s : pool) : pool :=
  {| pages := <[a := f (page_at s a)]> (pages s);
     replica_active_lru := replica_active_lru s;
     replica_inactive_lru := replica_inactive_lru s;
     page_replica_allocated_pages := page_replica_allocated_pages s;
     mm_calls := mm_calls s |}.

Definition with_private (v : Z) (p : page) : page :=
  {| PG_modified := PG_modified p; PG_shared := PG_shared p;
     PG_coherence := PG_coherence p; private := v;
     memcg_data := memcg_data p; mapping := mapping p; index := index p;
     contents := contents p |}.

Definition with_memcg_data (v : Z) (p : page) : page :=
  {| PG_modified := PG_modified p; PG_shared := PG_shared p;
     PG_coherence := PG_coherence p; private := private p;
     memcg_data := v; mapping := mapping p; index := index p;
     contents := contents p |}.

Definition with_mapping (m i : Z) (p : page) : page :=
  {| PG_modified := PG_modified p; PG_shared := PG_shared p;
     PG_coherence := PG_coherence p; private := private p;
     memcg_data := memcg_data p; mapping := m; index := i;
     contents := contents p |}.

Definition with_contents (c : Z -> Z) (p : page) : page :=
  {| PG_modified := PG_modified p; PG_shared := PG_shared p;
     PG_coherence := PG_coherence p; private := private p;
     memcg_data := memcg_data p; mapping := mapping p; index := index p;
     contents := c |}.

Definition with_flags (m sh co : bool) (p : page) : page :=
  {| PG_modified := m; PG_shared := sh; PG_coherence := co;
     private := private p; memcg_data := memcg_data p;
     mapping := mapping p; index := index p; contents := contents p |}.

Definition with_lru (act inact : list Z) (s : pool) : pool :=
  {| pages := pages s; replica_active_lru := act;
     replica_inactive_lru := inact;
     page_replica_allocated_pages := page_replica_allocated_pages s;
     mm_calls := mm_calls s |}.

Definition mm_call_log (c : mm_call) (s : pool) : pool :=
  {| pages := pages s; replica_active_lru := replica_active_lru s;
     replica_inactive_lru := replica_inactive_lru s;
     page_replica_allocated_pages := page_replica_allocated_pages s;
     mm_calls := mm_calls s ++ [c] |}.

Definition track_page_alloc (order : Z) (s : pool) : pool :=
  {| pages := pages s; replica_active_lru := replica_active_lru s;
     replica_inactive_lru := replica_inactive_lru s;
     page_replica_allocated_pages :=
       page_replica_allocated_pages s + Z.shiftl 1 order;
     mm_calls := mm_calls s |}.

Definition track_page_free (order : Z) (s : pool) : pool :=
  {| pages := pages s; replica_active_lru := replica_active_lru s;
     replica_inactive_lru := replica_inactive_lru s;
     page_replica_allocated_pages :=
       page_replica_allocated_pages s - Z.shiftl 1 order;
     mm_calls := mm_calls s |}.

(** [list_add(&page_replica->lru, &replica_active_lru)] under the LRU
    lock, after [INIT_LIST_HEAD]. *)
Definition insert_replica_lru (r : Z) (s : pool) : pool :=
  with_lru (r :: replica_active_lru s) (replica_inactive_lru s) s.

(** [list_del_init(&page_replica->lru)]: a list node is linked in one
    place only, so unlinking it deletes the page from whichever list
    holds it. *)
Definition remove_replica_lru (r : Z) (s : pool) : pool :=
  with_lru (filter (fun x => x <> r) (replica_active_lru s))
           (filter (fun x => x <> r) (replica_inactive_lru s)) s.

Definition swmc_decode_replica_ptr (v : Z) : Z :=
  Z.land v (Z.lnot SWMC_TAG_MASK).

Definition swmc_access_count (v : Z) : Z := Z.shiftr v 32 mod 2 ^ 32.

Definition swmc_last_accessed_age (v : Z) : Z :=
  Z.shiftr (Z.land v 4294901760) 16 mod 2 ^ 16.

(** [get_replica_opt]: the replica of [orig], or [NULL]. *)
Definition get_replica_opt (s : pool) (orig : Z) : Z :=
  let v := private (page_at s orig) in
  if v =? 0 then NULL
  else if Z.land v SWMC_TAG_MASK =? SWMC_TAG_PTR
       then swmc_decode_replica_ptr v
       else NULL.

Definition get_original_opt (s : pool) (page_replica : Z) : Z :=
  memcg_data (page_at s page_replica).

(** [memcpy(dst, src, n)] on frame contents. *)
Definition memcpy (dst src : Z -> Z) (n : Z) : Z -> Z :=
  fun i => if (0 <=? i) && (i <? n) then src i else dst i.

(** [copy_data_page]; [kmap] and [kmap_local_page] cannot fail on a
    64-bit kernel, which leaves the [NULL] check and the copy. *)
Definition copy_data_page (src_page dst_page order : Z) (s : pool)
    : Z * pool :=
  if (src_page =? NULL) || (dst_page =? NULL) then (- EINVAL, s)
  else
    let bytes := Z.shiftl PAGE_SIZE order in
    let src := contents (page_at s src_page) in
    (0, upd_page dst_page
          (fun d => with_contents (memcpy (contents d) src bytes) d) s).

(** [alloc_pages(GFP_HIGHUSER_MOVABLE | __GFP_ZERO, order)] handing out
    the page at [r]: a page fresh from the allocator has clear flags, a
    zero [private] word and, with [__GFP_ZERO], zeroed contents. *)
Definition alloc_pages (r : Z) (s : pool) : pool :=
  upd_page r (fun _ => blank_page) s.

Section WithShrinker.

(** [replica_trigger_shrink]: the manual shrinker pass run between two
    allocation attempts.  What it reclaims depends on the referenced bits
    of every mapped replica; it is a parameter of the model. *)
Variable replica_trigger_shrink : Z -> pool -> pool.

(** The retry loop of [allocate_page_replica_with_retry]; [allocs] are
    the results of the successive [alloc_pages] calls ([NULL] for a
    failure), [retries_left] counts [MAX_ALLOCATE_RETRIES - retry_count]. *)
Fixpoint allocate_loop (retries_left : nat) (order : Z) (allocs : list Z)
    (s : pool) : Z * pool :=
  let page_replica := hd NULL allocs in
  if page_replica =? NULL then
    match retries_left with
    | O => (NULL, s)
    | S k =>
        let pages_to_free := if order =? 0 then 1 else 16 in
        allocate_loop k order (tl allocs)
          (replica_trigger_shrink pages_to_free s)
    end
  else (page_replica, track_page_alloc order (alloc_pages page_replica s)).

Definition allocate_page_replica_with_retry (order : Z) (allocs : list Z)
    (s : pool) : Z * pool :=
  allocate_loop MAX_ALLOCATE_RETRIES order allocs s.

(** [create_page_replica]. *)
Definition create_page_replica (page_original order : Z) (allocs : list Z)
    (s : pool) : Z * pool :=
  if negb (get_replica_opt s page_original =? NULL) then (- EINVAL, s)
  else
    let '(page_replica, s) := allocate_page_replica_with_retry order allocs s in
    if page_replica =? NULL then (- ENOMEM, s)
    else
      let free_pages (err : Z) (s : pool) :=
        (err, track_page_free order
                (mm_call_log (Free_pages page_replica order) s)) in
      let '(err, s) := copy_data_page page_original page_replica order s in
      if negb (err =? 0) then free_pages err s
      else
        let mapping_ := mapping (page_at s page_original) in
        let index_ := index (page_at s page_original) in
        if PG_modified (page_at s page_original)
           && PG_shared (page_at s page_original)
        then free_pages err s
        else
          let s := insert_replica_lru page_replica s in
          let s := if negb (mapping_ =? 0)
                   then mm_call_log
                          (Unmap_mapping_pages mapping_ index_
                             (Z.shiftl 1 order)) s
                   else s in
          let s := upd_page page_replica (with_memcg_data page_original) s in
          let s := upd_page page_original (with_private page_replica) s in
          let s := upd_page page_replica (with_mapping mapping_ index_) s in
          let s := upd_page page_replica
                     (with_private
                        (Z.land (private (page_at s page_original))
                                (Z.lnot SWMC_TAG_MASK))) s in
          let s := upd_page page_replica
                     (fun p => with_private
                        (Z.lor (Z.lor (private p) SWMC_TAG_REPLICA_SELF)
                               SWMC_TAG_ACCESS) p) s in
          (0, s).

End WithShrinker.

(** [writeback_page_replica]: always with [order = 0]. *)
Definition writeback_page_replica (page_replica : Z) (s : pool) : Z * pool :=
  let page_original := get_original_opt s page_replica in
  if page_original =? NULL then (- EINVAL, s)
  else
    let '(_, s) := copy_data_page page_replica page_original 0 s in
    (0, mm_call_log (Flush_dcache_page page_original) s).

(** How [flush_page_replica] ends: it returns, or it hands a [NULL]
    mapping to [unmap_mapping_pages], which takes the [i_mmap] lock that
    lives inside the mapping.  [create_page_replica] tests [mapping]
    before the same call; [flush_page_replica] does not. *)
Inductive flush_outcome :=
  | Flush_returned (ret : Z) (s : pool)
  | Flush_null_mapping (s : pool).

(** [flush_page_replica]. *)
Definition flush_page_replica (page_replica : Z) (s : pool) : flush_outcome :=
  let order := 0 in
  let '(err, s) := writeback_page_replica page_replica s in
  if negb (err =? 0) then Flush_returned err s
  else
    let page_original := get_original_opt s page_replica in
    let free_pages (s : pool) :=
      Flush_returned 0
        (track_page_free order
           (mm_call_log (Free_pages page_replica order) s)) in
    let s := upd_page page_original
               (with_private
                  (Z.land (private (page_at s page_replica))
                          (Z.lnot SWMC_TAG_MASK))) s in
    let s := upd_page page_original
               (fun p => with_private (Z.lor (private p) SWMC_TAG_ACCESS) p)
               s in
    let s := upd_page page_original
               (with_mapping (mapping (page_at s page_replica))
                             (index (page_at s page_original))) s in
    let s := upd_page page_original
               (with_mapping (mapping (page_at s page_original))
                             (index (page_at s page_replica))) s in
    if PG_modified (page_at s page_replica)
       && PG_shared (page_at s page_replica)
    then free_pages s
    else
      let s := upd_page page_replica (with_private 0) s in
      let s := upd_page page_replica (with_memcg_data NULL) s in
      let s := remove_replica_lru page_replica s in
      let mapping_ := mapping (page_at s page_original) in
      let index_ := index (page_at s page_original) in
      if mapping_ =? NULL then Flush_null_mapping s
      else
        let s := mm_call_log
                   (Unmap_mapping_pages mapping_ index_ (Z.shiftl 1 order))
                   s in
        free_pages s.

(** [fetch_page_replica]: note the direction of the copy in the source,
    [copy_data_page(page_replica, original, 0)]. *)
Definition fetch_page_replica (original : Z) (s : pool) : Z * pool :=
  let page_replica := get_replica_opt s original in
  if page_replica =? NULL then (-1, s)
  else
    let '(err, s) := copy_data_page page_replica original 0 s in
    if negb (err =? 0) then (err, s) else (0, s).

(** *** Notions used in the statements *)

Definition allocator_ok (orig : Z) (allocs : list Z) : Prop :=
  Forall (fun r => r = NULL \/ (r <> orig /\ Z.land r SWMC_TAG_MASK = 0)) allocs.

End Replication.

(** ** Hotness sampling and the replication tick (same source) *)

Module Hotness.
Import Replication.

(** The file-scope variables [hist], [hotness_threshold],
    [monitoring_age], [hot_page_percentile] and the list
    [replication_candidate] (in insertion order). *)
Record hot_state := mk_hot {
  hist : list Z;
  hotness_threshold : Z;
  monitoring_age : Z;
  hot_page_percentile : Z;
  replication_candidate : list Z
}.

Definition HIST_LEN : Z := 32.

(** The kernel's [fls64]: 1-based position of the most significant set
    bit of a 64-bit word, 0 for the word 0. *)
Definition fls64 (x : Z) : Z := if x =? 0 then 0 else Z.log2 x + 1.

(** What the sampling step can end in: it returns, or it indexes [hist]
    outside the array, or it shifts a 32-bit value by 32 or more (both
    undefined in C). *)
Inductive sample_result :=
  | Sampled (ret : Z) (h : hot_state) (s : pool)
  | Hist_out_of_bounds (idx : Z)
  | Shift_out_of_range (age_diff : Z).

(** The aged access count: [inl age_diff] when the shift by [age_diff] is
    not defined, else [inr (access_count, new_access_count)]. *)
Definition aged_counts (monitoring_age_ v : Z) : Z + Z * Z :=
  let access_count := swmc_access_count v in
  let last_accessed_age := swmc_last_accessed_age v in
  if last_accessed_age <? monitoring_age_ then
    let age_diff := (monitoring_age_ - last_accessed_age) mod 2 ^ 16 in
    if 32 <=? age_diff then inl age_diff
    else
      let access_count := Z.shiftr access_count age_diff in
      inr (access_count, access_count + 1)
  else inr (access_count, access_count + 1).

(** The indices at which the update step touches [hist], in order. *)
Definition hist_accesses (monitoring_age_ v : Z) : list Z :=
  match aged_counts monitoring_age_ v with
  | inl _ => []
  | inr (access_count, new_access_count) =>
      let new_msb_index := fls64 new_access_count - 1 in
      let old_msb_index := fls64 access_count - 1 in
      if negb (new_msb_index =? old_msb_index)
      then [old_msb_index; new_msb_index]
      else []
  end.

Definition in_hist_bounds (idx : Z) : Prop := 0 <= idx < HIST_LEN.

(** [hist[idx] += d] on the 32-entry array of [unsigned long]. *)
Definition hist_add (idx d : Z) (h : list Z) : option (list Z) :=
  if (0 <=? idx) && (idx <? HIST_LEN) then
    Some (<[Z.to_nat idx := wrap64 (nth (Z.to_nat idx) h 0 + d)]> h)
  else None.

(** [add_page_to_list]: nothing is added when [kmalloc] fails. *)
Definition add_page_to_list (node_alloc_ok : bool) (l : list Z) (pg : Z)
    : list Z :=
  if node_alloc_ok then l ++ [pg] else l.

(** [handle_sampled_address].  [gup] is what [pid_task], [get_task_mm]
    and [get_user_pages_remote] resolve the sample to: [None] when one of
    them fails, else the page pointer. *)
Definition handle_sampled_address (gup : option Z) (node_alloc_ok : bool)
    (h : hot_state) (s : pool) : sample_result :=
  match gup with
  | None => Sampled (- EINVAL) h s
  | Some pg =>
      if pg =? NULL then Sampled (- EINVAL) h s
      else if negb (PG_coherence (page_at s pg)) then Sampled (- EINVAL) h s
      else
        let v := private (page_at s pg) in
        match aged_counts (monitoring_age h) v with
        | inl age_diff => Shift_out_of_range age_diff
        | inr (access_count, new_access_count) =>
            let last_accessed_age := monitoring_age h mod 2 ^ 16 in
            let s := upd_page pg
                       (with_private
                          (Z.lor (Z.lor (wrap64 (Z.shiftl new_access_count 32))
                                        (Z.shiftl last_accessed_age 16))
                                 (Z.land v SWMC_TAG_MASK))) s in
            let new_msb_index := fls64 new_access_count - 1 in
            let old_msb_index := fls64 access_count - 1 in
            let updated :=
              if negb (new_msb_index =? old_msb_index) then
                match hist_add old_msb_index (-1) (hist h) with
                | None => inl old_msb_index
                | Some h1 =>
                    match hist_add new_msb_index 1 h1 with
                    | None => inl new_msb_index
                    | Some h2 => inr h2
                    end
                end
              else inr (hist h) in
            match updated with
            | inl idx => Hist_out_of_bounds idx
            | inr hist' =>
                let cand :=
                  if hotness_threshold h <=? new_msb_index
                  then add_page_to_list node_alloc_ok
                         (replication_candidate h) pg
                  else replication_candidate h in
                Sampled 0
                  {| hist := hist'; hotness_threshold := hotness_threshold h;
                     monitoring_age := monitoring_age h;
                     hot_page_percentile := hot_page_percentile h;
                     replication_candidate := cand |} s
            end
        end
  end.

(** The second loop of [calculate_hotness_threshold], from [i] down to 0. *)
Fixpoint threshold_scan (hist_ : list Z) (target cumulative : Z) (i : nat)
    : Z :=
  let cumulative := wrap64 (cumulative + nth i hist_ 0) in
  if target <=? cumulative then Z.of_nat i
  else match i with
       | O => 0
       | S k => threshold_scan hist_ target cumulative k
       end.

Definition calculate_hotness_threshold (h : hot_state) (percentile : Z) : Z :=
  let total_samples :=
    fold_left (fun acc x => wrap64 (acc + x)) (firstn 32 (hist h)) 0 in
  if total_samples =? 0 then hotness_threshold h
  else
    let target_samples := wrap64 (total_samples * percentile) / 100 in
    threshold_scan (hist h) target_samples 0 31.

(** One iteration of the cool-down loop of [kreplicationd]:
    [hist[j-1] += hist[j]; hist[j] = 0]. *)
Definition cool_step (hist_ : list Z) (j : nat) : list Z :=
  <[j := 0]>
    (<[(j - 1)%nat := wrap64 (nth (j - 1) hist_ 0 + nth j hist_ 0)]> hist_).

(** [for (int j = 1; j < 32; j++) ...]. *)
Definition cool_down_histogram (hist_ : list Z) : list Z :=
  fold_left cool_step (seq 1 31) hist_.

(** Steps 2-4 to 2-6 of the replication interval in [kreplicationd]:
    the age is incremented, the threshold recomputed, the histogram
    cooled. *)
Definition replication_tick_tail (h : hot_state) : hot_state :=
  let h1 := {| hist := hist h; hotness_threshold := hotness_threshold h;
               monitoring_age := wrap64 (monitoring_age h + 1);
               hot_page_percentile := hot_page_percentile h;
               replication_candidate := replication_candidate h |} in
  {| hist := cool_down_histogram (hist h1);
     hotness_threshold :=
       calculate_hotness_threshold h1 (hot_page_percentile h1);
     monitoring_age := monitoring_age h1;
     hot_page_percentile := hot_page_percentile h1;
     replication_candidate := replication_candidate h1 |}.

End Hotness.

(** ** The fault engine ([page_coherence.c]) *)

Module Coherence.
Import Kmsg Replication.

Definition FAULT_HASH_SIZE : Z := 31.
Definition WAIT_STATION_THRESHOLD : Z := 52428.

(** [enum vm_fault_reason] of the kernel: [VM_FAULT_RETRY = 0x000400]. *)
Definition VM_FAULT_RETRY : Z := 1024.

Definition FH_STATE_RETRY : Z := 32.
Definition FH_STATE_REMOTE : Z := 16.
Definition FH_STATE_REPLICATED : Z := 8.
Definition FH_STATE_NEEDWRITE : Z := 4.
Definition FH_STATE_MODIFIED : Z := 2.
Definition FH_STATE_SHARED : Z := 1.

Definition FH_ACTION_INVALID : Z := 0.
Definition FH_ACTION_UPDATE_METADATA : Z := 1.
Definition FH_ACTION_ISSUE_SYNC_TRANSACTION : Z := 2.
Definition FH_ACTION_ISSUE_ASYNC_TRANSACTION : Z := 4.
Definition FH_ACTION_WAIT_FOR_ASYNC_TRANSACTION : Z := 8.
Definition FH_ACTION_MAP_VPN_TO_PFN : Z := 16.
Definition FH_ACTION_WRITEBACK : Z := 32.
Definition FH_ACTION_INVALIDATE : Z := 64.
Definition FH_ACTION_RESPOND : Z := 128.

(** [pfn_t] of the kernel: the top [PAGE_SHIFT] bits of the 64-bit value
    carry flags. *)
Definition PFN_FLAGS_MASK : Z := Z.shiftl 4095 52.
Definition pfn_t_to_pfn (pfn : Z) : Z := Z.land pfn (Z.lnot PFN_FLAGS_MASK).
Definition pfn_to_pfn_t (pfn : Z) : Z := pfn.

(** [pfn_to_page] and [page_to_pfn] with the x86-64 vmemmap layout: the
    [struct page] array starts at [VMEMMAP_START], 64 bytes an entry. *)
Definition VMEMMAP_START : Z := 18446719884453740544.
Definition pfn_to_page (pfn : Z) : Z := wrap64 (VMEMMAP_START + 64 * pfn).
Definition page_to_pfn (pg : Z) : Z := wrap64 (pg - VMEMMAP_START) / 64.

(** [struct fault_handle].  [complete] tells whether a sleeping local
    fault has attached its completion. *)
Record fault_handle := mk_fh {
  original_pfn_val : Z;
  original_page : Z;
  fh_flags : Z;
  fh_action : Z;
  complete : bool
}.

Definition with_fh_flags (v : Z) (fh : fault_handle) : fault_handle :=
  {| original_pfn_val := original_pfn_val fh;
     original_page := original_page fh; fh_flags := v;
     fh_action := fh_action fh; complete := complete fh |}.

Definition with_fh_action (v : Z) (fh : fault_handle) : fault_handle :=
  {| original_pfn_val := original_pfn_val fh;
     original_page := original_page fh; fh_flags := fh_flags fh;
     fh_action := v; complete := complete fh |}.

Definition with_complete (c : bool) (fh : fault_handle) : fault_handle :=
  {| original_pfn_val := original_pfn_val fh;
     original_page := original_page fh; fh_flags := fh_flags fh;
     fh_action := fh_action fh; complete := c |}.

Definition set_flag (f : Z) (fh : fault_handle) : fault_handle :=
  with_fh_flags (Z.lor (fh_flags fh) f) fh.
Definition clear_flag (f : Z) (fh : fault_handle) : fault_handle :=
  with_fh_flags (Z.land (fh_flags fh) (Z.lnot f)) fh.
Definition is_flag (f : Z) (fh : fault_handle) : bool :=
  negb (Z.land (fh_flags fh) f =? 0).

Definition is_RETRY := is_flag FH_STATE_RETRY.
Definition is_REMOTE := is_flag FH_STATE_REMOTE.
Definition is_REPLICATED := is_flag FH_STATE_REPLICATED.
Definition is_NEEDWRITE := is_flag FH_STATE_NEEDWRITE.
Definition is_MODIFIED := is_flag FH_STATE_MODIFIED.
Definition is_SHARED := is_flag FH_STATE_SHARED.

Definition FH_CLEAR_FLAG_ALL (fh : fault_handle) : fault_handle :=
  clear_flag FH_STATE_SHARED
    (clear_flag FH_STATE_MODIFIED
       (clear_flag FH_STATE_NEEDWRITE
          (clear_flag FH_STATE_REPLICATED
             (clear_flag FH_STATE_REMOTE
                (clear_flag FH_STATE_RETRY fh))))).

(** What the engine does that is visible outside its own tables. *)
Inductive event :=
  | Unicast (ty ws dest : Z) (p : payload_data)
  | Broadcast (ty ws : Z) (p : payload_data)
  | Wait_at_station (ws : Z)
  | Writeback_page (pfn : Z)
  | Pfn_mkclean (pfn_to_clean : Z)
  | Invalidate_page (pfn : Z)
  | Update_metadata (pfn : Z)
  | Map_vpn_to_pfn (pfn : Z)
  | Fetch_page_replica (pfn : Z)
  | Wait_for_async (pfn : Z)
  | Complete (pfn : Z)
  | Msleep (ms : Z).

(** The file-scope state of [page_coherence.c], the pool it shares with
    the replication source, and the events so far. *)
Record engine := mk_engine {
  cxl_hdm_base : Z;
  cxl_hdm_base_pfn : Z;
  page_coherence_enabled : Z;
  page_coherence_fault_count : Z;
  page_coherence_fault_read_count : Z;
  page_coherence_fault_write_count : Z;
  nr_in_flight_transactions : Z;
  __local_acked_fault_count : Z;
  faults : gmap Z (list fault_handle);
  mem : pool;
  events : list event
}.

Definition with_faults (t : gmap Z (list fault_handle)) (e : engine) : engine :=
  {| cxl_hdm_base := cxl_hdm_base e; cxl_hdm_base_pfn := cxl_hdm_base_pfn e;
     page_coherence_enabled := page_coherence_enabled e;
     page_coherence_fault_count := page_coherence_fault_count e;
     page_coherence_fault_read_count := page_coherence_fault_read_count e;
     page_coherence_fault_write_count := page_coherence_fault_write_count e;
     nr_in_flight_transactions := nr_in_flight_transactions e;
     __local_acked_fault_count := __local_acked_fault_count e;
     faults := t; mem := mem e; events := events e |}.

Definition with_mem (m : pool) (e : engine) : engine :=
  {| cxl_hdm_base := cxl_hdm_base e; cxl_hdm_base_pfn := cxl_hdm_base_pfn e;
     page_coherence_enabled := page_coherence_enabled e;
     page_coherence_fault_count := page_coherence_fault_count e;
     page_coherence_fault_read_count := page_coherence_fault_read_count e;
     page_coherence_fault_write_count := page_coherence_fault_write_count e;
     nr_in_flight_transactions := nr_in_flight_transactions e;
     __local_acked_fault_count := __local_acked_fault_count e;
     faults := faults e; mem := m; events := events e |}.

Definition emit (ev : event) (e : engine) : engine :=
  {| cxl_hdm_base := cxl_hdm_base e; cxl_hdm_base_pfn := cxl_hdm_base_pfn e;
     page_coherence_enabled := page_coherence_enabled e;
     page_coherence_fault_count := page_coherence_fault_count e;
     page_coherence_fault_read_count := page_coherence_fault_read_count e;
     page_coherence_fault_write_count := page_coherence_fault_write_count e;
     nr_in_flight_transactions := nr_in_flight_transactions e;
     __local_acked_fault_count := __local_acked_fault_count e;
     faults := faults e; mem := mem e; events := events e ++ [ev] |}.

Definition inc_in_flight (e : engine) : engine :=
  {| cxl_hdm_base := cxl_hdm_base e; cxl_hdm_base_pfn := cxl_hdm_base_pfn e;
     page_coherence_enabled := page_coherence_enabled e;
     page_coherence_fault_count := page_coherence_fault_count e;
     page_coherence_fault_read_count := page_coherence_fault_read_count e;
     page_coherence_fault_write_count := page_coherence_fault_write_count e;
     nr_in_flight_transactions := nr_in_flight_transactions e + 1;
     __local_acked_fault_count := __local_acked_fault_count e;
     faults := faults e; mem := mem e; events := events e |}.

(** The increments of the three fault counters at the top of
    [page_coherence_fault]. *)
Definition count_fault (write : bool) (e : engine) : engine :=
  {| cxl_hdm_base := cxl_hdm_base e; cxl_hdm_base_pfn := cxl_hdm_base_pfn e;
     page_coherence_enabled := page_coherence_enabled e;
     page_coherence_fault_count := page_coherence_fault_count e + 1;
     page_coherence_fault_read_count :=
       page_coherence_fault_read_count e + (if write then 0 else 1);
     page_coherence_fault_write_count :=
       page_coherence_fault_write_count e + (if write then 1 else 0);
     nr_in_flight_transactions := nr_in_flight_transactions e;
     __local_acked_fault_count := __local_acked_fault_count e;
     faults := faults e; mem := mem e; events := events e |}.

(** What the rest of the system decides during one call into the engine. *)
Record world := mk_world {
  (** [kmem_cache_alloc(__fault_handle_cache, GFP_ATOMIC)] succeeds *)
  handle_alloc_ok : bool;
  (** return value of [swmc_kmsg_unicast] *)
  unicast_ret : Z;
  (** failed [get_wait_station_multiple] calls before one succeeds, and
      the id of the station then obtained *)
  ws_failures : nat;
  station_id : Z;
  (** failed [swmc_kmsg_broadcast] calls before one succeeds *)
  broadcast_failures : nat;
  (** the pointer [wait_at_station] returns, as a [long] *)
  wait_result : Z;
  (** the indeterminate initial value of [ret] in
      [issue_page_coherence_transaction] *)
  stack_ret : Z;
  (** what other threads do to the engine while this one sleeps in
      [wait_for_completion] ([None]: it is never woken) and in
      [wait_at_station] *)
  while_asleep : engine -> option engine;
  while_waiting : engine -> engine
}.

Definition __fault_hash_key (pfn : Z) : Z := pfn mod FAULT_HASH_SIZE.

Definition bucket (e : engine) (fk : Z) : list fault_handle :=
  default [] (faults e !! fk).

Definition set_bucket (fk : Z) (b : list fault_handle) (e : engine) : engine :=
  with_faults (<[fk := b]> (faults e)) e.

(** [hlist_for_each_entry] with the test on [original_pfn_val]: the first
    handle of the bucket for the frame. *)
Definition find_fh (pfn : Z) (b : list fault_handle) : option fault_handle :=
  List.find (fun fh => original_pfn_val fh =? pfn) b.

Fixpoint update_first (pfn : Z) (f : fault_handle -> fault_handle)
    (b : list fault_handle) : list fault_handle :=
  match b with
  | [] => []
  | fh :: b' =>
      if original_pfn_val fh =? pfn then f fh :: b'
      else fh :: update_first pfn f b'
  end.

Fixpoint remove_first (pfn : Z) (b : list fault_handle) : list fault_handle :=
  match b with
  | [] => []
  | fh :: b' =>
      if original_pfn_val fh =? pfn then b' else fh :: remove_first pfn b'
  end.

(** A handle is referred to by its frame number: the only insertion into
    a bucket follows a failed search under the bucket lock.  [fh_of]
    reads through the pointer, [fh_upd] writes through it, [fh_del] is
    [hlist_del_init] followed by [kmem_cache_free]. *)
Definition blank_fh (pfn : Z) : fault_handle :=
  {| original_pfn_val := pfn; original_page := pfn_to_page pfn;
     fh_flags := 0; fh_action := 0; complete := false |}.

Definition fh_of (e : engine) (pfn : Z) : fault_handle :=
  default (blank_fh pfn) (find_fh pfn (bucket e (__fault_hash_key pfn))).

Definition fh_upd (pfn : Z) (f : fault_handle -> fault_handle) (e : engine)
    : engine :=
  let fk := __fault_hash_key pfn in
  set_bucket fk (update_first pfn f (bucket e fk)) e.

Definition fh_del (pfn : Z) (e : engine) : engine :=
  let fk := __fault_hash_key pfn in
  set_bucket fk (remove_first pfn (bucket e fk)) e.

(** [__alloc_fault_handle]: [None] is the [NULL] of a failed allocation. *)
Definition __alloc_fault_handle (w : world) (pfn : Z) (e : engine)
    : option engine :=
  let fk := __fault_hash_key pfn in
  if handle_alloc_ok w then Some (set_bucket fk (blank_fh pfn :: bucket e fk) e)
  else None.

Definition has_lower_priority (fh : fault_handle) (is_write : bool)
    (remote_acked_fault_count remote_node_id local_node_id : Z)
    (e : engine) : bool :=
  let local_is_write := is_NEEDWRITE fh in
  let local_acked_count := __local_acked_fault_count e in
  if negb is_write && local_is_write then true
  else if is_write && local_is_write then
    if remote_acked_fault_count <? local_acked_count then false
    else if local_acked_count <? remote_acked_fault_count then true
    else local_node_id <? remote_node_id
  else false.

Definition check_metadata (s : pool) (fh : fault_handle) : fault_handle :=
  let fh := if PG_shared (page_at s (original_page fh))
            then set_flag FH_STATE_SHARED fh
            else clear_flag FH_STATE_SHARED fh in
  let fh := if PG_modified (page_at s (original_page fh))
            then set_flag FH_STATE_MODIFIED fh
            else clear_flag FH_STATE_MODIFIED fh in
  if negb (get_replica_opt s (original_page fh) =? NULL)
  then set_flag FH_STATE_REPLICATED fh
  else clear_flag FH_STATE_REPLICATED fh.

(** [fh_action_table], in the order of the source: index bit 4 is REMOTE,
    bit 3 REPLICATED, bit 2 NEEDWRITE, bit 1 MODIFIED, bit 0 SHARED. *)
Definition fh_action_table : list Z :=
  let UPD := FH_ACTION_UPDATE_METADATA in
  let SYNC := FH_ACTION_ISSUE_SYNC_TRANSACTION in
  let ASYNC := FH_ACTION_ISSUE_ASYNC_TRANSACTION in
  let WAIT := FH_ACTION_WAIT_FOR_ASYNC_TRANSACTION in
  let MAP := FH_ACTION_MAP_VPN_TO_PFN in
  let WB := FH_ACTION_WRITEBACK in
  let INV := FH_ACTION_INVALIDATE in
  let RESP := FH_ACTION_RESPOND in
  let or2 := Z.lor in
  let or3 a b c := Z.lor (Z.lor a b) c in
  let or4 a b c d := Z.lor (Z.lor (Z.lor a b) c) d in
  [ (* local fault *)
    (* - - - - *) or3 ASYNC UPD MAP;
    (* - - - S *) MAP;
    (* - - M - *) MAP;
    (* - - M S *) MAP;
    (* - W - - *) or3 SYNC UPD MAP;
    (* - W - S *) or2 SYNC UPD;
    (* - W M - *) MAP;
    (* - W M S *) or4 WAIT SYNC UPD MAP;
    (* R - - - *) or3 SYNC UPD MAP;
    (* R - - S *) MAP;
    (* R - M - *) MAP;
    (* R - M S *) FH_ACTION_INVALID;
    (* R W - - *) or3 SYNC UPD MAP;
    (* R W - S *) or3 SYNC UPD MAP;
    (* R W M - *) MAP;
    (* R W M S *) FH_ACTION_INVALID;
    (* remote fault *)
    (* - - - - *) RESP;
    (* - - - S *) RESP;
    (* - - M - *) or3 RESP WB UPD;
    (* - - M S *) RESP;
    (* - W - - *) RESP;
    (* - W - S *) or3 RESP INV UPD;
    (* - W M - *) or4 RESP WB INV UPD;
    (* - W M S *) or3 RESP INV UPD;
    (* R - - - *) RESP;
    (* R - - S *) RESP;
    (* R - M - *) or3 RESP WB UPD;
    (* R - M S *) RESP;
    (* R W - - *) RESP;
    (* R W - S *) or3 RESP INV UPD;
    (* R W M - *) or4 RESP INV WB UPD;
    (* R W M S *) FH_ACTION_INVALID ].

Definition set_fh_action (fh : fault_handle) : fault_handle :=
  let index_ := Z.land (fh_flags fh) 31 in
  with_fh_action (nth (Z.to_nat index_) fh_action_table 0) fh.

Definition has_action (a : Z) (fh : fault_handle) : bool :=
  negb (Z.land (fh_action fh) a =? 0).

(** "Clear & update flags": the block shared by the two start functions;
    [remote] adds [set_REMOTE]. *)
Definition refresh_handle (remote is_write : bool) (s : pool)
    (fh : fault_handle) : fault_handle :=
  let fh := FH_CLEAR_FLAG_ALL fh in
  let fh := if remote then set_flag FH_STATE_REMOTE fh else fh in
  let fh := if is_write then set_flag FH_STATE_NEEDWRITE fh
            else clear_flag FH_STATE_NEEDWRITE fh in
  set_fh_action (check_metadata s fh).

(** [__finish_local_fault_handling]: [true] when the fault has to be
    redone. *)
Definition __finish_local_fault_handling (pfn : Z) (e : engine)
    : bool * engine :=
  let retry := is_RETRY (fh_of e pfn) in
  (retry, fh_del pfn e).

(** [__finish_remote_fault_handling]: [true] when the handle is freed. *)
Definition __finish_remote_fault_handling (pfn : Z) (e : engine)
    : bool * engine :=
  if complete (fh_of e pfn) then
    (false, fh_upd pfn (with_complete false) (emit (Complete pfn) e))
  else if is_REMOTE (fh_of e pfn) then (true, fh_del pfn e)
  else (false, e).

(** How [__start_local_fault_handling] ends: with a handle for the frame
    in the table, with [NULL], or asleep for good in
    [wait_for_completion]. *)
Inductive local_start :=
  | Handle (e : engine)
  | No_handle (e : engine)
  | Asleep (e : engine).

Definition __start_local_fault_handling (w : world) (original_pfn : Z)
    (is_write : bool) (e : engine) : local_start :=
  let original_pfn_val := pfn_t_to_pfn original_pfn in
  let update e :=
    Handle (fh_upd original_pfn_val (refresh_handle false is_write (mem e)) e) in
  match find_fh original_pfn_val (bucket e (__fault_hash_key original_pfn_val)) with
  | Some _ =>
      let e := fh_upd original_pfn_val (with_complete true) e in
      match while_asleep w e with
      | None => Asleep e
      | Some e =>
          if is_NEEDWRITE (fh_of e original_pfn_val)
          then No_handle (fh_del original_pfn_val e)
          else update e
      end
  | None =>
      match __alloc_fault_handle w original_pfn_val e with
      | None => No_handle e
      | Some e => update e
      end
  end.

(** [__start_remote_fault_handling]: [true] with a handle for the frame
    (ACK), [false] for [NULL] (NACK). *)
Definition __start_remote_fault_handling (w : world) (original_pfn : Z)
    (is_write : bool) (remote_acked_fault_count remote_node_id local_node_id : Z)
    (e : engine) : bool * engine :=
  let original_pfn_val := pfn_t_to_pfn original_pfn in
  match find_fh original_pfn_val (bucket e (__fault_hash_key original_pfn_val)) with
  | Some fh =>
      if is_REMOTE fh then (false, e)
      else if has_lower_priority fh is_write remote_acked_fault_count
                remote_node_id local_node_id e
      then (false, e)
      else
        (true, if is_write
               then fh_upd original_pfn_val (set_flag FH_STATE_RETRY) e
               else e)
  | None =>
      match __alloc_fault_handle w original_pfn_val e with
      | None => (false, e)
      | Some e =>
          (true, fh_upd original_pfn_val
                   (refresh_handle true is_write (mem e)) e)
      end
  end.

Definition emit_n (n : nat) (evs : list event) (e : engine) : engine :=
  Nat.iter n (fun e => fold_left (fun e ev => emit ev e) evs e) e.

(** The payload and the two retry loops shared by
    [broadcast_message_and_wait] and [broadcast_message]. *)
Definition broadcast_payload (original_pfn order : Z) (e : engine)
    : payload_data :=
  {| cxl_hdm_offset :=
       wrap64 (pfn_t_to_pfn original_pfn * PAGE_SIZE - cxl_hdm_base e);
     page_order := order;
     acked_fault_count := __local_acked_fault_count e |}.

Definition broadcast_loops (w : world) (msg_type : Z) (p : payload_data)
    (e : engine) : engine :=
  let e := emit_n (ws_failures w) [Msleep 10] e in
  let e := emit_n (broadcast_failures w)
             [Broadcast msg_type (station_id w) p; Msleep 10] e in
  emit (Broadcast msg_type (station_id w) p) e.

Definition broadcast_message_and_wait (w : world) (msg_type original_pfn order : Z)
    (e : engine) : Z * engine :=
  let p := broadcast_payload original_pfn order e in
  let e := broadcast_loops w msg_type p e in
  let e := while_waiting w (emit (Wait_at_station (station_id w)) e) in
  if wait_result w =? -1 then (- EAGAIN, e)
  else if (-4095 <=? wait_result w) && (wait_result w <? 0)
       then (to_int32 (wait_result w), e)
       else (0, e).

(** [broadcast_message]: the station it returns is never [NULL]. *)
Definition broadcast_message (w : world) (msg_type original_pfn order : Z)
    (e : engine) : engine :=
  broadcast_loops w msg_type (broadcast_payload original_pfn order e) e.

Definition issue_page_coherence_transaction (w : world) (pfn : Z) (e : engine)
    : Z * engine :=
  let ret := stack_ret w in
  let '(ret, e) :=
    let fh := fh_of e pfn in
    if negb (is_NEEDWRITE fh) && negb (is_SHARED fh) && negb (is_MODIFIED fh)
    then broadcast_message_and_wait w SWMC_KMSG_TYPE_FETCH
           (pfn_to_pfn_t (original_pfn_val fh)) 0 e
    else (ret, e) in
  let '(ret, e) :=
    let fh := fh_of e pfn in
    if is_NEEDWRITE fh && negb (is_MODIFIED fh)
    then broadcast_message_and_wait w SWMC_KMSG_TYPE_INVALIDATE
           (pfn_to_pfn_t (original_pfn_val fh)) 0 e
    else (ret, e) in
  if ret =? - EAGAIN then (- EAGAIN, e)
  else if negb (ret =? 0) then (ret, e)
  else
    let fh := fh_of e pfn in
    if is_REPLICATED fh && negb (is_SHARED fh) then
      let '(ret, m) := fetch_page_replica (original_page fh) (mem e) in
      let e := emit (Fetch_page_replica pfn) (with_mem m e) in
      if negb (ret =? 0) then (ret, e) else (0, e)
    else (0, e).

Definition issue_page_coherence_transaction_async (w : world) (pfn : Z)
    (e : engine) : Z * engine :=
  (0, broadcast_message w SWMC_KMSG_TYPE_FETCH
        (pfn_to_pfn_t (original_pfn_val (fh_of e pfn))) 0 e).

Definition update_metadata (pfn : Z) (e : engine) : engine :=
  let fh := fh_of e pfn in
  let set_flags (m sh : bool) :=
    with_mem (upd_page (original_page fh)
                (fun p => with_flags m sh (PG_coherence p) p) (mem e))
             (emit (Update_metadata pfn) e) in
  if is_REMOTE fh then
    if is_NEEDWRITE fh then set_flags false false else set_flags false true
  else
    if is_NEEDWRITE fh then set_flags true false else set_flags false true.

(** [map_vpn_to_pfn]: the new value of [*pfn]. *)
Definition map_vpn_to_pfn (pfn : Z) (original_pfn : Z) (e : engine) : Z :=
  let original_pfn_val_ := pfn_t_to_pfn original_pfn in
  let page_replica := get_replica_opt (mem e) (original_page (fh_of e pfn)) in
  Z.lor (page_to_pfn page_replica) (Z.land original_pfn_val_ PFN_FLAGS_MASK).

(** [writeback_page]: the data goes back with [writeback_page_replica]
    for a replicated page and with [clflush] otherwise; caches are not
    part of the model.  The loop over the VMAs of the mapping, one
    [pfn_mkclean_range] each, appears as a single [Pfn_mkclean] event:
    page tables are not part of the model either, and the mapping, whose
    lock the source takes first, is not looked at. *)
Definition writeback_page (pfn : Z) (e : engine) : engine :=
  let fh := fh_of e pfn in
  let e := emit (Writeback_page pfn) e in
  let e :=
    if is_REPLICATED fh then
      let page_replica := get_replica_opt (mem e) (original_page fh) in
      with_mem (snd (writeback_page_replica page_replica (mem e))) e
    else e in
  let pfn_to_clean :=
    if is_REPLICATED fh
    then page_to_pfn (get_replica_opt (mem e) (original_page fh))
    else original_pfn_val fh in
  emit (Pfn_mkclean pfn_to_clean) e.

(** [invalidate_page]: the call
    [unmap_mapping_pages(mapping, index, 1, false)] is recorded with its
    arguments, whatever the mapping; the kernel function takes the lock
    that lives inside it. *)
Definition invalidate_page (pfn : Z) (e : engine) : engine :=
  let fh := fh_of e pfn in
  let pg := if is_REPLICATED fh
            then get_replica_opt (mem e) (original_page fh)
            else original_page fh in
  let m := mm_call_log
             (Unmap_mapping_pages (mapping (page_at (mem e) pg))
                (index (page_at (mem e) pg)) 1) (mem e) in
  with_mem m (emit (Invalidate_page pfn) e).

(** The replies of the handler: [SWMC_KMSG_TYPE_INVALIDATE_ACK] or
    [SWMC_KMSG_TYPE_FETCH_ACK], and the NACK of the same class. *)
Definition ack_of (ty : Z) : Z :=
  if ty =? SWMC_KMSG_TYPE_INVALIDATE then SWMC_KMSG_TYPE_INVALIDATE_ACK
  else SWMC_KMSG_TYPE_FETCH_ACK.

Definition nack_of (ty : Z) : Z :=
  if ty =? SWMC_KMSG_TYPE_INVALIDATE then SWMC_KMSG_TYPE_INVALIDATE_NACK
  else SWMC_KMSG_TYPE_FETCH_NACK.

(** [swmc_kmsg_unicast(ty, msg->header.ws_id, msg->header.from_nid, payload)]. *)
Definition reply_to (msg : swmc_kmsg_message) (ty : Z) : event :=
  Unicast ty (ws_id (header msg)) (from_nid (header msg)) (payload msg).

(** The frame a FETCH or INVALIDATE message is about:
    [(cxl_hdm_base + payload->cxl_hdm_offset) >> PAGE_SHIFT]. *)
Definition message_pfn (e : engine) (msg : swmc_kmsg_message) : Z :=
  pfn_t_to_pfn
    (pfn_to_pfn_t
       (Z.shiftr (wrap64 (cxl_hdm_base e + cxl_hdm_offset (payload msg)))
                 PAGE_SHIFT)).

(** [swmc_kmsg_handle_fetch_or_invalidate] from the test of
    [fh->fh_action] on, that is, with the handle [fh] of frame [pfn] in
    hand. *)
Definition serve_remote_fault (w : world) (msg : swmc_kmsg_message) (pfn : Z)
    (e : engine) : Z * engine :=
  let ack := ack_of (type (header msg)) in
  if fh_action (fh_of e pfn) =? 0 then
    let e := emit (reply_to msg ack) e in
    (unicast_ret w, snd (__finish_remote_fault_handling pfn e))
  else
    let e := if has_action FH_ACTION_WRITEBACK (fh_of e pfn)
             then writeback_page pfn e else e in
    let e := if has_action FH_ACTION_INVALIDATE (fh_of e pfn)
             then invalidate_page pfn e else e in
    let e := if has_action FH_ACTION_UPDATE_METADATA (fh_of e pfn)
             then update_metadata pfn e else e in
    let e := emit (reply_to msg ack) e in
    match find_fh pfn (bucket e (__fault_hash_key pfn)) with
    | None => (0, e)
    | Some _ => (0, snd (__finish_remote_fault_handling pfn e))
    end.

(** [swmc_kmsg_handle_fetch_or_invalidate]; the message pointer may be
    [NULL]. *)
Definition swmc_kmsg_handle_fetch_or_invalidate (w : world)
    (msg : option swmc_kmsg_message) (e : engine) : Z * engine :=
  match msg with
  | None => (- EINVAL, e)
  | Some msg =>
      let ty := type (header msg) in
      if negb (ty =? SWMC_KMSG_TYPE_FETCH)
         && negb (ty =? SWMC_KMSG_TYPE_INVALIDATE)
      then (- EINVAL, e)
      else
        let p := payload msg in
        let original_phys_addr := wrap64 (cxl_hdm_base e + cxl_hdm_offset p) in
        if negb ((page_order p =? 0) || (page_order p =? PMD_ORDER))
        then (- EINVAL, e)
        else
          let original_pfn := pfn_to_pfn_t (Z.shiftr original_phys_addr PAGE_SHIFT) in
          let is_write := ty =? SWMC_KMSG_TYPE_INVALIDATE in
          let '(got, e) :=
            __start_remote_fault_handling w original_pfn is_write
              (acked_fault_count p) (from_nid (header msg))
              (to_nid (header msg)) e in
          if negb got
          then (unicast_ret w, emit (reply_to msg (nack_of ty)) e)
          else serve_remote_fault w msg (pfn_t_to_pfn original_pfn) e
  end.

(** How [page_coherence_fault] ends: it returns [ret] with [*pfn] set to
    [pfn]; it dereferences the [NULL] handle; or it never wakes up. *)
Inductive fault_outcome :=
  | Returned (ret : Z) (pfn : Z) (e : engine)
  | Null_dereference (e : engine)
  | Never_woken (e : engine).

(** [strstr(filename, s)] is not [NULL]. *)
Definition strstr (filename s : string) : bool :=
  match String.index 0 s filename with Some _ => true | None => false end.

(** The entry checks of [page_coherence_fault] let the fault through. *)
Definition fault_is_handled (original_pfn : Z) (filename : string)
    (e : engine) : bool :=
  negb (page_coherence_enabled e =? 0)
  && negb (pfn_t_to_pfn original_pfn <? pfn_t_to_pfn (cxl_hdm_base_pfn e))
  && negb (strstr filename ".log")
  && negb (strstr filename ".superblock").

(** The end of [page_coherence_fault], from "Update metadata" on. *)
Definition finish_local_fault (original_pfn : Z) (e : engine) : fault_outcome :=
  let pfn := pfn_t_to_pfn original_pfn in
  let e := if has_action FH_ACTION_UPDATE_METADATA (fh_of e pfn)
           then update_metadata pfn e else e in
  let '(pfn_out, e) :=
    if is_REPLICATED (fh_of e pfn)
    then (map_vpn_to_pfn pfn original_pfn e, emit (Map_vpn_to_pfn pfn) e)
    else (original_pfn, e) in
  let '(retry, e) := __finish_local_fault_handling pfn e in
  if retry then Returned VM_FAULT_RETRY pfn_out (emit (Msleep 1) e)
  else Returned 0 pfn_out e.

(** [page_coherence_fault] from the test of [fh->fh_action] on, that is,
    with the handle of the frame in hand. *)
Definition serve_local_fault (w : world) (original_pfn : Z) (e : engine)
    : fault_outcome :=
  let pfn := pfn_t_to_pfn original_pfn in
  if fh_action (fh_of e pfn) =? FH_ACTION_INVALID then
    Returned (- EINVAL) original_pfn (snd (__finish_local_fault_handling pfn e))
  else
    let e := if has_action FH_ACTION_WAIT_FOR_ASYNC_TRANSACTION (fh_of e pfn)
             then emit (Msleep 100) (emit (Wait_for_async pfn) e)
             else e in
    let nr_ift := to_int32 (nr_in_flight_transactions e) in
    if has_action FH_ACTION_ISSUE_SYNC_TRANSACTION (fh_of e pfn)
       || (WAIT_STATION_THRESHOLD <? nr_ift)
    then
      let '(ret, e) := issue_page_coherence_transaction w pfn e in
      if negb (ret =? 0)
      then Returned ret original_pfn (snd (__finish_local_fault_handling pfn e))
      else finish_local_fault original_pfn (inc_in_flight e)
    else if has_action FH_ACTION_ISSUE_ASYNC_TRANSACTION (fh_of e pfn)
    then
      let '(ret, e) := issue_page_coherence_transaction_async w pfn e in
      if negb (ret =? 0)
      then Returned ret original_pfn (snd (__finish_local_fault_handling pfn e))
      else finish_local_fault original_pfn (inc_in_flight e)
    else finish_local_fault original_pfn e.

(** [SetPageCoherence(fh->original_page)]. *)
Definition set_page_coherence (pfn : Z) (e : engine) : engine :=
  with_mem (upd_page (original_page (fh_of e pfn))
              (fun p => with_flags (PG_modified p) (PG_shared p) true p)
              (mem e)) e.

(** [page_coherence_fault].  [original_pfn] is [*pfn] on entry, [write]
    is [iter->flags & IOMAP_WRITE], [filename] the name of the faulting
    file.  [SetPageCoherence(fh->original_page)] comes before the test
    of [fh] against [NULL]. *)
Definition page_coherence_fault (w : world) (original_pfn : Z) (write : bool)
    (filename : string) (e : engine) : fault_outcome :=
  if negb (fault_is_handled original_pfn filename e)
  then Returned 0 original_pfn e
  else
    let e := count_fault write e in
    match __start_local_fault_handling w original_pfn write e with
    | Asleep e => Never_woken e
    | No_handle e => Null_dereference e
    | Handle e =>
        serve_local_fault w original_pfn
          (set_page_coherence (pfn_t_to_pfn original_pfn) e)
    end.

(** *** Reading the event list *)

Definition is_reply (ev : event) : bool :=
  match ev with Unicast _ _ _ _ => true | _ => false end.

Definition is_broadcast (ev : event) : bool :=
  match ev with Broadcast _ _ _ => true | _ => false end.

(** The work of the action bits, as opposed to replies and bookkeeping. *)
Definition is_work (ev : event) : bool :=
  match ev with
  | Unicast _ _ _ _ | Complete _ | Msleep _ => false
  | _ => true
  end.

Definition replies (evs : list event) : list event := List.filter is_reply evs.
Definition broadcasts (evs : list event) : list event :=
  List.filter is_broadcast evs.
Definition work (evs : list event) : list event := List.filter is_work evs.

(** The handle of [pfn], if the table has one. *)
Definition handle_for (e : engine) (pfn : Z) : option fault_handle :=
  find_fh pfn (bucket e (__fault_hash_key pfn)).

(** The two tests of [issue_page_coherence_transaction]: "Get Shared"
    and "Get Modified". *)
Definition wants_GetS (fh : fault_handle) : bool :=
  negb (is_NEEDWRITE fh) && negb (is_SHARED fh) && negb (is_MODIFIED fh).
Definition wants_GetM (fh : fault_handle) : bool :=
  is_NEEDWRITE fh && negb (is_MODIFIED fh).

(** The conditions under which [page_coherence_fault], holding the handle
    [fh] with [nr] transactions in flight, broadcasts and waits at a
    station. *)
Definition issues_sync_transaction (fh : fault_handle) (nr : Z) : bool :=
  negb (fh_action fh =? FH_ACTION_INVALID)
  && (has_action FH_ACTION_ISSUE_SYNC_TRANSACTION fh
      || (WAIT_STATION_THRESHOLD <? to_int32 nr))
  && (wants_GetS fh || wants_GetM fh).

(** *** Notions used in the statements *)

Definition valid_order (msg : swmc_kmsg_message) : bool :=
  (page_order (payload msg) =? 0) || (page_order (payload msg) =? PMD_ORDER).

Definition is_request (msg : swmc_kmsg_message) : bool :=
  (type (header msg) =? SWMC_KMSG_TYPE_FETCH)
  || (type (header msg) =? SWMC_KMSG_TYPE_INVALIDATE).

(** The remote write loses: its count of acknowledged faults is higher
    than the local one, or the counts are equal and the local node has
    the lower id. *)
Definition remote_write_loses (e : engine) (msg : swmc_kmsg_message) : bool :=
  (__local_acked_fault_count e <? acked_fault_count (payload msg))
  || ((acked_fault_count (payload msg) =? __local_acked_fault_count e)
      && (to_nid (header msg) <? from_nid (header msg))).

(** The engine once a fresh handle [fh] for [pfn] heads its bucket. *)
Definition with_handle (pfn : Z) (fh : fault_handle) (e : engine) : engine :=
  set_bucket (__fault_hash_key pfn) (fh :: bucket e (__fault_hash_key pfn)) e.

(** The metadata of the frame reads REPLICATED, MODIFIED and SHARED. *)
Definition page_reads_RMS (e : engine) (pfn : Z) : bool :=
  negb (get_replica_opt (mem e) (pfn_to_page pfn) =? NULL)
  && PG_modified (page_at (mem e) (pfn_to_page pfn))
  && PG_shared (page_at (mem e) (pfn_to_page pfn)).

End Coherence.

(** ** Sending and receiving over the ring ([cxl_shm.c]) *)

Module Transport.
Import Kmsg Ring.

Definition MAX_NODES : Z := 2.

(** A slot after [memset(window->buffer, 0, ...)]. *)
Definition zero_message : swmc_kmsg_message :=
  mk_msg (mk_hdr 0 0 0 0) (mk_payload 0 0 0).

(** [cxl_kmsg_window_init]. *)
Definition cxl_kmsg_window_init (window : cxl_kmsg_window)
    : Z * cxl_kmsg_window :=
  (0, {| head := 0; tail := 0; int_enabled := 1;
         buffer := replicate (Z.to_nat CXL_KMSG_RBUF_SIZE) zero_message |}).

(** [struct cxl_kmsg_handle]: the two arrays of window pointers are maps
    from node id to window, a [NULL] entry being a missing key. *)
Record cxl_kmsg_handle := mk_handle {
  nid : Z;
  win_tx : gmap Z cxl_kmsg_window;
  win_rx : gmap Z cxl_kmsg_window
}.

Definition with_win_tx (t : gmap Z cxl_kmsg_window) (ckh : cxl_kmsg_handle)
    : cxl_kmsg_handle :=
  {| nid := nid ckh; win_tx := t; win_rx := win_rx ckh |}.

Definition with_win_rx (t : gmap Z cxl_kmsg_window) (ckh : cxl_kmsg_handle)
    : cxl_kmsg_handle :=
  {| nid := nid ckh; win_tx := win_tx ckh; win_rx := t |}.

(** The file-scope state of [cxl_shm.c]: the module parameter [node_id],
    the handler pointer ([None] is [NULL]) and the two counters. *)
Record shm := mk_shm {
  node_id : Z;
  cxl_kmsg_handler : option cxl_kmsg_handle;
  globals : shm_globals
}.

(** [cxl_kmsg_unicast]; [kmalloc_ok] tells whether the allocation of the
    message buffer succeeds. *)
Definition cxl_kmsg_unicast (kmalloc_ok : bool) (ty ws dest_nid : Z)
    (payload : option payload_data) (s : shm) : Z * shm :=
  match cxl_kmsg_handler s with
  | None => (- ENODEV, s)
  | Some ckh =>
      if (dest_nid <? 0) || (MAX_NODES <=? dest_nid)
         || (dest_nid =? node_id s)
      then (- EINVAL, s)
      else
        match win_tx ckh !! dest_nid with
        | None => (- ENODEV, s)
        | Some win =>
            if negb kmalloc_ok then (- ENOMEM, s)
            else
              let '(ret, message) :=
                __build_kmsg (node_id s) ty ws dest_nid payload in
              if negb (ret =? 0) then (ret, s)
              else
                let '(ret, win, g) := win_put (globals s) win (Some message) in
                (ret,
                 {| node_id := node_id s;
                    cxl_kmsg_handler :=
                      Some (with_win_tx (<[dest_nid := win]> (win_tx ckh)) ckh);
                    globals := g |})
        end
  end.

(** The loop of [cxl_kmsg_broadcast] over the node ids in [nodes];
    [kmalloc_ok i] is the outcome of the allocation made for node [i]. *)
Fixpoint broadcast_to (nodes : list Z) (kmalloc_ok : Z -> bool) (ty ws : Z)
    (payload : option payload_data) (s : shm) : Z * shm :=
  match nodes with
  | [] => (0, s)
  | i :: rest =>
      if i =? node_id s then broadcast_to rest kmalloc_ok ty ws payload s
      else
        let '(ret, s) := cxl_kmsg_unicast (kmalloc_ok i) ty ws i payload s in
        if negb (ret =? 0) then (ret, s)
        else broadcast_to rest kmalloc_ok ty ws payload s
  end.

Definition cxl_kmsg_broadcast (kmalloc_ok : Z -> bool) (ty ws : Z)
    (payload : option payload_data) (s : shm) : Z * shm :=
  broadcast_to (seqZ 0 MAX_NODES) kmalloc_ok ty ws payload s.

(** The body of the [for] loop of [cxl_kmsg_receive] for the node
    [from_nid].  The state is [found_message], the messages handed to
    [swmc_kmsg_process_message] so far, the handle and the counters. *)
Definition receive_from
    (st : bool * list swmc_kmsg_message * cxl_kmsg_handle * shm_globals)
    (from_nid : Z)
    : bool * list swmc_kmsg_message * cxl_kmsg_handle * shm_globals :=
  let '(found_message, processed, ckh, g) := st in
  if from_nid =? nid ckh then st
  else
    match win_rx ckh !! from_nid with
    | None => st
    | Some win =>
        let '(ret, msg, win, g) := win_get g win in
        let ckh := with_win_rx (<[from_nid := win]> (win_rx ckh)) ckh in
        if negb (ret =? 0) then (found_message, processed, ckh, g)
        else
          match msg with
          | None => (found_message, processed, ckh, g)
          | Some m =>
              if (type (header m) <? 0)
                 || (SWMC_KMSG_TYPE_MAX <=? type (header m))
              then (found_message, processed, ckh, g)
              else (true, processed ++ [m], ckh, g)
          end
    end.

(** [cxl_kmsg_receive]: [fuel] bounds the turns of the [while] loop,
    [None] is a loop still running when it is used up. *)
Fixpoint cxl_kmsg_receive (fuel : nat) (processed : list swmc_kmsg_message)
    (ckh : cxl_kmsg_handle) (g : shm_globals)
    : option (Z * list swmc_kmsg_message * cxl_kmsg_handle * shm_globals) :=
  match fuel with
  | O => None
  | S fuel =>
      let '(found_message, processed, ckh, g) :=
        foldl receive_from (false, processed, ckh, g) (seqZ 0 MAX_NODES) in
      if found_message then cxl_kmsg_receive fuel processed ckh g
      else Some (0, processed, ckh, g)
  end.

(** *** Notions used in the statements *)

(** The slot a counter value [k] designates. *)
Definition slot (win : cxl_kmsg_window) (k : Z) : option swmc_kmsg_message :=
  buffer win !! Z.to_nat (k mod CXL_KMSG_RBUF_SIZE).

(** The messages a window holds, oldest first: the slots from [tail] up
    to [head]. *)
Definition pending (win : cxl_kmsg_window) : list (option swmc_kmsg_message) :=
  (fun k => slot win (tail win + k)) <$> seqZ 0 (win_inuse win).

(** A window as the module keeps it: counters are [unsigned long], the
    array has [CXL_KMSG_RBUF_SIZE] slots, and one slot stays free. *)
Definition ring_ok (win : cxl_kmsg_window) : Prop :=
  0 <= head win < 2 ^ 64 /\ 0 <= tail win < 2 ^ 64
  /\ win_inuse win <= CXL_KMSG_RBUF_SIZE - 1
  /\ length (buffer win) = Z.to_nat CXL_KMSG_RBUF_SIZE.

(** The type test of [cxl_kmsg_receive] lets the message through. *)
Definition type_in_range (m : swmc_kmsg_message) : bool :=
  negb ((type (header m) <? 0) || (SWMC_KMSG_TYPE_MAX <=? type (header m))).

End Transport.

(** ** Answers and the asynchronous work queue ([page_coherence.c]) *)

Module Completion.
Import Kmsg.

Definition ASYNC_TRANSACTION_RING_SIZE : Z := 1024.

(** [(void * )-1], the value [ws->private] takes once a NACK came in. *)
Definition NACK_RECEIVED : Z := wrap64 (-1).

(** [struct wait_station], the fields the engine reads and writes:
    [private] and [async_page] are pointers, [pendings_count] is an
    [atomic_t].  A station is named by its id. *)
Record wait_station := mk_wait_station {
  private : Z;
  async_page : Z;
  pendings_count : Z
}.

Record async_transaction_work := mk_work {
  original_page : Z;
  nacked : bool
}.

(** The calls that leave [page_coherence.c]. *)
Inductive call :=
  | Complete_station (ws : Z)
  | Put_wait_station (ws : Z)
  | Kmap (pg : Z)
  | Clflush (pg off : Z)
  | Kunmap (pg : Z)
  | Sleep_ms (ms : Z).

(** The engine together with the wait stations ([wait_station(id)] is
    the lookup, [None] its [NULL]), the work queue with its two [atomic_t]
    counters, and the calls made so far. *)
Record completion_state := mk_completion_state {
  coherence : Coherence.engine;
  stations : gmap Z wait_station;
  async_transaction_workqueue : list async_transaction_work;
  async_transaction_workqueue_head : Z;
  async_transaction_workqueue_tail : Z;
  calls : list call
}.

Definition with_coherence (e : Coherence.engine) (st : completion_state)
    : completion_state :=
  {| coherence := e; stations := stations st;
     async_transaction_workqueue := async_transaction_workqueue st;
     async_transaction_workqueue_head := async_transaction_workqueue_head st;
     async_transaction_workqueue_tail := async_transaction_workqueue_tail st;
     calls := calls st |}.

Definition with_stations (t : gmap Z wait_station) (st : completion_state)
    : completion_state :=
  {| coherence := coherence st; stations := t;
     async_transaction_workqueue := async_transaction_workqueue st;
     async_transaction_workqueue_head := async_transaction_workqueue_head st;
     async_transaction_workqueue_tail := async_transaction_workqueue_tail st;
     calls := calls st |}.

Definition with_workqueue (q : list async_transaction_work) (head tail : Z)
    (st : completion_state) : completion_state :=
  {| coherence := coherence st; stations := stations st;
     async_transaction_workqueue := q;
     async_transaction_workqueue_head := head;
     async_transaction_workqueue_tail := tail;
     calls := calls st |}.

Definition called (c : list call) (st : completion_state) : completion_state :=
  {| coherence := coherence st; stations := stations st;
     async_transaction_workqueue := async_transaction_workqueue st;
     async_transaction_workqueue_head := async_transaction_workqueue_head st;
     async_transaction_workqueue_tail := async_transaction_workqueue_tail st;
     calls := calls st ++ c |}.

(** [atomic64_dec(&nr_in_flight_transactions)] followed by
    [atomic64_inc(&__local_acked_fault_count)]; the counters are kept as
    in [Coherence.inc_in_flight]. *)
Definition count_acked (e : Coherence.engine) : Coherence.engine :=
  {| Coherence.cxl_hdm_base := Coherence.cxl_hdm_base e;
     Coherence.cxl_hdm_base_pfn := Coherence.cxl_hdm_base_pfn e;
     Coherence.page_coherence_enabled := Coherence.page_coherence_enabled e;
     Coherence.page_coherence_fault_count :=
       Coherence.page_coherence_fault_count e;
     Coherence.page_coherence_fault_read_count :=
       Coherence.page_coherence_fault_read_count e;
     Coherence.page_coherence_fault_write_count :=
       Coherence.page_coherence_fault_write_count e;
     Coherence.nr_in_flight_transactions :=
       Coherence.nr_in_flight_transactions e - 1;
     Coherence.__local_acked_fault_count :=
       Coherence.__local_acked_fault_count e + 1;
     Coherence.faults := Coherence.faults e;
     Coherence.mem := Coherence.mem e;
     Coherence.events := Coherence.events e |}.

(** [ClearPageModified(page)]. *)
Definition ClearPageModified (pg : Z) (e : Coherence.engine)
    : Coherence.engine :=
  Coherence.with_mem
    (Replication.upd_page pg
       (fun p => Replication.with_flags false (Replication.PG_shared p)
                   (Replication.PG_coherence p) p)
       (Coherence.mem e)) e.

(** [put_work_to_workqueue]; [ws] is the station the pointer designates.
    [%] on [int] truncates towards zero ([Z.rem]); [None] is a store
    outside the array or through a pointer to no station. *)
Definition put_work_to_workqueue (async_page : Z) (ws : Z)
    (st : completion_state) : option completion_state :=
  let head := async_transaction_workqueue_head st in
  let tail := async_transaction_workqueue_tail st in
  if Z.rem (to_int32 (head + 1)) ASYNC_TRANSACTION_RING_SIZE
     =? Z.rem tail ASYNC_TRANSACTION_RING_SIZE
  then Some st
  else
    let i := Z.rem head ASYNC_TRANSACTION_RING_SIZE in
    match stations st !! ws with
    | None => None
    | Some station =>
        if (i <? 0)
           || (Z.of_nat (length (async_transaction_workqueue st)) <=? i)
        then None
        else
          let work := {| original_page := async_page;
                         nacked := private station =? NACK_RECEIVED |} in
          Some (called [Put_wait_station ws]
                  (with_workqueue
                     (<[Z.to_nat i := work]> (async_transaction_workqueue st))
                     (to_int32 (head + 1)) tail st))
    end.

(** [swmc_kmsg_handle_ack_or_nack]. *)
Definition swmc_kmsg_handle_ack_or_nack (msg : swmc_kmsg_message)
    (st : completion_state) : option (Z * completion_state) :=
  let id := ws_id (header msg) in
  match stations st !! id with
  | None => Some (- EINVAL, st)
  | Some ws =>
      let ty := type (header msg) in
      let ws :=
        if (ty =? SWMC_KMSG_TYPE_INVALIDATE_NACK)
           || (ty =? SWMC_KMSG_TYPE_FETCH_NACK)
        then {| private := NACK_RECEIVED; async_page := async_page ws;
                pendings_count := pendings_count ws |}
        else ws in
      let ws := {| private := private ws; async_page := async_page ws;
                   pendings_count := to_int32 (pendings_count ws - 1) |} in
      let st := with_stations (<[id := ws]> (stations st)) st in
      if pendings_count ws =? 0 then
        let st := with_coherence (count_acked (coherence st)) st in
        if negb (async_page ws =? 0) then
          st' ← put_work_to_workqueue (async_page ws) id st; Some (0, st')
        else Some (0, called [Complete_station id] st)
      else Some (0, st)
  end.

(** One turn of the loop of [async_transaction_daemon]. *)
Definition async_transaction_daemon_turn (st : completion_state)
    : option completion_state :=
  let head := async_transaction_workqueue_head st in
  let tail := async_transaction_workqueue_tail st in
  if negb (head =? tail) then
    let i := Z.rem tail ASYNC_TRANSACTION_RING_SIZE in
    if i <? 0 then None
    else
      work ← async_transaction_workqueue st !! Z.to_nat i;
      let work_page := original_page work in
      let flushes :=
        (fun k => Clflush work_page (k * CL_SIZE))
          <$> seqZ 0 (PAGE_SIZE / CL_SIZE) in
      let st := called ([Kmap work_page] ++ flushes ++ [Kunmap work_page]) st in
      let st := with_coherence (ClearPageModified work_page (coherence st)) st in
      Some (with_workqueue (async_transaction_workqueue st) head
              (to_int32 (tail + 1)) st)
  else Some (called [Sleep_ms 10] st).

(** [async_transaction_daemon] stopped after [turns] turns of its loop. *)
Fixpoint async_transaction_daemon (turns : nat) (st : completion_state)
    : option completion_state :=
  match turns with
  | O => Some st
  | S n => st' ← async_transaction_daemon_turn st; async_transaction_daemon n st'
  end.

(** *** Notions used in the statements *)

(** The answers [msgs] handled one after the other. *)
Fixpoint handle_answers (msgs : list swmc_kmsg_message) (st : completion_state)
    : option completion_state :=
  match msgs with
  | [] => Some st
  | m :: rest =>
      r ← swmc_kmsg_handle_ack_or_nack m st; handle_answers rest r.2
  end.

Definition is_nack (m : swmc_kmsg_message) : bool :=
  (type (header m) =? SWMC_KMSG_TYPE_INVALIDATE_NACK)
  || (type (header m) =? SWMC_KMSG_TYPE_FETCH_NACK).

(** The work the queue holds, oldest first: the entries from [tail] up to
    [head]. *)
Definition queued (st : completion_state) : list (option async_transaction_work) :=
  (fun k => async_transaction_workqueue st
            !! Z.to_nat ((async_transaction_workqueue_tail st + k)
                         mod ASYNC_TRANSACTION_RING_SIZE))
    <$> seqZ 0 (async_transaction_workqueue_head st
                - async_transaction_workqueue_tail st).

(** The pages of the work the queue holds. *)
Definition queued_pages (st : completion_state) : list Z :=
  omap (fmap original_page) (queued st).

(** The queue as the module keeps it, up to the wrap of the [int]
    counters. *)
Definition workqueue_ok (st : completion_state) : Prop :=
  0 <= async_transaction_workqueue_tail st
  /\ async_transaction_workqueue_tail st <= async_transaction_workqueue_head st
  /\ async_transaction_workqueue_head st <= 2 ^ 31 - 1
  /\ async_transaction_workqueue_head st - async_transaction_workqueue_tail st
     <= ASYNC_TRANSACTION_RING_SIZE - 1
  /\ length (async_transaction_workqueue st)
     = Z.to_nat ASYNC_TRANSACTION_RING_SIZE.

End Completion.

(** ** Notions used in the statements about the histogram and the fault
       table *)

Module Invariants.
Import Kmsg Replication Hotness Coherence.

(** The number of pages a list of buckets counts. *)
Definition bucket_sum (l : list Z) : Z := foldr Z.add 0 l.

(** The buckets are [unsigned long] values whose sum fits in one. *)
Definition hist_ok (l : list Z) : Prop :=
  length l = 32%nat /\ Forall (fun x => 0 <= x) l /\ bucket_sum l < 2 ^ 64.

(** The bits of an action that only the local fault path acts on, and
    those only the remote handler acts on. *)
Definition FH_ACTION_LOCAL_ONLY : Z :=
  Z.lor (Z.lor FH_ACTION_ISSUE_SYNC_TRANSACTION FH_ACTION_ISSUE_ASYNC_TRANSACTION)
        (Z.lor FH_ACTION_WAIT_FOR_ASYNC_TRANSACTION FH_ACTION_MAP_VPN_TO_PFN).

Definition FH_ACTION_REMOTE_ONLY : Z :=
  Z.lor (Z.lor FH_ACTION_WRITEBACK FH_ACTION_INVALIDATE) FH_ACTION_RESPOND.

(** The engine an outcome of [page_coherence_fault] leaves. *)
Definition outcome_engine (o : fault_outcome) : engine :=
  match o with
  | Returned _ _ e | Null_dereference e | Never_woken e => e
  end.

(** The fault table as the engine keeps it: a bucket holds only handles
    of frames that hash to it, and no two handles of one frame. *)
Definition table_ok (e : engine) : Prop :=
  forall fk b, faults e !! fk = Some b ->
    NoDup (original_pfn_val <$> b)
    /\ Forall (fun fh => __fault_hash_key (original_pfn_val fh) = fk) b.

End Invariants.

(** ** Concrete states and messages

    The inputs at which the properties below are instantiated. *)

Module Scenarios.
Import Kmsg Ring Replication Hotness Coherence.

Definition full_window : cxl_kmsg_window :=
  {| head := 65535; tail := 0; int_enabled := 1; buffer := [] |}.

Definition fetch_message : swmc_kmsg_message :=
  mk_msg (mk_hdr SWMC_KMSG_TYPE_FETCH 5 0 1) (mk_payload 4096 0 0).

Definition flat_histogram : hot_state :=
  {| hist := replicate 32 4; hotness_threshold := 10; monitoring_age := 0;
     hot_page_percentile := 20; replication_candidate := [] |}.

Definition sampled_page : Z := 64.

(** A coherence-enabled page that has never been sampled: its [private]
    word is still zero. *)
Definition unsampled_pool : pool :=
  {| pages := {[ sampled_page := with_flags false false true blank_page ]};
     replica_active_lru := []; replica_inactive_lru := [];
     page_replica_allocated_pages := 0; mm_calls := [] |}.

Definition fresh_histogram : hot_state :=
  {| hist := replicate 32 0; hotness_threshold := 10; monitoring_age := 0;
     hot_page_percentile := 20; replication_candidate := [] |}.

Definition original_addr : Z := 4096.
Definition replica_addr : Z := 8192.

(** One original page whose byte at offset [i] is [i mod 251], no
    replicas yet. *)
Definition one_page_pool : pool :=
  {| pages := {[ original_addr :=
                   with_contents (fun i => i mod 251) blank_page ]};
     replica_active_lru := []; replica_inactive_lru := [];
     page_replica_allocated_pages := 0; mm_calls := [] |}.

(** A shrinker that finds nothing to reclaim, as with both lists empty. *)
Definition idle_shrinker (n : Z) (s : pool) : pool := s.

Definition replicated_pool : pool :=
  snd (create_page_replica idle_shrinker original_addr 0 [replica_addr]
         one_page_pool).

(** The same page as part of a file: it belongs to the mapping at
    [file_mapping], at page offset 3. *)
Definition file_mapping : Z := 24576.

Definition mapped_page_pool : pool :=
  {| pages := {[ original_addr :=
                   with_mapping file_mapping 3
                     (with_contents (fun i => i mod 251) blank_page) ]};
     replica_active_lru := []; replica_inactive_lru := [];
     page_replica_allocated_pages := 0; mm_calls := [] |}.

(** Its replica, made at the second attempt: the first [alloc_pages]
    fails and the shrinker runs once. *)
Definition mapped_replicated_pool : pool :=
  snd (create_page_replica idle_shrinker original_addr 0 [NULL; replica_addr]
         mapped_page_pool).

Definition idle_pool : pool :=
  {| pages := ∅; replica_active_lru := []; replica_inactive_lru := [];
     page_replica_allocated_pages := 0; mm_calls := [] |}.

(** An engine right after [page_coherence_init] and
    [enable_page_coherence], with the shared window at frame 0. *)
Definition idle_engine : engine :=
  {| cxl_hdm_base := 0; cxl_hdm_base_pfn := 0; page_coherence_enabled := 1;
     page_coherence_fault_count := 0; page_coherence_fault_read_count := 0;
     page_coherence_fault_write_count := 0; nr_in_flight_transactions := 0;
     __local_acked_fault_count := 0; faults := ∅; mem := idle_pool;
     events := [] |}.

(** A transport and an allocator that never fail, and peers that all
    acknowledge. *)
Definition calm_world : world :=
  {| handle_alloc_ok := true; unicast_ret := 0; ws_failures := 0;
     station_id := 7; broadcast_failures := 0; wait_result := 0;
     stack_ret := 0; while_asleep := fun e => Some e;
     while_waiting := fun e => e |}.


Definition plain_fetch : swmc_kmsg_message :=
  mk_msg (mk_hdr SWMC_KMSG_TYPE_FETCH 3 1 0) (mk_payload 8192 0 0).

Definition stale_pool : pool :=
  {| pages := {[ pfn_to_page 5 := with_flags true true false blank_page ]};
     replica_active_lru := []; replica_inactive_lru := [];
     page_replica_allocated_pages := 0; mm_calls := [] |}.

(** Frame 5 is stale-shared (MODIFIED and SHARED), without a replica. *)
Definition stale_engine : engine := with_mem stale_pool idle_engine.

(** Peers that refuse: [wait_at_station] returns [(void * )-1]. *)
Definition nacking_world : world :=
  {| handle_alloc_ok := true; unicast_ret := 0; ws_failures := 0;
     station_id := 7; broadcast_failures := 0; wait_result := -1;
     stack_ret := 0; while_asleep := fun e => Some e;
     while_waiting := fun e => e |}.

(** The handle of a remote INVALIDATE for frame 2 that is being served. *)
Definition remote_write_handle : fault_handle :=
  {| original_pfn_val := 2; original_page := pfn_to_page 2;
     fh_flags := Z.lor FH_STATE_REMOTE FH_STATE_NEEDWRITE;
     fh_action := FH_ACTION_RESPOND; complete := false |}.

Definition serving_engine : engine :=
  with_faults {[ __fault_hash_key 2 := [remote_write_handle] ]} idle_engine.

(** While the local fault sleeps, the owner of the handle reaches
    [__finish_remote_fault_handling] and completes the sleeper. *)
Definition owner_finishes : world :=
  {| handle_alloc_ok := true; unicast_ret := 0; ws_failures := 0;
     station_id := 7; broadcast_failures := 0; wait_result := 0;
     stack_ret := 0;
     while_asleep := fun e => Some (snd (__finish_remote_fault_handling 2 e));
     while_waiting := fun e => e |}.

(** A local write fault on frame 2 is in progress on node 1, which has
    seen 5 faults acknowledged. *)
Definition writer_handle : fault_handle :=
  {| original_pfn_val := 2; original_page := pfn_to_page 2;
     fh_flags := FH_STATE_NEEDWRITE; fh_action := nth 4 fh_action_table 0;
     complete := false |}.

Definition writing_engine : engine :=
  {| cxl_hdm_base := 0; cxl_hdm_base_pfn := 0; page_coherence_enabled := 1;
     page_coherence_fault_count := 1; page_coherence_fault_read_count := 0;
     page_coherence_fault_write_count := 1; nr_in_flight_transactions := 0;
     __local_acked_fault_count := 5;
     faults := {[ __fault_hash_key 2 := [writer_handle] ]};
     mem := idle_pool; events := [] |}.

(** Node 2, also with 5 acknowledged faults, invalidates frame 2. *)
Definition tie_invalidate : swmc_kmsg_message :=
  mk_msg (mk_hdr SWMC_KMSG_TYPE_INVALIDATE 9 2 1) (mk_payload 8192 0 5).



Definition invalidate_frame_5 : swmc_kmsg_message :=
  mk_msg (mk_hdr SWMC_KMSG_TYPE_INVALIDATE 4 1 0) (mk_payload 20480 0 0).


End Scenarios.

(** ** More concrete states

    The inputs at which the properties of the transport, the histogram,
    the replica pool, the engine and the work queue are instantiated. *)

Module Cases.
Import Kmsg Ring Replication Hotness Coherence Scenarios Transport.

(** *** The transport *)

Definition no_counters : shm_globals :=
  {| insurance_recv := 0; insurance_send := 0 |}.

(** A window right after [cxl_kmsg_window_init]. *)
Definition fresh_window : cxl_kmsg_window :=
  (cxl_kmsg_window_init full_window).2.

(** The same window with [fetch_message] in it. *)
Definition one_message_window : cxl_kmsg_window :=
  (win_put no_counters fresh_window (Some fetch_message)).1.2.

(** Node 0 of two, with an empty window to and from node 1. *)
Definition node_0 : shm :=
  {| node_id := 0;
     cxl_kmsg_handler :=
       Some {| nid := 0; win_tx := {[ 1 := fresh_window ]};
               win_rx := {[ 1 := fresh_window ]} |};
     globals := no_counters |}.

(** Node 0 with its window to node 1 full. *)
Definition crowded_node : shm :=
  {| node_id := 0;
     cxl_kmsg_handler :=
       Some {| nid := 0; win_tx := {[ 1 := full_window ]}; win_rx := ∅ |};
     globals := no_counters |}.

Definition frame_2_payload : payload_data := mk_payload 8192 0 0.

(** A message whose type field is outside the enum. *)
Definition garbled_message : swmc_kmsg_message :=
  mk_msg (mk_hdr 9 5 1 0) frame_2_payload.

Definition late_message : swmc_kmsg_message :=
  mk_msg (mk_hdr SWMC_KMSG_TYPE_FETCH_ACK 6 1 0) frame_2_payload.

(** The window from node 1 holds two good messages, a garbled one, and
    one more good message behind it. *)
Definition inbox_window : cxl_kmsg_window :=
  {| head := 4; tail := 0; int_enabled := 1;
     buffer := [plain_fetch; invalidate_frame_5; garbled_message; late_message]
               ++ replicate (Z.to_nat (CXL_KMSG_RBUF_SIZE - 4)) zero_message |}.

Definition receiving_handle : cxl_kmsg_handle :=
  {| nid := 0; win_tx := ∅; win_rx := {[ 1 := inbox_window ]} |}.

(** *** The histogram and the replica pool *)

(** A coherence-enabled page that has been sampled three times in the
    current age. *)
Definition counted_pool : pool :=
  {| pages := {[ sampled_page :=
                   with_private (Z.shiftl 3 32)
                     (with_flags false false true blank_page) ]};
     replica_active_lru := []; replica_inactive_lru := [];
     page_replica_allocated_pages := 0; mm_calls := [] |}.

(** The original page is stale-shared: MODIFIED and SHARED. *)
Definition stale_original_pool : pool :=
  {| pages := {[ original_addr := with_flags true true true blank_page ]};
     replica_active_lru := []; replica_inactive_lru := [];
     page_replica_allocated_pages := 0; mm_calls := [] |}.

(** *** The engine *)

(** Frame 2 with flag bits of [pfn_t] set. *)
Definition flagged_pfn : Z := Z.lor 2 (Z.shiftl 1 62).

(** Frame 2 is SHARED here and part of the file at [file_mapping], at
    page offset 3; no fault is in progress. *)
Definition shared_mapped_pool : pool :=
  {| pages := {[ pfn_to_page 2 :=
                   with_mapping file_mapping 3
                     (with_flags false true true blank_page) ]};
     replica_active_lru := []; replica_inactive_lru := [];
     page_replica_allocated_pages := 0; mm_calls := [] |}.

Definition shared_engine : engine := with_mem shared_mapped_pool idle_engine.

(** Node 0, with no more acknowledged faults than this node, invalidates
    frame 2: against a local write on node 1 it wins. *)
Definition winning_invalidate : swmc_kmsg_message :=
  mk_msg (mk_hdr SWMC_KMSG_TYPE_INVALIDATE 9 0 1) frame_2_payload.

(** The INVALIDATE for frame 2 that node 1, with 5 acknowledged faults,
    sends to node 2: the counterpart of [tie_invalidate]. *)
Definition writer_invalidate : swmc_kmsg_message :=
  mk_msg (mk_hdr SWMC_KMSG_TYPE_INVALIDATE 7 1 2) (mk_payload 8192 0 5).

(** While the local fault waits at its station, [winning_invalidate]
    is handled. *)
Definition racing_world : world :=
  {| handle_alloc_ok := true; unicast_ret := 0; ws_failures := 0;
     station_id := 7; broadcast_failures := 0; wait_result := 0;
     stack_ret := 0; while_asleep := fun e => Some e;
     while_waiting :=
       fun e => snd (swmc_kmsg_handle_fetch_or_invalidate calm_world
                       (Some winning_invalidate) e) |}.

(** *** Answers and the work queue *)

Definition ack_for_7 : swmc_kmsg_message :=
  mk_msg (mk_hdr SWMC_KMSG_TYPE_INVALIDATE_ACK 7 1 0) frame_2_payload.

Definition nack_for_7 : swmc_kmsg_message :=
  mk_msg (mk_hdr SWMC_KMSG_TYPE_INVALIDATE_NACK 7 2 0) frame_2_payload.

Definition no_work : Completion.async_transaction_work :=
  {| Completion.original_page := 0; Completion.nacked := false |}.

(** Station 7 waits for two answers to a synchronous transaction. *)
Definition waiting_state : Completion.completion_state :=
  {| Completion.coherence := idle_engine;
     Completion.stations :=
       {[ 7 := {| Completion.private := 0; Completion.async_page := 0;
                  Completion.pendings_count := 2 |} ]};
     Completion.async_transaction_workqueue := replicate 1024 no_work;
     Completion.async_transaction_workqueue_head := 0;
     Completion.async_transaction_workqueue_tail := 0;
     Completion.calls := [] |}.

(** Station 7 waits for the one answer to an asynchronous FETCH of
    frame 2, with [queued] entries of the queue taken. *)
Definition async_state (queued : Z) : Completion.completion_state :=
  {| Completion.coherence := idle_engine;
     Completion.stations :=
       {[ 7 := {| Completion.private := 0;
                  Completion.async_page := pfn_to_page 2;
                  Completion.pendings_count := 1 |} ]};
     Completion.async_transaction_workqueue := replicate 1024 no_work;
     Completion.async_transaction_workqueue_head := queued;
     Completion.async_transaction_workqueue_tail := 0;
     Completion.calls := [] |}.

Definition stale_pair_pool : pool :=
  {| pages := {[ pfn_to_page 2 := with_flags true true true blank_page;
                 pfn_to_page 5 := with_flags true true true blank_page ]};
     replica_active_lru := []; replica_inactive_lru := [];
     page_replica_allocated_pages := 0; mm_calls := [] |}.

(** The queue holds the pages of frames 2 and 5, both stale-shared. *)
Definition busy_queue_state : Completion.completion_state :=
  {| Completion.coherence := with_mem stale_pair_pool idle_engine;
     Completion.stations := ∅;
     Completion.async_transaction_workqueue :=
       [ {| Completion.original_page := pfn_to_page 2;
            Completion.nacked := false |};
         {| Completion.original_page := pfn_to_page 5;
            Completion.nacked := true |} ]
       ++ replicate 1022 no_work;
     Completion.async_transaction_workqueue_head := 2;
     Completion.async_transaction_workqueue_tail := 0;
     Completion.calls := [] |}.

End Cases.

(** * Properties *)

(** ** The ring *)

Module RingFacts.
Import Kmsg Ring Scenarios.

(** A full ring rejects every message and is left as it was, whatever the
    message is. *)
Lemma win_put_full_keeps_ring g win msg :
  win_inuse win = CXL_KMSG_RBUF_SIZE - 1 ->
  snd (fst (win_put g win msg)) = win /\ snd (win_put g win msg) = g
  /\ fst (fst (win_put g win msg)) <> 0.
Proof.
  intros Hfull. unfold win_put. rewrite Hfull, Z.leb_refl.
  destruct (negb (__validate_kmsg msg =? 0)) eqn:Hv; simpl.
  - repeat split. apply negb_true_iff, Z.eqb_neq in Hv. exact Hv.
  - repeat split. unfold EAGAIN. lia.
Qed.

(** C7.  A ring that holds [CXL_KMSG_RBUF_SIZE - 1] messages drops the
    message handed to [win_put]: the call returns [-EAGAIN], and [head],
    [tail] and every slot keep their values.  The message is one that
    passes [__validate_kmsg], as every message built by [__build_kmsg]
    does. *)
Theorem win_put_full_ring_dropped g win m :
  __validate_kmsg (Some m) = 0 ->
  win_inuse win = CXL_KMSG_RBUF_SIZE - 1 ->
  win_put g win (Some m) = (- EAGAIN, win, g).
Proof.
  intros Hvalid Hfull. unfold win_put.
  rewrite Hvalid, Hfull, Z.leb_refl. reflexivity.
Qed.

(** Both senders hand [win_put] a message that went through
    [__build_kmsg] first, so it passes [__validate_kmsg]. *)
Lemma build_kmsg_validates node_id ty ws dest p m :
  __build_kmsg node_id ty ws dest p = (0, m) ->
  __validate_kmsg (Some m) = 0.
Proof.
  unfold __build_kmsg.
  destruct (negb (__validate_kmsg _ =? 0)) eqn:Hv; intros H.
  - inversion H.
  - injection H as <-. apply negb_false_iff, Z.eqb_eq in Hv. exact Hv.
Qed.

Lemma win_put_full_ring_dropped_witness :
  win_put (mk_globals 0 0) full_window (Some fetch_message)
  = (- EAGAIN, full_window, mk_globals 0 0).
Proof.
  apply (win_put_full_ring_dropped (mk_globals 0 0) full_window fetch_message);
    reflexivity.
Defined.

End RingFacts.

(** ** Hotness sampling and the replication tick *)

Module HotnessFacts.
Import Replication Hotness Scenarios.

(** C9, as stated, fails: with 4 in every bucket, bucket 0 holds 8 after
    the tick, not 2. *)
Lemma cooling_does_not_halve :
  ~ (forall i : nat, (i < 32)%nat ->
       nth i (hist (replication_tick_tail flat_histogram)) 0
       = nth i (hist flat_histogram) 0 / 2).
Proof.
  intros H. specialize (H 0%nat ltac:(lia)). vm_compute in H. discriminate H.
Qed.

Lemma cool_down_32 (h : list Z) :
  length h = 32%nat ->
  cool_down_histogram h
  = wrap64 (nth 0 h 0 + nth 1 h 0)
    :: map wrap64 (drop 2 h) ++ [0].
Proof.
  intros Hlen.
  do 32 (destruct h as [|? h]; [discriminate Hlen|]).
  destruct h; [|discriminate Hlen].
  cbv -[wrap64 Z.add]. rewrite !Z.add_0_l. reflexivity.
Qed.

(** C9, amended.  The cool-down at the end of the tick moves every bucket
    one index down: bucket 0 receives the sum of the old buckets 0 and 1,
    bucket [i] for 1 <= i <= 30 receives the old bucket [i + 1], and
    bucket 31 is emptied (all in [unsigned long] arithmetic).  The age
    has been incremented and the threshold computed from the histogram
    as it was before the cool-down. *)
Theorem tick_shifts_histogram_down (h : hot_state) :
  length (hist h) = 32%nat ->
  let h' := replication_tick_tail h in
  nth 0 (hist h') 0 = wrap64 (nth 0 (hist h) 0 + nth 1 (hist h) 0)
  /\ (forall i : nat, (1 <= i <= 30)%nat ->
        nth i (hist h') 0 = wrap64 (nth (S i) (hist h) 0))
  /\ nth 31 (hist h') 0 = 0
  /\ length (hist h') = 32%nat
  /\ monitoring_age h' = wrap64 (monitoring_age h + 1)
  /\ hotness_threshold h'
     = calculate_hotness_threshold
         {| hist := hist h; hotness_threshold := hotness_threshold h;
            monitoring_age := wrap64 (monitoring_age h + 1);
            hot_page_percentile := hot_page_percentile h;
            replication_candidate := replication_candidate h |}
         (hot_page_percentile h).
Proof.
  intros Hlen h'. subst h'. unfold replication_tick_tail.
  cbn [hist monitoring_age hotness_threshold hot_page_percentile].
  rewrite (cool_down_32 _ Hlen).
  destruct h as [hs thr age pct cand]. cbn [Hotness.hist] in *.
  do 32 (destruct hs as [|? hs]; [discriminate Hlen|]).
  destruct hs; [|discriminate Hlen].
  split; [reflexivity|]. split.
  { intros i [Hlo Hhi].
    do 31 (destruct i as [|i]; [first [lia | reflexivity]|]). lia. }
  repeat split.
Qed.

Lemma tick_shifts_histogram_down_witness :
  let h' := replication_tick_tail flat_histogram in
  nth 0 (hist h') 0 = 8 /\ nth 31 (hist h') 0 = 0.
Proof.
  pose proof (tick_shifts_histogram_down flat_histogram eq_refl) as H.
  cbv zeta in H. destruct H as (H0 & _ & H31 & _).
  split; [exact H0 | exact H31].
Defined.

(** [fls64 0 - 1] is [-1]. *)
Lemma fls64_zero : fls64 0 - 1 = -1.
Proof. reflexivity. Qed.

(** C10 fails on the code: the first sample of a page finds the access
    count 0, the old index is [fls64 0 - 1 = -1], and the update step
    decrements [hist[-1]], outside the 32-entry array. *)
Theorem first_sample_indexes_below_hist :
  hist_accesses (monitoring_age fresh_histogram)
    (private (page_at unsampled_pool sampled_page)) = [-1; 0]
  /\ ~ in_hist_bounds (-1)
  /\ handle_sampled_address (Some sampled_page) true fresh_histogram
       unsampled_pool = Hist_out_of_bounds (-1).
Proof.
  split; [reflexivity|]. split; [|reflexivity].
  unfold in_hist_bounds. lia.
Qed.

(** The other end of the array is crossed as well: an access count of
    [2^32 - 1] makes the new index 32. *)
Lemma saturated_count_indexes_above_hist :
  hist_accesses 0 (Z.shiftl (2 ^ 32 - 1) 32) = [31; 32].
Proof. reflexivity. Qed.

End HotnessFacts.

(** ** The replica pool *)

Module ReplicationFacts.
Import Replication Scenarios.

Lemma page_at_upd_eq a f s : page_at (upd_page a f s) a = f (page_at s a).
Proof. unfold page_at, upd_page. cbn [pages]. by rewrite lookup_insert_eq. Qed.

Lemma page_at_upd_ne a b f s :
  a <> b -> page_at (upd_page a f s) b = page_at s b.
Proof.
  intros Hne. unfold page_at, upd_page. cbn [pages].
  by rewrite lookup_insert_ne.
Qed.

Lemma page_at_mm_call_log c s a : page_at (mm_call_log c s) a = page_at s a.
Proof. reflexivity. Qed.

Lemma page_at_track_alloc o s a : page_at (track_page_alloc o s) a = page_at s a.
Proof. reflexivity. Qed.

Lemma page_at_track_free o s a : page_at (track_page_free o s) a = page_at s a.
Proof. reflexivity. Qed.

Lemma page_at_with_lru l1 l2 s a : page_at (with_lru l1 l2 s) a = page_at s a.
Proof. reflexivity. Qed.

(** Clearing the tag bits of an aligned pointer changes nothing. *)
Lemma clear_tag_aligned r :
  Z.land r SWMC_TAG_MASK = 0 -> Z.land r (Z.lnot SWMC_TAG_MASK) = r.
Proof.
  intros H. rewrite <- Z.ldiff_land.
  apply Z.bits_inj'. intros n Hn. rewrite Z.ldiff_spec.
  destruct (Z.testbit r n) eqn:Hr; [|reflexivity].
  assert (Hb : Z.testbit (Z.land r SWMC_TAG_MASK) n
               = Z.testbit r n && Z.testbit SWMC_TAG_MASK n)
    by apply Z.land_spec.
  rewrite H, Z.bits_0, Hr in Hb. simpl in Hb. rewrite <- Hb. reflexivity.
Qed.

(** Whatever pointer a [private] word was built from, once its tag bits
    are replaced by [SWMC_TAG_ACCESS] it no longer reads as a replica
    pointer. *)
Lemma access_tag_reads_back v :
  Z.land (Z.lor (Z.land v (Z.lnot SWMC_TAG_MASK)) SWMC_TAG_ACCESS)
         SWMC_TAG_MASK = SWMC_TAG_ACCESS.
Proof.
  rewrite Z.land_lor_distr_l, <- Z.land_assoc.
  change (Z.land (Z.lnot SWMC_TAG_MASK) SWMC_TAG_MASK) with 0.
  rewrite Z.land_0_r. reflexivity.
Qed.

(** What [flush_page_replica] does to a replica that is linked to its
    original, does not carry both coherence flags and belongs to a
    mapping. *)
Lemma flush_facts pr orig s :
  pr <> NULL -> orig <> NULL -> pr <> orig ->
  memcg_data (page_at s pr) = orig ->
  PG_modified (page_at s pr) = false ->
  mapping (page_at s pr) <> NULL ->
  exists s2,
    flush_page_replica pr s = Flush_returned 0 s2
    /\ private (page_at s2 orig)
       = Z.lor (Z.land (private (page_at s pr)) (Z.lnot SWMC_TAG_MASK))
               SWMC_TAG_ACCESS
    /\ contents (page_at s2 orig)
       = memcpy (contents (page_at s orig)) (contents (page_at s pr)) PAGE_SIZE
    /\ replica_active_lru s2 = filter (fun x => x <> pr) (replica_active_lru s)
    /\ replica_inactive_lru s2
       = filter (fun x => x <> pr) (replica_inactive_lru s).
Proof.
  intros Hpr Horig Hne Hback Hflag Hmap.
  assert (Hne' : orig <> pr) by congruence.
  unfold flush_page_replica, writeback_page_replica, get_original_opt,
    copy_data_page.
  rewrite Hback.
  destruct (orig =? NULL) eqn:E1; [apply Z.eqb_eq in E1; done|].
  destruct (pr =? NULL) eqn:E2; [apply Z.eqb_eq in E2; done|].
  cbn [orb negb Z.eqb]. cbv iota zeta.
  repeat first
    [ rewrite page_at_mm_call_log
    | rewrite (page_at_upd_ne orig pr) by done
    | rewrite Hback ].
  rewrite Hflag. cbn [andb]. cbv iota.
  unfold remove_replica_lru.
  repeat first
    [ rewrite page_at_with_lru
    | rewrite (page_at_upd_ne pr orig) by done
    | rewrite page_at_upd_eq ].
  cbn [mapping with_mapping].
  repeat first
    [ rewrite page_at_mm_call_log
    | rewrite (page_at_upd_ne orig pr) by done ].
  destruct (mapping (page_at s pr) =? NULL) eqn:E3;
    [apply Z.eqb_eq in E3; done|].
  eexists. split; [reflexivity|].
  repeat first
    [ rewrite page_at_upd_eq
    | rewrite page_at_upd_ne by done
    | rewrite page_at_mm_call_log
    | rewrite page_at_track_free
    | rewrite page_at_with_lru ].
  cbn. done.
Qed.

(** A replica whose mapping is [NULL] cannot be flushed: step 5 hands the
    [NULL] to [unmap_mapping_pages].  [create_page_replica] makes such a
    replica from an original that has no mapping. *)
Lemma flush_without_mapping pr orig s :
  pr <> NULL -> orig <> NULL -> pr <> orig ->
  memcg_data (page_at s pr) = orig ->
  PG_modified (page_at s pr) = false ->
  mapping (page_at s pr) = NULL ->
  exists s2, flush_page_replica pr s = Flush_null_mapping s2.
Proof.
  intros Hpr Horig Hne Hback Hflag Hmap.
  assert (Hne' : orig <> pr) by congruence.
  unfold flush_page_replica, writeback_page_replica, get_original_opt,
    copy_data_page.
  rewrite Hback.
  destruct (orig =? NULL) eqn:E1; [apply Z.eqb_eq in E1; done|].
  destruct (pr =? NULL) eqn:E2; [apply Z.eqb_eq in E2; done|].
  cbn [orb negb Z.eqb]. cbv iota zeta.
  repeat first
    [ rewrite page_at_mm_call_log
    | rewrite (page_at_upd_ne orig pr) by done
    | rewrite Hback ].
  rewrite Hflag. cbn [andb]. cbv iota.
  unfold remove_replica_lru.
  repeat first
    [ rewrite page_at_with_lru
    | rewrite (page_at_upd_ne pr orig) by done
    | rewrite page_at_upd_eq ].
  cbn [mapping with_mapping].
  repeat first
    [ rewrite page_at_mm_call_log
    | rewrite (page_at_upd_ne orig pr) by done ].
  rewrite Hmap. cbn [Z.eqb NULL]. by eexists.
Qed.

Lemma get_replica_opt_ext s s' a :
  page_at s' a = page_at s a -> get_replica_opt s' a = get_replica_opt s a.
Proof. unfold get_replica_opt. by intros ->. Qed.

(** The page [allocate_page_replica_with_retry] returns is one of the
    results of [alloc_pages], and it is fresh; nothing is assumed of the
    shrinker. *)
Lemma allocate_loop_fresh shrink retries order allocs s pr sa :
  allocate_loop shrink retries order allocs s = (pr, sa) ->
  pr <> NULL ->
  pr ∈ allocs /\ page_at sa pr = blank_page.
Proof.
  revert allocs s. induction retries as [|k IH]; intros allocs s Hrun Hpr;
    cbn [allocate_loop] in Hrun;
    (destruct (hd NULL allocs =? NULL) eqn:Hhd;
     [| injection Hrun as <- <-; destruct allocs as [|r rest];
        [done|]; cbn [hd]; split; [by left|];
        unfold alloc_pages; by rewrite page_at_track_alloc, page_at_upd_eq]).
  - injection Hrun as <- _. done.
  - apply IH in Hrun as [Hin Hblank]; [|done]. split; [|done].
    destruct allocs as [|r rest]; [done|]. by right.
Qed.

(** What a creation that returns 0 and leaves a replica behind has done:
    [pr] is the page the allocator handed out, [sa] the pool right after
    the allocation, in which the original is as it was on entry. *)
Lemma create_facts_after_alloc shrink orig order allocs s pr sa s1 :
  allocator_ok orig allocs ->
  allocate_page_replica_with_retry shrink order allocs s = (pr, sa) ->
  page_at sa orig = page_at s orig ->
  create_page_replica shrink orig order allocs s = (0, s1) ->
  get_replica_opt s1 orig <> NULL ->
  pr <> NULL /\ pr <> orig /\ orig <> NULL
  /\ Z.land pr SWMC_TAG_MASK = 0
  /\ private (page_at s1 orig) = pr
  /\ contents (page_at s1 orig) = contents (page_at s orig)
  /\ memcg_data (page_at s1 pr) = orig
  /\ private (page_at s1 pr)
     = Z.lor (Z.lor (Z.land pr (Z.lnot SWMC_TAG_MASK)) SWMC_TAG_REPLICA_SELF)
             SWMC_TAG_ACCESS
  /\ PG_modified (page_at s1 pr) = false
  /\ mapping (page_at s1 pr) = mapping (page_at s orig)
  /\ contents (page_at s1 pr)
     = memcpy (fun _ => 0) (contents (page_at s orig))
         (Z.shiftl PAGE_SIZE order).
Proof.
  intros Hok Halloc Hsa Hcreate Hrep.
  unfold create_page_replica in Hcreate.
  destruct (negb (get_replica_opt s orig =? NULL)) eqn:Hnone;
    [discriminate Hcreate|].
  apply negb_false_iff, Z.eqb_eq in Hnone.
  rewrite Halloc in Hcreate.
  destruct (pr =? NULL) eqn:Hpr; [discriminate Hcreate|].
  apply Z.eqb_neq in Hpr.
  destruct (allocate_loop_fresh _ _ _ _ _ _ _ Halloc Hpr) as [Hin Hblank].
  assert (Hne : pr <> orig /\ Z.land pr SWMC_TAG_MASK = 0).
  { unfold allocator_ok in Hok. rewrite Forall_forall in Hok.
    destruct (Hok pr Hin) as [?|?]; done. }
  destruct Hne as [Hne Hal].
  assert (Hne' : orig <> pr) by congruence.
  unfold copy_data_page in Hcreate.
  destruct ((orig =? NULL) || (pr =? NULL)) eqn:Hnull;
    [discriminate Hcreate|].
  apply orb_false_iff in Hnull as [Horig _]. apply Z.eqb_neq in Horig.
  cbn [negb Z.eqb] in Hcreate. cbv iota in Hcreate.
  rewrite !(page_at_upd_ne pr orig) in Hcreate by done.
  destruct (PG_modified (page_at sa orig) && PG_shared (page_at sa orig)).
  - injection Hcreate as <-. exfalso. apply Hrep.
    rewrite (get_replica_opt_ext s); [done|].
    rewrite page_at_track_free, page_at_mm_call_log, page_at_upd_ne by done.
    done.
  - injection Hcreate as <-.
    unfold insert_replica_lru.
    destruct (negb (mapping (page_at sa orig) =? 0));
      repeat first
        [ rewrite page_at_upd_eq
        | rewrite page_at_upd_ne by done
        | rewrite page_at_mm_call_log
        | rewrite page_at_with_lru ];
      rewrite ?Hblank, ?Hsa; cbn; done.
Qed.

Section WithShrinker.

Variable replica_trigger_shrink : Z -> pool -> pool.
Variable orig : Z.

(** The shrinker works on the replicas of the two LRU lists and on their
    originals; a page without a replica is not among them. *)
Hypothesis shrink_frame :
  forall n s, page_at (replica_trigger_shrink n s) orig = page_at s orig.

Lemma allocate_loop_spec retries order allocs s pr sa :
  allocator_ok orig allocs ->
  allocate_loop replica_trigger_shrink retries order allocs s = (pr, sa) ->
  pr <> NULL ->
  pr <> orig /\ Z.land pr SWMC_TAG_MASK = 0
  /\ page_at sa orig = page_at s orig /\ page_at sa pr = blank_page.
Proof.
  revert allocs s. induction retries as [|k IH]; intros allocs s Hok Hrun Hpr.
  - cbn [allocate_loop] in Hrun.
    destruct (hd NULL allocs =? NULL) eqn:Hhd.
    + injection Hrun as <- _. congruence.
    + injection Hrun as <- <-. apply Z.eqb_neq in Hhd.
      destruct allocs as [|r rest]; [cbn in Hhd; congruence|].
      cbn [hd] in *. apply Forall_cons in Hok as [[->|[Hne Hal]] _];
        [congruence|].
      unfold alloc_pages. repeat split; try done.
      * rewrite page_at_track_alloc. by apply page_at_upd_ne.
      * rewrite page_at_track_alloc. by rewrite page_at_upd_eq.
  - cbn [allocate_loop] in Hrun.
    destruct (hd NULL allocs =? NULL) eqn:Hhd.
    + apply IH in Hrun as (H1 & H2 & H3 & H4); [|by destruct allocs as [|? ?];
        [constructor | apply Forall_cons in Hok as [_ ?]] | done].
      rewrite H3, shrink_frame. done.
    + injection Hrun as <- <-. apply Z.eqb_neq in Hhd.
      destruct allocs as [|r rest]; [cbn in Hhd; congruence|].
      cbn [hd] in *. apply Forall_cons in Hok as [[->|[Hne Hal]] _];
        [congruence|].
      unfold alloc_pages. repeat split; try done.
      * rewrite page_at_track_alloc. by apply page_at_upd_ne.
      * rewrite page_at_track_alloc. by rewrite page_at_upd_eq.
Qed.

(** The same under a shrinker that leaves the original alone. *)
Lemma create_success_facts order allocs s s1 :
  allocator_ok orig allocs ->
  create_page_replica replica_trigger_shrink orig order allocs s = (0, s1) ->
  get_replica_opt s1 orig <> NULL ->
  exists pr,
    pr <> NULL /\ pr <> orig /\ orig <> NULL
    /\ Z.land pr SWMC_TAG_MASK = 0
    /\ private (page_at s1 orig) = pr
    /\ contents (page_at s1 orig) = contents (page_at s orig)
    /\ memcg_data (page_at s1 pr) = orig
    /\ private (page_at s1 pr)
       = Z.lor (Z.lor (Z.land pr (Z.lnot SWMC_TAG_MASK)) SWMC_TAG_REPLICA_SELF)
               SWMC_TAG_ACCESS
    /\ PG_modified (page_at s1 pr) = false
    /\ contents (page_at s1 pr)
       = memcpy (fun _ => 0) (contents (page_at s orig))
           (Z.shiftl PAGE_SIZE order).
Proof.
  intros Hok Hcreate Hrep.
  destruct (allocate_page_replica_with_retry replica_trigger_shrink order
              allocs s) as [pr sa] eqn:Halloc.
  assert (Hsa : page_at sa orig = page_at s orig).
  { destruct (decide (pr = NULL)) as [->|Hpr].
    - exfalso. unfold create_page_replica in Hcreate.
      rewrite Halloc in Hcreate. cbn [Z.eqb NULL] in Hcreate.
      by destruct (negb _).
    - by destruct (allocate_loop_spec _ _ _ _ _ _ Hok Halloc Hpr)
        as (_ & _ & ? & _). }
  destruct (create_facts_after_alloc _ _ _ _ _ _ _ _ Hok Halloc Hsa Hcreate Hrep)
    as (H1 & H2 & H3 & H4 & H5 & H6 & H7 & H8 & H9 & _ & H10).
  by exists pr.
Qed.

End WithShrinker.

(** C8.  [create_page_replica] followed at once by [flush_page_replica]
    on the replica it made: the flush returns 0, every byte of the
    original is what it was before the replica was created, the replica
    is on neither LRU list, and [get_replica_opt] finds no replica for
    the original.

    "Both operations succeeding" is: the creation returns 0 and did make
    a replica (it also returns 0 when it skips a stale-shared original),
    and the replica belongs to a mapping, without which the flush does
    not return.  "Otherwise idle" is: while the allocation was retried,
    nobody, the shrinker included, wrote to the [struct page] of the
    original; [sa] is the pool right after the allocation.  The shrinker
    itself is arbitrary. *)
Theorem create_then_flush_roundtrip
    (replica_trigger_shrink : Z -> pool -> pool) orig order allocs s pr sa s1 r :
  0 <= order ->
  allocator_ok orig allocs ->
  allocate_page_replica_with_retry replica_trigger_shrink order allocs s
  = (pr, sa) ->
  page_at sa orig = page_at s orig ->
  create_page_replica replica_trigger_shrink orig order allocs s = (0, s1) ->
  get_replica_opt s1 orig = r ->
  r <> NULL ->
  mapping (page_at s1 r) <> NULL ->
  exists s2,
    flush_page_replica r s1 = Flush_returned 0 s2
    /\ (forall i, contents (page_at s2 orig) i = contents (page_at s orig) i)
    /\ (r ∉ replica_active_lru s2)
    /\ (r ∉ replica_inactive_lru s2)
    /\ get_replica_opt s2 orig = NULL.
Proof.
  intros Horder Hok Halloc Hidle Hcreate Hr Hrnn Hmap.
  destruct (create_facts_after_alloc _ _ _ _ _ _ _ _ Hok Halloc Hidle Hcreate)
    as (Hpr & Hne & Horig & Hal & Hpriv & Hdata & Hback & Htag & Hflag & _
        & Hcopy); [congruence|].
  assert (r = pr) as ->.
  { subst r. unfold get_replica_opt. rewrite Hpriv.
    destruct (pr =? 0) eqn:E; [apply Z.eqb_eq in E; done|].
    rewrite Hal. cbn. by apply clear_tag_aligned. }
  destruct (flush_facts pr orig s1 Hpr Horig Hne Hback Hflag Hmap)
    as (s2 & Hflush & Hpriv2 & Hdata2 & Hact & Hinact).
  exists s2. split; [exact Hflush|]. split; [|split; [|split]].
  - intros i. rewrite Hdata2, Hcopy, Hdata. unfold memcpy.
    destruct ((0 <=? i) && (i <? PAGE_SIZE)) eqn:Hin; [|reflexivity].
    apply andb_true_iff in Hin as [Hlo Hhi].
    rewrite Hlo. cbn [andb].
    assert (PAGE_SIZE <= Z.shiftl PAGE_SIZE order) as Hle.
    { rewrite Z.shiftl_mul_pow2 by done.
      assert (0 < 2 ^ order) by (apply Z.pow_pos_nonneg; lia).
      unfold PAGE_SIZE. nia. }
    apply Z.ltb_lt in Hhi.
    destruct (i <? Z.shiftl PAGE_SIZE order) eqn:E; [reflexivity|].
    apply Z.ltb_ge in E. lia.
  - rewrite Hact. intros Hin. apply list_elem_of_filter in Hin as [Hx _]. done.
  - rewrite Hinact. intros Hin. apply list_elem_of_filter in Hin as [Hx _].
    done.
  - unfold get_replica_opt. rewrite Hpriv2.
    destruct (_ =? 0); [reflexivity|].
    rewrite access_tag_reads_back. reflexivity.
Qed.

Lemma create_then_flush_roundtrip_witness :
  create_page_replica idle_shrinker original_addr 0 [NULL; replica_addr]
    mapped_page_pool
  = (0, mapped_replicated_pool)
  /\ get_replica_opt mapped_replicated_pool original_addr = replica_addr
  /\ mapping (page_at mapped_replicated_pool replica_addr) = file_mapping
  /\ exists s2,
       flush_page_replica replica_addr mapped_replicated_pool
       = Flush_returned 0 s2
       /\ (forall i, contents (page_at s2 original_addr) i
                     = contents (page_at mapped_page_pool original_addr) i)
       /\ (replica_addr ∉ replica_active_lru s2)
       /\ (replica_addr ∉ replica_inactive_lru s2)
       /\ get_replica_opt s2 original_addr = NULL.
Proof.
  split; [reflexivity|]. split; [reflexivity|]. split; [reflexivity|].
  apply (create_then_flush_roundtrip idle_shrinker original_addr 0
           [NULL; replica_addr] mapped_page_pool replica_addr
           (track_page_alloc 0 (alloc_pages replica_addr mapped_page_pool))
           mapped_replicated_pool replica_addr).
  - lia.
  - constructor; [by left|]. constructor; [|constructor].
    right. split; [discriminate | reflexivity].
  - reflexivity.
  - reflexivity.
  - reflexivity.
  - reflexivity.
  - discriminate.
  - discriminate.
Defined.

End ReplicationFacts.

(** ** The fault engine *)

Module CoherenceFacts.
Import Kmsg Replication Coherence Scenarios.

(** *** Buckets and handles *)

Lemma bucket_set_bucket fk b e : bucket (set_bucket fk b e) fk = b.
Proof. unfold bucket, set_bucket. cbn. by rewrite lookup_insert_eq. Qed.

Lemma find_fh_update_first pfn f b :
  (forall x, original_pfn_val (f x) = original_pfn_val x) ->
  find_fh pfn (update_first pfn f b) = f <$> find_fh pfn b.
Proof.
  intros Hf. induction b as [|fh b IH]; [reflexivity|].
  cbn. destruct (original_pfn_val fh =? pfn) eqn:E.
  - cbn. rewrite Hf, E. reflexivity.
  - cbn. rewrite E. exact IH.
Qed.

Lemma handle_for_fh_upd pfn f e :
  (forall x, original_pfn_val (f x) = original_pfn_val x) ->
  handle_for (fh_upd pfn f e) pfn = f <$> handle_for e pfn.
Proof.
  intros Hf. unfold handle_for, fh_upd.
  rewrite bucket_set_bucket. by apply find_fh_update_first.
Qed.

Lemma fh_of_handle_for e pfn fh :
  handle_for e pfn = Some fh -> fh_of e pfn = fh.
Proof. unfold handle_for, fh_of. by intros ->. Qed.

Lemma find_fh_key pfn b fh : find_fh pfn b = Some fh -> original_pfn_val fh = pfn.
Proof.
  unfold find_fh. intros H. apply find_some in H as [_ H].
  by apply Z.eqb_eq in H.
Qed.

(** A handle put at the head of its bucket and taken out again leaves
    the bucket as it was. *)
Lemma handle_for_alloc w pfn e e1 :
  __alloc_fault_handle w pfn e = Some e1 ->
  handle_for e1 pfn = Some (blank_fh pfn)
  /\ bucket e1 (__fault_hash_key pfn) = blank_fh pfn :: bucket e (__fault_hash_key pfn)
  /\ events e1 = events e /\ mem e1 = mem e.
Proof.
  unfold __alloc_fault_handle. destruct (handle_alloc_ok w); [|done].
  intros [= <-]. unfold handle_for. rewrite bucket_set_bucket.
  cbn. rewrite Z.eqb_refl. done.
Qed.

(** *** Flag arithmetic *)

Lemma is_flag_set_same f fh : f <> 0 -> is_flag f (set_flag f fh) = true.
Proof.
  intros Hf. unfold is_flag, set_flag. cbn.
  rewrite Z.land_lor_distr_l, Z.land_diag.
  apply negb_true_iff, Z.eqb_neq. intros H.
  apply Z.lor_eq_0_iff in H as [_ H]. done.
Qed.

Lemma is_flag_set_other f g fh :
  Z.land g f = 0 -> is_flag f (set_flag g fh) = is_flag f fh.
Proof.
  intros H. unfold is_flag, set_flag. cbn.
  by rewrite Z.land_lor_distr_l, H, Z.lor_0_r.
Qed.

Lemma land_pow2_testbit f k :
  0 <= k -> Z.land f (2 ^ k) = if Z.testbit f k then 2 ^ k else 0.
Proof.
  intros Hk. apply Z.bits_inj'. intros n Hn.
  rewrite Z.land_spec, Z.pow2_bits_eqb by done.
  destruct (Z.eqb_spec k n) as [-> | Hne].
  - destruct (Z.testbit f n) eqn:E; rewrite ?E.
    + by rewrite Z.pow2_bits_eqb, Z.eqb_refl.
    + by rewrite Z.bits_0.
  - rewrite andb_false_r. destruct (Z.testbit f k).
    + rewrite Z.pow2_bits_eqb by done. symmetry. by apply Z.eqb_neq.
    + by rewrite Z.bits_0.
Qed.

Lemma is_flag_testbit k fh :
  0 <= k -> is_flag (2 ^ k) fh = Z.testbit (fh_flags fh) k.
Proof.
  intros Hk. unfold is_flag. rewrite land_pow2_testbit by done.
  destruct (Z.testbit (fh_flags fh) k); [|reflexivity].
  apply negb_true_iff, Z.eqb_neq.
  assert (0 < 2 ^ k) by (apply Z.pow_pos_nonneg; lia). lia.
Qed.

Lemma set_flag_testbit k fh n :
  0 <= k -> 0 <= n ->
  Z.testbit (fh_flags (set_flag (2 ^ k) fh)) n
  = (k =? n) || Z.testbit (fh_flags fh) n.
Proof.
  intros Hk Hn. cbn. rewrite Z.lor_spec, Z.pow2_bits_eqb by done.
  apply orb_comm.
Qed.

Lemma clear_flag_testbit k fh n :
  0 <= k -> 0 <= n ->
  Z.testbit (fh_flags (clear_flag (2 ^ k) fh)) n
  = negb (k =? n) && Z.testbit (fh_flags fh) n.
Proof.
  intros Hk Hn. cbn.
  rewrite Z.land_spec, Z.lnot_spec, Z.pow2_bits_eqb by done.
  apply andb_comm.
Qed.

(** The index into the action table, from the five bits it is made of. *)
Lemma land_31_bits f :
  Z.land f 31
  = Z.b2z (Z.testbit f 0) + 2 * Z.b2z (Z.testbit f 1)
    + 4 * Z.b2z (Z.testbit f 2) + 8 * Z.b2z (Z.testbit f 3)
    + 16 * Z.b2z (Z.testbit f 4).
Proof.
  apply Z.bits_inj'. intros n Hn. rewrite Z.land_spec.
  destruct (Z.testbit f 0) eqn:B0, (Z.testbit f 1) eqn:B1,
    (Z.testbit f 2) eqn:B2, (Z.testbit f 3) eqn:B3, (Z.testbit f 4) eqn:B4.
  all: match goal with
       | |- _ = Z.testbit ?c _ =>
           let c' := eval vm_compute in c in change c with c'
       end.
  all: destruct (Z.ltb_spec n 5) as [Hlt|Hge].
  all: try (assert (n = 0 \/ n = 1 \/ n = 2 \/ n = 3 \/ n = 4) as Hcase by lia;
            destruct Hcase as [-> | [-> | [-> | [-> | ->]]]];
            rewrite ?B0, ?B1, ?B2, ?B3, ?B4; reflexivity).
  all: assert (Z.testbit 31 n = false) as ->
         by (apply Z.bits_above_log2; [lia | change (Z.log2 31) with 4; lia]).
  all: rewrite andb_false_r; symmetry.
  all: first [ reflexivity | apply Z.bits_0 | apply Z.bits_above_log2; [lia|] ].
  all: match goal with
       | |- Z.log2 ?c < _ =>
           let l := eval vm_compute in (Z.log2 c) in
           change (Z.log2 c) with l
       end; lia.
Qed.

(** The flags and the action a handle leaves "Clear & update flags"
    with: bit 0 is SHARED, bit 1 MODIFIED, bit 2 NEEDWRITE, bit 3
    REPLICATED, bit 4 REMOTE, bit 5 RETRY. *)
Lemma refresh_handle_spec remote is_write s fh :
  let fh' := refresh_handle remote is_write s fh in
  Z.testbit (fh_flags fh') 0 = PG_shared (page_at s (original_page fh))
  /\ Z.testbit (fh_flags fh') 1 = PG_modified (page_at s (original_page fh))
  /\ Z.testbit (fh_flags fh') 2 = is_write
  /\ Z.testbit (fh_flags fh') 3
     = negb (get_replica_opt s (original_page fh) =? NULL)
  /\ Z.testbit (fh_flags fh') 4 = remote
  /\ Z.testbit (fh_flags fh') 5 = false
  /\ fh_action fh'
     = nth (Z.to_nat (Z.land (fh_flags fh') 31)) fh_action_table 0
  /\ original_pfn_val fh' = original_pfn_val fh
  /\ original_page fh' = original_page fh
  /\ complete fh' = complete fh.
Proof.
  destruct fh as [pfn pg f a c].
  unfold refresh_handle, check_metadata, set_fh_action, FH_CLEAR_FLAG_ALL.
  cbn [original_page clear_flag set_flag with_fh_flags fh_flags].
  destruct remote, is_write; cbv zeta;
    cbn [original_page clear_flag set_flag with_fh_flags fh_flags];
    destruct (PG_shared (page_at s pg));
    cbn [original_page clear_flag set_flag with_fh_flags fh_flags];
    destruct (PG_modified (page_at s pg));
    cbn [original_page clear_flag set_flag with_fh_flags fh_flags];
    destruct (negb (get_replica_opt s pg =? NULL));
    cbn [original_page clear_flag set_flag with_fh_flags with_fh_action
         fh_flags fh_action original_pfn_val complete negb];
    repeat split;
    repeat first [ rewrite Z.lor_spec | rewrite Z.land_spec
                 | rewrite Z.lnot_spec by lia ];
    cbn; rewrite ?andb_false_r, ?andb_true_r, ?orb_false_r, ?orb_true_r;
    reflexivity.
Qed.

(** *** What each step adds to the event list *)

Lemma replies_emit ev e :
  replies (events (emit ev e))
  = replies (events e) ++ (if is_reply ev then [ev] else []).
Proof.
  unfold replies, emit. cbn. rewrite List.filter_app. cbn.
  by destruct (is_reply ev).
Qed.

Lemma work_emit ev e :
  work (events (emit ev e)) = work (events e) ++ (if is_work ev then [ev] else []).
Proof.
  unfold work, emit. cbn. rewrite List.filter_app. cbn.
  by destruct (is_work ev).
Qed.

Lemma start_remote_events w pfn iw c r l e :
  events (snd (__start_remote_fault_handling w pfn iw c r l e)) = events e.
Proof.
  unfold __start_remote_fault_handling, __alloc_fault_handle.
  repeat case_match; simplify_eq; reflexivity.
Qed.

Lemma finish_remote_replies pfn e :
  replies (events (snd (__finish_remote_fault_handling pfn e)))
  = replies (events e).
Proof.
  unfold __finish_remote_fault_handling.
  repeat case_match; cbn [snd]; try reflexivity.
  change (events (fh_upd pfn (with_complete false) (emit (Complete pfn) e)))
    with (events (emit (Complete pfn) e)).
  rewrite replies_emit. cbn. by rewrite app_nil_r.
Qed.

Lemma writeback_page_replies pfn e :
  replies (events (writeback_page pfn e)) = replies (events e).
Proof.
  unfold writeback_page. rewrite replies_emit. cbn [is_reply].
  rewrite app_nil_r.
  case_match; cbn [events with_mem]; rewrite replies_emit; cbn;
    by rewrite app_nil_r.
Qed.

Lemma invalidate_page_replies pfn e :
  replies (events (invalidate_page pfn e)) = replies (events e).
Proof.
  unfold invalidate_page. cbn [events with_mem]. rewrite replies_emit. cbn.
  by rewrite app_nil_r.
Qed.

Lemma update_metadata_replies pfn e :
  replies (events (update_metadata pfn e)) = replies (events e).
Proof.
  unfold update_metadata.
  repeat case_match; cbn [events with_mem]; rewrite replies_emit; cbn;
    by rewrite app_nil_r.
Qed.

(** *** The remote handler *)

(** The handler once the two validity checks have passed. *)
Lemma handler_valid w msg e :
  is_request msg = true -> valid_order msg = true ->
  swmc_kmsg_handle_fetch_or_invalidate w (Some msg) e
  = let '(got, e1) :=
      __start_remote_fault_handling w
        (pfn_to_pfn_t (Z.shiftr (wrap64 (cxl_hdm_base e + cxl_hdm_offset (payload msg)))
                         PAGE_SHIFT))
        (type (header msg) =? SWMC_KMSG_TYPE_INVALIDATE)
        (acked_fault_count (payload msg)) (from_nid (header msg))
        (to_nid (header msg)) e in
    if negb got
    then (unicast_ret w, emit (reply_to msg (nack_of (type (header msg)))) e1)
    else serve_remote_fault w msg (message_pfn e msg) e1.
Proof.
  intros Hreq Hord. unfold swmc_kmsg_handle_fetch_or_invalidate.
  unfold is_request in Hreq. unfold valid_order in Hord.
  rewrite <- negb_orb, Hreq, Hord. reflexivity.
Qed.


Lemma serve_remote_replies w msg pfn e :
  replies (events (snd (serve_remote_fault w msg pfn e)))
  = replies (events e) ++ [reply_to msg (ack_of (type (header msg)))].
Proof.
  unfold serve_remote_fault.
  destruct (fh_action (fh_of e pfn) =? 0).
  - cbn [snd]. by rewrite finish_remote_replies, replies_emit.
  - cbv zeta.
    match goal with
    | |- context [emit (reply_to msg _) ?e2] => remember e2 as e3 eqn:Hdef
    end.
    assert (replies (events e3) = replies (events e)) as He2.
    { subst e3. repeat case_match;
        rewrite ?update_metadata_replies, ?invalidate_page_replies,
          ?writeback_page_replies; reflexivity. }
    clear Hdef. destruct (find_fh _ _); cbn [snd];
      rewrite ?finish_remote_replies, replies_emit, He2; reflexivity.
Qed.


(** *** The table through a remote request *)

Lemma handle_for_faults e1 e2 pfn :
  faults e1 = faults e2 -> handle_for e1 pfn = handle_for e2 pfn.
Proof. unfold handle_for, bucket. by intros ->. Qed.

Lemma writeback_page_faults pfn e : faults (writeback_page pfn e) = faults e.
Proof. unfold writeback_page. by case_match. Qed.

Lemma invalidate_page_faults pfn e : faults (invalidate_page pfn e) = faults e.
Proof. reflexivity. Qed.

Lemma update_metadata_faults pfn e : faults (update_metadata pfn e) = faults e.
Proof. unfold update_metadata. by repeat case_match. Qed.

(** Finishing a remote request on a handle that belongs to a local fault
    leaves the handle in the table, flags untouched. *)
Lemma finish_remote_keeps_local pfn e fh :
  handle_for e pfn = Some fh -> is_REMOTE fh = false ->
  exists fh', handle_for (snd (__finish_remote_fault_handling pfn e)) pfn = Some fh'
              /\ fh_flags fh' = fh_flags fh.
Proof.
  intros Hfh Hloc. unfold __finish_remote_fault_handling.
  rewrite (fh_of_handle_for _ _ _ Hfh), Hloc.
  destruct (complete fh); cbn [snd].
  - rewrite handle_for_fh_upd by done.
    rewrite (handle_for_faults _ e) by done. rewrite Hfh. by eexists.
  - by eexists.
Qed.

Lemma serve_remote_keeps_local w msg pfn e fh :
  handle_for e pfn = Some fh -> is_REMOTE fh = false ->
  exists fh', handle_for (snd (serve_remote_fault w msg pfn e)) pfn = Some fh'
              /\ fh_flags fh' = fh_flags fh.
Proof.
  intros Hfh Hloc. unfold serve_remote_fault.
  destruct (fh_action (fh_of e pfn) =? 0).
  - cbn [snd]. apply finish_remote_keeps_local; [|done].
    by rewrite (handle_for_faults _ e).
  - cbv zeta.
    match goal with
    | |- context [emit (reply_to msg _) ?e2] => remember e2 as e3 eqn:Hdef
    end.
    assert (faults e3 = faults e) as He2.
    { subst e3. repeat case_match;
        rewrite ?update_metadata_faults, ?invalidate_page_faults,
          ?writeback_page_faults; reflexivity. }
    clear Hdef.
    match goal with
    | |- context [emit ?ev e3] =>
        assert (handle_for (emit ev e3) pfn = Some fh) as He3
          by (rewrite (handle_for_faults _ e); done)
    end.
    unfold handle_for in He3. rewrite He3. cbn [snd].
    by apply finish_remote_keeps_local.
Qed.

(** *** One reply per request *)




(** *** A remote write against a local write in progress *)

Lemma has_lower_priority_writes fh e msg :
  is_NEEDWRITE fh = true ->
  has_lower_priority fh true (acked_fault_count (payload msg))
    (from_nid (header msg)) (to_nid (header msg)) e
  = remote_write_loses e msg.
Proof.
  intros Hw. unfold has_lower_priority, remote_write_loses. rewrite Hw.
  cbn [negb andb].
  destruct (Z.ltb_spec (acked_fault_count (payload msg))
              (__local_acked_fault_count e));
    destruct (Z.ltb_spec (__local_acked_fault_count e)
                (acked_fault_count (payload msg)));
    destruct (Z.eqb_spec (acked_fault_count (payload msg))
                (__local_acked_fault_count e));
    cbn; try reflexivity; lia.
Qed.

(** C2.  A remote INVALIDATE arrives for a frame on which a local write
    fault is in progress (the table holds a handle for the frame that is
    not REMOTE and has NEEDWRITE).  The request is NACKed exactly when
    the sender's count of acknowledged faults is strictly higher than the
    local count, or the counts are equal and the local node id is lower
    than the sender's; the handle is then left as it is.  Otherwise the
    request is ACKed and the local handle carries RETRY afterwards.  With
    equal counts the lower node id wins. *)
Theorem remote_write_against_local_write w msg e fh :
  type (header msg) = SWMC_KMSG_TYPE_INVALIDATE ->
  valid_order msg = true ->
  handle_for e (message_pfn e msg) = Some fh ->
  is_REMOTE fh = false ->
  is_NEEDWRITE fh = true ->
  let e' := snd (swmc_kmsg_handle_fetch_or_invalidate w (Some msg) e) in
  replies (events e')
  = replies (events e)
    ++ [reply_to msg (if remote_write_loses e msg
                      then SWMC_KMSG_TYPE_INVALIDATE_NACK
                      else SWMC_KMSG_TYPE_INVALIDATE_ACK)]
  /\ (remote_write_loses e msg = true ->
       handle_for e' (message_pfn e msg) = Some fh)
  /\ (remote_write_loses e msg = false ->
       is_RETRY (fh_of e' (message_pfn e msg)) = true).
Proof.
  intros Hty Hord Hfh Hloc Hw e'. subst e'.
  assert (Hreq : is_request msg = true).
  { unfold is_request. rewrite Hty. reflexivity. }
  rewrite handler_valid by done. rewrite Hty.
  unfold __start_remote_fault_handling.
  change (pfn_t_to_pfn (pfn_to_pfn_t
            (Z.shiftr (wrap64 (cxl_hdm_base e + cxl_hdm_offset (payload msg)))
               PAGE_SHIFT)))
    with (message_pfn e msg).
  set (pfn := message_pfn e msg) in *.
  unfold handle_for in Hfh. rewrite Hfh, Hloc.
  change (SWMC_KMSG_TYPE_INVALIDATE =? SWMC_KMSG_TYPE_INVALIDATE) with true.
  rewrite has_lower_priority_writes by done.
  destruct (remote_write_loses e msg) eqn:Hlose; cbn [negb snd].
  - split; [by rewrite replies_emit|]. split; [done|]. done.
  - assert (Hretry : handle_for (fh_upd pfn (set_flag FH_STATE_RETRY) e) pfn
                     = Some (set_flag FH_STATE_RETRY fh)).
    { rewrite handle_for_fh_upd by done. unfold handle_for. by rewrite Hfh. }
    split; [|split; [done|]].
    + rewrite serve_remote_replies, Hty. reflexivity.
    + intros _.
      destruct (serve_remote_keeps_local w msg pfn _ _ Hretry)
        as (fh' & Hfh' & Hflags).
      { unfold is_REMOTE in *.
        rewrite is_flag_set_other; [exact Hloc | reflexivity]. }
      rewrite (fh_of_handle_for _ _ _ Hfh').
      unfold is_RETRY, is_flag. rewrite Hflags.
      by apply (is_flag_set_same FH_STATE_RETRY fh).
Qed.

(** *** A fault on a frame without a handle *)

Lemma set_bucket_twice fk b1 b2 e :
  set_bucket fk b2 (set_bucket fk b1 e) = set_bucket fk b2 e.
Proof.
  unfold set_bucket, with_faults. cbn. f_equal. apply insert_insert_eq.
Qed.

Lemma fh_upd_head pfn f fh e :
  original_pfn_val fh = pfn ->
  fh_upd pfn f (with_handle pfn fh e) = with_handle pfn (f fh) e.
Proof.
  intros Hk. unfold fh_upd, with_handle.
  rewrite bucket_set_bucket, set_bucket_twice. cbn.
  apply Z.eqb_eq in Hk. by rewrite Hk.
Qed.

Lemma handle_for_head pfn fh e :
  original_pfn_val fh = pfn -> handle_for (with_handle pfn fh e) pfn = Some fh.
Proof.
  intros Hk. unfold handle_for, with_handle. rewrite bucket_set_bucket. cbn.
  apply Z.eqb_eq in Hk. by rewrite Hk.
Qed.

Lemma handle_for_del_head pfn fh e :
  original_pfn_val fh = pfn ->
  handle_for (fh_del pfn (with_handle pfn fh e)) pfn = handle_for e pfn.
Proof.
  intros Hk. unfold handle_for, fh_del, with_handle.
  rewrite !bucket_set_bucket. cbn. apply Z.eqb_eq in Hk. by rewrite Hk.
Qed.

Lemma refresh_handle_key remote is_write s fh :
  original_pfn_val (refresh_handle remote is_write s fh) = original_pfn_val fh.
Proof. apply (refresh_handle_spec remote is_write s fh). Qed.

Lemma start_local_fresh w original_pfn write e :
  handle_for e (pfn_t_to_pfn original_pfn) = None ->
  handle_alloc_ok w = true ->
  __start_local_fault_handling w original_pfn write e
  = Handle (with_handle (pfn_t_to_pfn original_pfn)
              (refresh_handle false write (mem e)
                 (blank_fh (pfn_t_to_pfn original_pfn))) e).
Proof.
  intros Hnone Hok. unfold __start_local_fault_handling.
  unfold handle_for in Hnone. rewrite Hnone.
  unfold __alloc_fault_handle. rewrite Hok.
  change (set_bucket ?k (?h :: bucket e ?k) e) with (with_handle (pfn_t_to_pfn original_pfn) h e).
  rewrite fh_upd_head by reflexivity. reflexivity.
Qed.

Lemma start_remote_fresh w original_pfn is_write c r l e :
  handle_for e (pfn_t_to_pfn original_pfn) = None ->
  handle_alloc_ok w = true ->
  __start_remote_fault_handling w original_pfn is_write c r l e
  = (true, with_handle (pfn_t_to_pfn original_pfn)
             (refresh_handle true is_write (mem e)
                (blank_fh (pfn_t_to_pfn original_pfn))) e).
Proof.
  intros Hnone Hok. unfold __start_remote_fault_handling.
  unfold handle_for in Hnone. rewrite Hnone.
  unfold __alloc_fault_handle. rewrite Hok.
  change (set_bucket ?k (?h :: bucket e ?k) e) with (with_handle (pfn_t_to_pfn original_pfn) h e).
  rewrite fh_upd_head by reflexivity. reflexivity.
Qed.

(** The action of a refreshed handle, read off the page. *)
Lemma refresh_handle_action remote is_write s fh :
  fh_action (refresh_handle remote is_write s fh)
  = nth (Z.to_nat
           (Z.b2z (PG_shared (page_at s (original_page fh)))
            + 2 * Z.b2z (PG_modified (page_at s (original_page fh)))
            + 4 * Z.b2z is_write
            + 8 * Z.b2z (negb (get_replica_opt s (original_page fh) =? NULL))
            + 16 * Z.b2z remote))
        fh_action_table 0.
Proof.
  destruct (refresh_handle_spec remote is_write s fh)
    as (B0 & B1 & B2 & B3 & B4 & _ & Hact & _).
  rewrite Hact, land_31_bits, B0, B1, B2, B3, B4. reflexivity.
Qed.

(** *** The invalid cell *)






(** *** A read fault on a stale-shared page *)

Lemma fh_of_faults e1 e2 pfn : faults e1 = faults e2 -> fh_of e1 pfn = fh_of e2 pfn.
Proof. unfold fh_of, bucket. by intros ->. Qed.


Lemma flags_as_bits fh :
  is_SHARED fh = Z.testbit (fh_flags fh) 0
  /\ is_MODIFIED fh = Z.testbit (fh_flags fh) 1
  /\ is_NEEDWRITE fh = Z.testbit (fh_flags fh) 2
  /\ is_REPLICATED fh = Z.testbit (fh_flags fh) 3
  /\ is_REMOTE fh = Z.testbit (fh_flags fh) 4
  /\ is_RETRY fh = Z.testbit (fh_flags fh) 5.
Proof.
  unfold is_SHARED, is_MODIFIED, is_NEEDWRITE, is_REPLICATED, is_REMOTE, is_RETRY.
  change FH_STATE_SHARED with (2 ^ 0). change FH_STATE_MODIFIED with (2 ^ 1).
  change FH_STATE_NEEDWRITE with (2 ^ 2). change FH_STATE_REPLICATED with (2 ^ 3).
  change FH_STATE_REMOTE with (2 ^ 4). change FH_STATE_RETRY with (2 ^ 5).
  rewrite !is_flag_testbit by lia. done.
Qed.

Lemma finish_local_fault_plain original_pfn e fh :
  fh_of e (pfn_t_to_pfn original_pfn) = fh ->
  has_action FH_ACTION_UPDATE_METADATA fh = false ->
  is_REPLICATED fh = false -> is_RETRY fh = false ->
  finish_local_fault original_pfn e
  = Returned 0 original_pfn (fh_del (pfn_t_to_pfn original_pfn) e).
Proof.
  intros Hfh Hupd Hrep Hretry. unfold finish_local_fault.
  rewrite Hfh, Hupd. cbv zeta. rewrite Hfh, Hrep.
  unfold __finish_local_fault_handling. rewrite Hfh, Hretry. reflexivity.
Qed.

(** Without a GetS or a GetM to issue, [issue_page_coherence_transaction]
    broadcasts nothing and reads its uninitialised [ret]. *)
Lemma issue_transaction_idle w pfn e :
  negb (is_NEEDWRITE (fh_of e pfn)) && negb (is_SHARED (fh_of e pfn))
    && negb (is_MODIFIED (fh_of e pfn)) = false ->
  is_NEEDWRITE (fh_of e pfn) && negb (is_MODIFIED (fh_of e pfn)) = false ->
  is_REPLICATED (fh_of e pfn) && negb (is_SHARED (fh_of e pfn)) = false ->
  issue_page_coherence_transaction w pfn e
  = (if stack_ret w =? - EAGAIN then - EAGAIN else stack_ret w, e).
Proof.
  intros H1 H2 H3. unfold issue_page_coherence_transaction.
  rewrite H1. cbv beta iota zeta. rewrite H2. cbv beta iota zeta.
  destruct (stack_ret w =? - EAGAIN); [reflexivity|].
  destruct (Z.eqb_spec (stack_ret w) 0) as [->|Hne]; cbn [negb].
  - by rewrite H3.
  - reflexivity.
Qed.

(** C3, as stated, fails: a read fault on the stale-shared frame 5 selects
    [MAP_VPN_TO_PFN] alone and returns 0, the caller maps the frame, and
    no FETCH has been broadcast. *)
Lemma stale_read_is_served_without_fetch :
  let fh := refresh_handle false false (mem stale_engine) (blank_fh 5) in
  is_MODIFIED fh = true /\ is_SHARED fh = true /\ is_NEEDWRITE fh = false
  /\ has_action FH_ACTION_ISSUE_SYNC_TRANSACTION fh = false
  /\ exists e',
       page_coherence_fault calm_world 5 false "data" stale_engine
       = Returned 0 5 e'
       /\ events e' = [].
Proof.
  cbv zeta. repeat split; try reflexivity. eexists. split; reflexivity.
Qed.

(** C3, amended.  For a local read fault on a stale-shared page (MODIFIED
    and SHARED both set) with no fault in progress on the frame, the
    selected action is [MAP_VPN_TO_PFN] alone when the page has no
    replica and the invalid action when it has one; it never contains
    [ISSUE_SYNC_TRANSACTION], and [page_coherence_fault] returns without
    having broadcast anything, also when the in-flight count forces the
    synchronous path. *)
Theorem stale_read_issues_no_transaction w original_pfn filename e :
  fault_is_handled original_pfn filename e = true ->
  handle_for e (pfn_t_to_pfn original_pfn) = None ->
  handle_alloc_ok w = true ->
  PG_modified (page_at (mem e) (pfn_to_page (pfn_t_to_pfn original_pfn))) = true ->
  PG_shared (page_at (mem e) (pfn_to_page (pfn_t_to_pfn original_pfn))) = true ->
  let fh := refresh_handle false false (mem e)
              (blank_fh (pfn_t_to_pfn original_pfn)) in
  fh_action fh
  = (if negb (get_replica_opt (mem e) (pfn_to_page (pfn_t_to_pfn original_pfn))
              =? NULL)
     then FH_ACTION_INVALID else FH_ACTION_MAP_VPN_TO_PFN)
  /\ has_action FH_ACTION_ISSUE_SYNC_TRANSACTION fh = false
  /\ exists ret pfn_out e',
       page_coherence_fault w original_pfn false filename e
       = Returned ret pfn_out e'
       /\ broadcasts (events e') = broadcasts (events e).
Proof.
  intros Hin Hnone Hok HM HS.
  assert (Hact0 :
    fh_action (refresh_handle false false (mem e)
                 (blank_fh (pfn_t_to_pfn original_pfn)))
    = (if negb (get_replica_opt (mem e) (pfn_to_page (pfn_t_to_pfn original_pfn))
                =? NULL)
       then FH_ACTION_INVALID else FH_ACTION_MAP_VPN_TO_PFN)).
  { rewrite refresh_handle_action. cbn [original_page blank_fh].
    rewrite HM, HS. by destruct (negb _). }
  cbv zeta. split; [exact Hact0|]. split.
  { unfold has_action. rewrite Hact0. by destruct (negb _). }
  unfold page_coherence_fault.
  rewrite Hin. cbn [negb].
  rewrite start_local_fresh by done.
  set (pfn := pfn_t_to_pfn original_pfn) in *.
  change (mem (count_fault false e)) with (mem e).
  set (fh := refresh_handle false false (mem e) (blank_fh pfn)).
  destruct (refresh_handle_spec false false (mem e) (blank_fh pfn))
    as (B0 & B1 & B2 & B3 & B4 & B5 & _ & Hkey & _).
  fold fh in B0, B1, B2, B3, B4, B5, Hkey.
  cbn [original_page blank_fh] in B0, B1, B3. rewrite HS in B0. rewrite HM in B1.
  cbn [original_pfn_val blank_fh] in Hkey.
  destruct (flags_as_bits fh) as (FS & FM & FW & FR & _ & FT).
  rewrite B0 in FS. rewrite B1 in FM. rewrite B2 in FW. rewrite B3 in FR.
  rewrite B5 in FT.
  set (e1 := set_page_coherence pfn (with_handle pfn fh (count_fault false e))).
  assert (Hfh : forall e2, faults e2 = faults e1 -> fh_of e2 pfn = fh).
  { intros e2 He2. rewrite (fh_of_faults e2 (with_handle pfn fh (count_fault false e))) by done.
    apply fh_of_handle_for. by apply handle_for_head. }
  assert (Hact : fh_action fh = if negb (get_replica_opt (mem e) (pfn_to_page pfn) =? NULL) then FH_ACTION_INVALID else FH_ACTION_MAP_VPN_TO_PFN).
  { unfold fh. rewrite refresh_handle_action. cbn [original_page blank_fh].
    rewrite HM, HS. by destruct (negb _). }
  unfold serve_local_fault. fold pfn. rewrite (Hfh e1) by done.
  destruct (negb (get_replica_opt (mem e) (pfn_to_page pfn) =? NULL)) eqn:HR.
  - rewrite Hact. cbn [Z.eqb FH_ACTION_INVALID]. by eexists _, _, _.
  - assert (Hno : forall a, Z.land FH_ACTION_MAP_VPN_TO_PFN a = 0 -> has_action a fh = false).
    { intros a Ha. unfold has_action. by rewrite Hact, Ha. }
    rewrite Hact. cbn [Z.eqb FH_ACTION_MAP_VPN_TO_PFN FH_ACTION_INVALID].
    rewrite (Hno FH_ACTION_WAIT_FOR_ASYNC_TRANSACTION) by reflexivity.
    rewrite (Hfh e1) by done.
    rewrite (Hno FH_ACTION_ISSUE_SYNC_TRANSACTION) by reflexivity.
    rewrite (Hno FH_ACTION_ISSUE_ASYNC_TRANSACTION) by reflexivity.
    cbn [orb].
    assert (Hfin : forall e2, faults e2 = faults e1 -> events e2 = events e ->
       exists ret pfn_out e',
         finish_local_fault original_pfn e2 = Returned ret pfn_out e'
         /\ broadcasts (events e') = broadcasts (events e)).
    { intros e2 Hf He. rewrite (finish_local_fault_plain _ _ fh); try done.
      - eexists _, _, _. split; [reflexivity|]. cbn. by rewrite He.
      - by apply Hfh.
      - by apply Hno. }
    destruct (WAIT_STATION_THRESHOLD <? _).
    + rewrite issue_transaction_idle
        by (rewrite (Hfh e1) by done; rewrite ?FW, ?FS, ?FM, ?FR; reflexivity).
      match goal with
      | |- context [if negb (?x =? 0) then _ else _] => destruct (negb (x =? 0))
      end.
      * eexists _, _, _. split; reflexivity.
      * by apply Hfin.
    + by apply Hfin.
Qed.

(** *** A NACK at the wait station *)

Lemma broadcast_and_wait_nacked w ty pfn order e :
  wait_result w = -1 ->
  fst (broadcast_message_and_wait w ty pfn order e) = - EAGAIN.
Proof. intros H. unfold broadcast_message_and_wait. by rewrite H. Qed.

Lemma issue_transaction_nacked w pfn e :
  wait_result w = -1 ->
  wants_GetS (fh_of e pfn) || wants_GetM (fh_of e pfn) = true ->
  fst (issue_page_coherence_transaction w pfn e) = - EAGAIN.
Proof.
  intros Hn Hwant. unfold issue_page_coherence_transaction.
  unfold wants_GetS, wants_GetM in Hwant.
  destruct (negb (is_NEEDWRITE (fh_of e pfn)) && negb (is_SHARED (fh_of e pfn))
            && negb (is_MODIFIED (fh_of e pfn))) eqn:HS.
  - pose proof (broadcast_and_wait_nacked w SWMC_KMSG_TYPE_FETCH
      (pfn_to_pfn_t (original_pfn_val (fh_of e pfn))) 0 e Hn) as H1.
    destruct (broadcast_message_and_wait w SWMC_KMSG_TYPE_FETCH _ _ _) as [r1 e2].
    cbn [fst] in H1. subst r1.
    destruct (is_NEEDWRITE (fh_of e2 pfn) && negb (is_MODIFIED (fh_of e2 pfn))).
    + pose proof (broadcast_and_wait_nacked w SWMC_KMSG_TYPE_INVALIDATE
        (pfn_to_pfn_t (original_pfn_val (fh_of e2 pfn))) 0 e2 Hn) as H2.
      destruct (broadcast_message_and_wait w SWMC_KMSG_TYPE_INVALIDATE _ _ _)
        as [r2 e3].
      cbn [fst] in H2. subst r2. reflexivity.
    + reflexivity.
  - cbn [orb] in Hwant. rewrite Hwant.
    pose proof (broadcast_and_wait_nacked w SWMC_KMSG_TYPE_INVALIDATE
      (pfn_to_pfn_t (original_pfn_val (fh_of e pfn))) 0 e Hn) as H2.
    destruct (broadcast_message_and_wait w SWMC_KMSG_TYPE_INVALIDATE _ _ _)
      as [r2 e3].
    cbn [fst] in H2. subst r2. reflexivity.
Qed.

(** C4, as stated, fails: a write fault on the untouched frame 5
    broadcasts INVALIDATE, is NACKed, and returns -11, not
    [VM_FAULT_RETRY]. *)
Lemma nacked_write_fault_returns_errno :
  exists e',
    page_coherence_fault nacking_world 5 true "data" idle_engine
    = Returned (-11) 5 e'
    /\ events e'
       = [Broadcast SWMC_KMSG_TYPE_INVALIDATE 7 (mk_payload 20480 0 0);
          Wait_at_station 7]
    /\ -11 <> VM_FAULT_RETRY.
Proof. eexists. repeat split. discriminate. Qed.

(** *** A waiter woken with NEEDWRITE set *)

(** Whenever the sleeper wakes up and finds NEEDWRITE on the handle,
    [__start_local_fault_handling] frees the handle and returns [NULL],
    which [page_coherence_fault] dereferences. *)
Lemma woken_with_needwrite w original_pfn write filename e fh e1 :
  fault_is_handled original_pfn filename e = true ->
  handle_for e (pfn_t_to_pfn original_pfn) = Some fh ->
  while_asleep w (fh_upd (pfn_t_to_pfn original_pfn) (with_complete true)
                    (count_fault write e)) = Some e1 ->
  is_NEEDWRITE (fh_of e1 (pfn_t_to_pfn original_pfn)) = true ->
  page_coherence_fault w original_pfn write filename e
  = Null_dereference (fh_del (pfn_t_to_pfn original_pfn) e1).
Proof.
  intros Hin Hfh Hwake Hw. unfold page_coherence_fault.
  rewrite Hin. cbn [negb]. unfold __start_local_fault_handling.
  change (find_fh (pfn_t_to_pfn original_pfn)
            (bucket (count_fault write e)
               (__fault_hash_key (pfn_t_to_pfn original_pfn))))
    with (handle_for e (pfn_t_to_pfn original_pfn)).
  rewrite Hfh, Hwake, Hw. reflexivity.
Qed.

(** C5 fails on the code: a local fault on frame 2 attaches to the handle
    of the remote INVALIDATE, sleeps, is completed by the owner, finds
    NEEDWRITE set, and gets [NULL] from [__start_local_fault_handling];
    [page_coherence_fault] then runs [SetPageCoherence(fh->original_page)]
    on the [NULL] handle.  It does not return [VM_FAULT_RETRY]. *)
Theorem woken_waiter_does_not_retry :
  handle_for serving_engine 2 = Some remote_write_handle
  /\ is_NEEDWRITE remote_write_handle = true
  /\ (exists e',
        page_coherence_fault owner_finishes 2 false "data" serving_engine
        = Null_dereference e'
        /\ events e' = [Complete 2]
        /\ handle_for e' 2 = None)
  /\ (forall pfn_out e',
        page_coherence_fault owner_finishes 2 false "data" serving_engine
        <> Returned VM_FAULT_RETRY pfn_out e').
Proof.
  split; [reflexivity|]. split; [reflexivity|].
  assert (Hrun :
    page_coherence_fault owner_finishes 2 false "data" serving_engine
    = Null_dereference
        (fh_del 2 (snd (__finish_remote_fault_handling 2
                          (fh_upd 2 (with_complete true)
                             (count_fault false serving_engine)))))).
  { apply (woken_with_needwrite owner_finishes 2 false "data" serving_engine
             remote_write_handle); reflexivity. }
  split.
  - eexists. split; [exact Hrun|]. split; reflexivity.
  - intros pfn_out e'. rewrite Hrun. discriminate.
Qed.

(** *** Instances *)

Lemma remote_write_against_local_write_witness :
  remote_write_loses writing_engine tie_invalidate = true
  /\ let e' := snd (swmc_kmsg_handle_fetch_or_invalidate calm_world
                      (Some tie_invalidate) writing_engine) in
     replies (events e')
     = replies (events writing_engine)
       ++ [reply_to tie_invalidate
             (if remote_write_loses writing_engine tie_invalidate
              then SWMC_KMSG_TYPE_INVALIDATE_NACK
              else SWMC_KMSG_TYPE_INVALIDATE_ACK)]
     /\ (remote_write_loses writing_engine tie_invalidate = true ->
          handle_for e' (message_pfn writing_engine tie_invalidate)
          = Some writer_handle)
     /\ (remote_write_loses writing_engine tie_invalidate = false ->
          is_RETRY (fh_of e' (message_pfn writing_engine tie_invalidate))
          = true).
Proof.
  split; [reflexivity|].
  apply (remote_write_against_local_write calm_world tie_invalidate
           writing_engine writer_handle); reflexivity.
Defined.

Lemma stale_read_issues_no_transaction_witness :
  PG_modified (page_at (mem stale_engine) (pfn_to_page (pfn_t_to_pfn 5))) = true
  /\ PG_shared (page_at (mem stale_engine) (pfn_to_page (pfn_t_to_pfn 5))) = true
  /\ exists ret pfn_out e',
       page_coherence_fault calm_world 5 false "data" stale_engine
       = Returned ret pfn_out e'
       /\ broadcasts (events e') = broadcasts (events stale_engine).
Proof.
  split; [reflexivity|]. split; [reflexivity|].
  apply (stale_read_issues_no_transaction calm_world 5 "data" stale_engine);
    reflexivity.
Defined.


End CoherenceFacts.

(** ** Sending and receiving *)

Module TransportFacts.
Import Kmsg Ring Transport Scenarios Cases.

Lemma mod_ring_wrap x : wrap64 x mod CXL_KMSG_RBUF_SIZE = x mod CXL_KMSG_RBUF_SIZE.
Proof.
  unfold wrap64, CXL_KMSG_RBUF_SIZE.
  rewrite (Z.mod_eq x (2 ^ 64)) by lia.
  replace (x - 2 ^ 64 * (x / 2 ^ 64))
    with (x + (- (2 ^ 48) * (x / 2 ^ 64)) * 65536) by lia.
  apply Z_mod_plus_full.
Qed.

Lemma wrap64_small x : 0 <= x < 2 ^ 64 -> wrap64 x = x.
Proof. intros H. unfold wrap64. apply Z.mod_small. exact H. Qed.

Lemma wrap64_range x : 0 <= wrap64 x < 2 ^ 64.
Proof. unfold wrap64. apply Z.mod_pos_bound. lia. Qed.

Lemma inuse_after_put win :
  win_inuse win < 2 ^ 64 - 1 ->
  wrap64 (wrap64 (head win + 1) - tail win) = win_inuse win + 1.
Proof.
  unfold win_inuse, wrap64. intros H.
  rewrite Zminus_mod_idemp_l.
  replace (head win + 1 - tail win) with ((head win - tail win) + 1) by lia.
  rewrite <- Zplus_mod_idemp_l. apply Z.mod_small.
  pose proof (Z.mod_pos_bound (head win - tail win) (2 ^ 64) ltac:(lia)). lia.
Qed.

Lemma inuse_after_get win :
  win_inuse win <> 0 ->
  wrap64 (head win - wrap64 (tail win + 1)) = win_inuse win - 1.
Proof.
  unfold win_inuse, wrap64. intros H.
  rewrite Zminus_mod_idemp_r.
  replace (head win - (tail win + 1)) with ((head win - tail win) - 1) by lia.
  rewrite <- Zminus_mod_idemp_l. apply Z.mod_small.
  pose proof (Z.mod_pos_bound (head win - tail win) (2 ^ 64) ltac:(lia)). lia.
Qed.

(** [head] designates the slot [tail + inuse]. *)
Lemma head_slot win :
  head win mod CXL_KMSG_RBUF_SIZE
  = (tail win + win_inuse win) mod CXL_KMSG_RBUF_SIZE.
Proof.
  unfold win_inuse, wrap64, CXL_KMSG_RBUF_SIZE.
  rewrite (Z.mod_eq (head win - tail win) (2 ^ 64)) by lia.
  replace (tail win
           + (head win - tail win
              - 2 ^ 64 * ((head win - tail win) / 2 ^ 64)))
    with (head win + (- (2 ^ 48) * ((head win - tail win) / 2 ^ 64)) * 65536)
    by lia.
  symmetry. apply Z_mod_plus_full.
Qed.

Lemma slots_differ a j k :
  0 <= j < k -> k < CXL_KMSG_RBUF_SIZE ->
  Z.to_nat ((a + j) mod CXL_KMSG_RBUF_SIZE)
  <> Z.to_nat ((a + k) mod CXL_KMSG_RBUF_SIZE).
Proof.
  unfold CXL_KMSG_RBUF_SIZE. intros Hj Hk Heq.
  pose proof (Z.mod_pos_bound (a + j) 65536 ltac:(lia)).
  pose proof (Z.mod_pos_bound (a + k) 65536 ltac:(lia)).
  apply Z2Nat.inj in Heq; try lia.
  pose proof (Z.div_mod (a + j) 65536 ltac:(lia)).
  pose proof (Z.div_mod (a + k) 65536 ltac:(lia)).
  lia.
Qed.

Lemma slot_in_range win k :
  length (buffer win) = Z.to_nat CXL_KMSG_RBUF_SIZE ->
  (Z.to_nat (k mod CXL_KMSG_RBUF_SIZE) < length (buffer win))%nat.
Proof.
  intros ->. unfold CXL_KMSG_RBUF_SIZE.
  pose proof (Z.mod_pos_bound k 65536 ltac:(lia)). lia.
Qed.

Lemma seqZ_one m : seqZ m 1 = [m].
Proof. rewrite seqZ_cons by lia. by rewrite seqZ_nil by lia. Qed.

Lemma win_inuse_range win : 0 <= win_inuse win < 2 ^ 64.
Proof. apply wrap64_range. Qed.

(** What a successful [win_put] leaves: the window with the message in
    the slot of [head] and [head] one further. *)
Lemma win_put_step g win m win' g' :
  win_put g win (Some m) = (0, win', g') ->
  win_inuse win < CXL_KMSG_RBUF_SIZE - 1
  /\ win' = {| head := wrap64 (head win + 1); tail := tail win;
              int_enabled := int_enabled win;
              buffer := <[Z.to_nat (head win mod CXL_KMSG_RBUF_SIZE) := m]>
                          (buffer win) |}.
Proof.
  intros Hput. unfold win_put in Hput.
  cbv zeta in Hput. set (ret := __validate_kmsg (Some m)) in Hput.
  destruct (negb (ret =? 0)) eqn:Hv.
  { injection Hput as Hret _ _. rewrite Hret in Hv. discriminate Hv. }
  destruct (CXL_KMSG_RBUF_SIZE - 1 <=? win_inuse win) eqn:Hfull.
  { injection Hput as Hret _ _. cbv in Hret. discriminate Hret. }
  apply Z.leb_gt in Hfull. by injection Hput as <- <-.
Qed.

Lemma pending_after_put win m :
  ring_ok win ->
  win_inuse win < CXL_KMSG_RBUF_SIZE - 1 ->
  pending {| head := wrap64 (head win + 1); tail := tail win;
             int_enabled := int_enabled win;
             buffer := <[Z.to_nat (head win mod CXL_KMSG_RBUF_SIZE) := m]>
                         (buffer win) |}
  = pending win ++ [Some m].
Proof.
  intros (Hh & Ht & Hcap & Hlen) Hfull.
  pose proof (win_inuse_range win) as Hr.
  unfold pending. unfold win_inuse at 1. cbn [head tail].
  rewrite inuse_after_put by (unfold CXL_KMSG_RBUF_SIZE in Hfull; lia).
  rewrite seqZ_app by lia. rewrite fmap_app. f_equal.
  - apply list_fmap_ext. intros i k Hk. apply list_elem_of_lookup_2 in Hk.
    apply elem_of_seqZ in Hk. unfold slot. cbn [buffer].
    rewrite list_lookup_insert_ne; [reflexivity|].
    rewrite head_slot. intros Heq.
    apply (slots_differ (tail win) k (win_inuse win)); [lia|lia|].
    by symmetry.
  - rewrite Z.add_0_l, seqZ_one. cbn [fmap list_fmap]. unfold slot.
    cbn [buffer].
    rewrite <- head_slot. f_equal.
    apply list_lookup_insert_eq. by apply slot_in_range.
Qed.

(** X1.  A successful [win_put] appends the message to what the window holds
    and keeps the window well formed; [tail] is not touched. *)
Theorem win_put_appends g win m win' g' :
  ring_ok win ->
  win_put g win (Some m) = (0, win', g') ->
  pending win' = pending win ++ [Some m]
  /\ ring_ok win'
  /\ tail win' = tail win
  /\ win_inuse win' = win_inuse win + 1.
Proof.
  intros Hok Hput. destruct (win_put_step _ _ _ _ _ Hput) as [Hfull ->].
  pose proof Hok as (Hh & Ht & Hcap & Hlen).
  assert (Hin : wrap64 (wrap64 (head win + 1) - tail win) = win_inuse win + 1).
  { apply inuse_after_put. unfold CXL_KMSG_RBUF_SIZE in Hfull. lia. }
  pose proof (win_inuse_range win) as Hr.
  split; [by apply pending_after_put|].
  split; [|split; [reflexivity|exact Hin]].
  unfold ring_ok, win_inuse. cbn [head tail buffer].
  rewrite Hin, length_insert.
  pose proof (wrap64_range (head win + 1)).
  unfold CXL_KMSG_RBUF_SIZE in *. repeat split; lia.
Qed.

Lemma win_put_appends_witness :
  pending one_message_window = pending fresh_window ++ [Some fetch_message]
  /\ ring_ok one_message_window
  /\ tail one_message_window = tail fresh_window
  /\ win_inuse one_message_window = win_inuse fresh_window + 1.
Proof.
  apply (win_put_appends no_counters fresh_window fetch_message
           one_message_window
           (win_put no_counters fresh_window (Some fetch_message)).2).
  - repeat split; vm_compute; first [reflexivity | discriminate].
  - reflexivity.
Defined.

(** What [win_get] does on a window that holds a message. *)
Lemma win_get_step g win :
  ring_ok win ->
  win_inuse win <> 0 ->
  let win' := {| head := head win; tail := wrap64 (tail win + 1);
                 int_enabled := int_enabled win; buffer := buffer win |} in
  exists m,
    win_get g win
    = (0, Some m, win',
       {| insurance_recv := wrap64 (tail win + 1);
          insurance_send := insurance_send g |})
    /\ pending win = Some m :: pending win'
    /\ ring_ok win'.
Proof.
  intros (Hh & Ht & Hcap & Hlen) Hne win'. unfold win_get.
  destruct (win_inuse win =? 0) eqn:E; [apply Z.eqb_eq in E; done|].
  destruct (lookup_lt_is_Some_2 (buffer win)
              (Z.to_nat (tail win mod CXL_KMSG_RBUF_SIZE))
              (slot_in_range win (tail win) Hlen)) as [m Hm].
  rewrite Hm.
  assert (Hin : win_inuse win' = win_inuse win - 1).
  { unfold win_inuse at 1. cbn [head tail win']. by apply inuse_after_get. }
  pose proof (win_inuse_range win) as Hr.
  exists m. split; [reflexivity|]. split.
  - unfold pending. rewrite Hin.
    replace (win_inuse win) with (1 + (win_inuse win - 1)) at 1 by lia.
    rewrite seqZ_app by lia. rewrite fmap_app, seqZ_one.
    cbn [fmap list_fmap app]. f_equal.
    + unfold slot. rewrite Z.add_0_r. exact Hm.
    + change (0 + 1) with (1 + 0).
      rewrite <- (fmap_add_seqZ 1 0), <- list_fmap_compose.
      apply list_fmap_ext. intros i k _. unfold slot, compose.
      cbn [buffer tail win'].
      do 2 f_equal.
      rewrite <- (mod_ring_wrap (wrap64 (tail win + 1) + k)).
      unfold wrap64 at 1 2. rewrite Zplus_mod_idemp_l.
      fold (wrap64 (tail win + 1 + k)). rewrite mod_ring_wrap.
      f_equal. lia.
  - unfold ring_ok. rewrite Hin. cbn [head tail buffer win'].
    pose proof (wrap64_range (tail win + 1)).
    unfold CXL_KMSG_RBUF_SIZE in *. repeat split; lia.
Qed.

(** X2.  [win_get] on an empty window returns -1 and changes nothing; on any
    other window it returns 0 with the oldest message, which leaves the
    window, and touches neither [head] nor the slots. *)
Theorem win_get_pops g win :
  ring_ok win ->
  (win_inuse win = 0 -> win_get g win = (-1, None, win, g))
  /\ (win_inuse win <> 0 ->
      exists m win' g',
        win_get g win = (0, Some m, win', g')
        /\ pending win = Some m :: pending win'
        /\ ring_ok win'
        /\ head win' = head win /\ buffer win' = buffer win
        /\ win_inuse win' = win_inuse win - 1).
Proof.
  intros Hok. split.
  - intros H0. unfold win_get. by rewrite H0.
  - intros Hne. destruct (win_get_step g win Hok Hne) as (m & Hget & Hp & Hok').
    eexists m, _, _. split; [exact Hget|].
    split; [exact Hp|]. split; [exact Hok'|].
    split; [reflexivity|]. split; [reflexivity|].
    unfold win_inuse at 1. cbn [head tail]. by apply inuse_after_get.
Qed.

Lemma win_put_failure g win msg ret win' g' :
  win_put g win msg = (ret, win', g') -> ret <> 0 -> win' = win /\ g' = g.
Proof.
  unfold win_put. cbv zeta.
  destruct (negb (__validate_kmsg msg =? 0)); [by intros [= <- <- <-]|].
  destruct (CXL_KMSG_RBUF_SIZE - 1 <=? win_inuse win);
    [by intros [= <- <- <-]|].
  destruct msg; [|by intros [= <- <- <-]].
  intros [= <- <- <-] H. done.
Qed.

Lemma win_get_pops_witness :
  (win_inuse one_message_window = 0 ->
   win_get no_counters one_message_window
   = (-1, None, one_message_window, no_counters))
  /\ (win_inuse one_message_window <> 0 ->
      exists m win' g',
        win_get no_counters one_message_window = (0, Some m, win', g')
        /\ pending one_message_window = Some m :: pending win'
        /\ ring_ok win'
        /\ head win' = head one_message_window
        /\ buffer win' = buffer one_message_window
        /\ win_inuse win' = win_inuse one_message_window - 1).
Proof.
  apply (win_get_pops no_counters one_message_window).
  repeat split; vm_compute; first [reflexivity | discriminate].
Defined.

(** X3.  A [cxl_kmsg_unicast] that fails, for whatever reason, leaves the
    handler, every window and the counters as they were. *)
Theorem unicast_failure_keeps_state kmalloc_ok ty ws dest_nid payload s ret s' :
  cxl_kmsg_unicast kmalloc_ok ty ws dest_nid payload s = (ret, s') ->
  ret <> 0 -> s' = s.
Proof.
  unfold cxl_kmsg_unicast. intros Hrun Hret.
  destruct (cxl_kmsg_handler s) as [ckh|] eqn:Hh; [|by injection Hrun as _ <-].
  destruct ((dest_nid <? 0) || (MAX_NODES <=? dest_nid)
            || (dest_nid =? node_id s)); [by injection Hrun as _ <-|].
  destruct (win_tx ckh !! dest_nid) as [win|] eqn:Hwin;
    [|by injection Hrun as _ <-].
  destruct (negb kmalloc_ok); [by injection Hrun as _ <-|].
  destruct (__build_kmsg (node_id s) ty ws dest_nid payload) as [r message].
  destruct (negb (r =? 0)); [by injection Hrun as _ <-|].
  destruct (win_put (globals s) win (Some message)) as [[r' win'] g'] eqn:Hput.
  injection Hrun as -> <-.
  destruct (win_put_failure _ _ _ _ _ _ Hput Hret) as [-> ->].
  rewrite insert_id by done.
  destruct s as [n h g]. cbn in *. subst h. by destruct ckh.
Qed.

Lemma unicast_failure_keeps_state_witness :
  (cxl_kmsg_unicast true SWMC_KMSG_TYPE_FETCH 5 1 None crowded_node).1
  = - EAGAIN
  /\ (cxl_kmsg_unicast true SWMC_KMSG_TYPE_FETCH 5 1 None crowded_node).2
     = crowded_node.
Proof.
  split; [reflexivity|].
  apply (unicast_failure_keeps_state true SWMC_KMSG_TYPE_FETCH 5 1 None
           crowded_node (- EAGAIN)).
  - reflexivity.
  - discriminate.
Defined.

(** X4.  A [cxl_kmsg_unicast] that returns 0 was addressed to another node
    within range, and has put exactly one message at the end of the TX
    window of that node: the message carries the type, the wait station,
    this node as sender, the destination, and the payload (zeroes for a
    [NULL] payload).  No other window is touched. *)
Theorem unicast_sends kmalloc_ok ty ws dest_nid payload s s' :
  cxl_kmsg_unicast kmalloc_ok ty ws dest_nid payload s = (0, s') ->
  0 <= dest_nid < MAX_NODES /\ dest_nid <> node_id s
  /\ node_id s' = node_id s
  /\ exists ckh win win',
       cxl_kmsg_handler s = Some ckh
       /\ win_tx ckh !! dest_nid = Some win
       /\ cxl_kmsg_handler s'
          = Some (with_win_tx (<[dest_nid := win']> (win_tx ckh)) ckh)
       /\ (ring_ok win ->
           pending win'
           = pending win
             ++ [Some (mk_msg (mk_hdr ty ws (node_id s) dest_nid)
                         (default (mk_payload 0 0 0) payload))]).
Proof.
  unfold cxl_kmsg_unicast. intros Hrun.
  destruct (cxl_kmsg_handler s) as [ckh|] eqn:Hh;
    [|injection Hrun as Hr _; cbv in Hr; discriminate Hr].
  destruct ((dest_nid <? 0) || (MAX_NODES <=? dest_nid)
            || (dest_nid =? node_id s)) eqn:Hdest;
    [injection Hrun as Hr _; cbv in Hr; discriminate Hr|].
  apply orb_false_iff in Hdest as [Hdest Hself].
  apply orb_false_iff in Hdest as [Hlo Hhi].
  apply Z.ltb_ge in Hlo. apply Z.leb_gt in Hhi. apply Z.eqb_neq in Hself.
  destruct (win_tx ckh !! dest_nid) as [win|] eqn:Hwin;
    [|injection Hrun as Hr _; cbv in Hr; discriminate Hr].
  destruct (negb kmalloc_ok);
    [injection Hrun as Hr _; cbv in Hr; discriminate Hr|].
  unfold __build_kmsg in Hrun. cbv zeta in Hrun.
  destruct (negb (__validate_kmsg _ =? 0)) eqn:Hv;
    [injection Hrun as Hr _; cbv in Hr; discriminate Hr|].
  cbn [negb Z.eqb] in Hrun. cbv iota in Hrun.
  destruct (win_put (globals s) win _) as [[r' win'] g'] eqn:Hput.
  injection Hrun as -> <-.
  split; [lia|]. split; [done|]. split; [reflexivity|].
  exists ckh, win, win'. repeat split; try done.
  intros Hok. destruct (win_put_step _ _ _ _ _ Hput) as [Hfull ->].
  by apply pending_after_put.
Qed.

Lemma unicast_sends_witness :
  0 <= 1 < MAX_NODES /\ 1 <> node_id node_0
  /\ node_id (cxl_kmsg_unicast true SWMC_KMSG_TYPE_FETCH 5 1
                (Some frame_2_payload) node_0).2
     = node_id node_0
  /\ exists ckh win win',
       cxl_kmsg_handler node_0 = Some ckh
       /\ win_tx ckh !! 1 = Some win
       /\ cxl_kmsg_handler
            (cxl_kmsg_unicast true SWMC_KMSG_TYPE_FETCH 5 1
               (Some frame_2_payload) node_0).2
          = Some (with_win_tx (<[1 := win']> (win_tx ckh)) ckh)
       /\ (ring_ok win ->
           pending win'
           = pending win
             ++ [Some (mk_msg (mk_hdr SWMC_KMSG_TYPE_FETCH 5 (node_id node_0) 1)
                         (default (mk_payload 0 0 0) (Some frame_2_payload)))]).
Proof.
  apply (unicast_sends true SWMC_KMSG_TYPE_FETCH 5 1 (Some frame_2_payload)
           node_0).
  reflexivity.
Defined.

Lemma unicast_keeps_node_id kmalloc_ok ty ws dest_nid payload s :
  node_id (cxl_kmsg_unicast kmalloc_ok ty ws dest_nid payload s).2 = node_id s.
Proof.
  unfold cxl_kmsg_unicast. repeat case_match; try done.
Qed.

(** X5.  With two nodes, a broadcast from node 0 or node 1 is one unicast, to
    the other node. *)
Theorem broadcast_is_unicast_to_peer kmalloc_ok ty ws payload s :
  0 <= node_id s < MAX_NODES ->
  cxl_kmsg_broadcast kmalloc_ok ty ws payload s
  = cxl_kmsg_unicast (kmalloc_ok (1 - node_id s)) ty ws (1 - node_id s)
      payload s.
Proof.
  unfold MAX_NODES. intros Hn. unfold cxl_kmsg_broadcast.
  assert (Hcases : node_id s = 0 \/ node_id s = 1) by lia.
  change (seqZ 0 MAX_NODES) with [0; 1].
  destruct Hcases as [H0|H1]; cbn [broadcast_to].
  - rewrite H0. cbn [Z.eqb Z.sub Z.opp Z.add].
    change (1 - 0) with 1.
    destruct (cxl_kmsg_unicast (kmalloc_ok 1) ty ws 1 payload s)
      as [ret s1] eqn:Hu.
    destruct (Z.eqb_spec ret 0) as [->|Hne]; cbn [negb]; [|reflexivity].
    reflexivity.
  - rewrite H1. change (1 - 1) with 0. change (0 =? 1) with false.
    cbv iota.
    destruct (cxl_kmsg_unicast (kmalloc_ok 0) ty ws 0 payload s)
      as [ret s1] eqn:Hu.
    destruct (Z.eqb_spec ret 0) as [->|Hne]; cbn [negb]; [|reflexivity].
    pose proof (unicast_keeps_node_id (kmalloc_ok 0) ty ws 0 payload s) as Hid.
    rewrite Hu in Hid. cbn [snd] in Hid. rewrite Hid, H1. reflexivity.
Qed.

Lemma broadcast_is_unicast_to_peer_witness :
  cxl_kmsg_broadcast (fun _ => true) SWMC_KMSG_TYPE_INVALIDATE 5
    (Some frame_2_payload) node_0
  = cxl_kmsg_unicast true SWMC_KMSG_TYPE_INVALIDATE 5 1
      (Some frame_2_payload) node_0.
Proof.
  apply (broadcast_is_unicast_to_peer (fun _ => true) SWMC_KMSG_TYPE_INVALIDATE
           5 (Some frame_2_payload) node_0).
  split; vm_compute; first [reflexivity | discriminate].
Defined.

(** One turn of the [for] loop, with two nodes: the window of the peer
    is polled once. *)
Lemma receive_pass_polls_peer processed ckh g :
  0 <= nid ckh < MAX_NODES ->
  foldl receive_from (false, processed, ckh, g) (seqZ 0 MAX_NODES)
  = receive_from (false, processed, ckh, g) (1 - nid ckh)
  /\ nid (receive_from (false, processed, ckh, g) (1 - nid ckh)).1.2 = nid ckh.
Proof.
  unfold MAX_NODES. intros Hn.
  assert (Hkeep : forall st i, nid (receive_from st i).1.2 = nid st.1.2).
  { intros [[[f p] c] g0] i. unfold receive_from. cbn [fst snd].
    repeat case_match; done. }
  split; [|apply Hkeep].
  change (seqZ 0 2) with [0; 1]. cbn [foldl].
  assert (Hcases : nid ckh = 0 \/ nid ckh = 1) by lia.
  destruct Hcases as [H0|H1].
  - rewrite H0. change (1 - 0) with 1.
    unfold receive_from at 2. rewrite H0. reflexivity.
  - rewrite H1. change (1 - 1) with 0.
    pose proof (Hkeep (false, processed, ckh, g) 0) as Hk. cbn [fst snd] in Hk.
    destruct (receive_from (false, processed, ckh, g) 0) as [[[f p] c] g0].
    cbn [fst snd] in Hk. unfold receive_from. rewrite Hk, H1. reflexivity.
Qed.

Lemma receive_from_empty processed ckh g peer win :
  peer <> nid ckh ->
  win_rx ckh !! peer = Some win ->
  win_inuse win = 0 ->
  receive_from (false, processed, ckh, g) peer = (false, processed, ckh, g).
Proof.
  intros Hp Hwin H0. unfold receive_from.
  destruct (Z.eqb_spec peer (nid ckh)) as [?|_]; [done|].
  rewrite Hwin. unfold win_get. rewrite H0. cbn [Z.eqb negb].
  rewrite insert_id by done. by destruct ckh.
Qed.

Lemma receive_from_message processed ckh g peer win :
  peer <> nid ckh ->
  win_rx ckh !! peer = Some win ->
  ring_ok win ->
  win_inuse win <> 0 ->
  exists m win' g',
    pending win = Some m :: pending win'
    /\ ring_ok win'
    /\ receive_from (false, processed, ckh, g) peer
       = (type_in_range m,
          if type_in_range m then processed ++ [m] else processed,
          with_win_rx (<[peer := win']> (win_rx ckh)) ckh, g').
Proof.
  intros Hp Hwin Hok Hne.
  destruct (win_get_step g win Hok Hne) as (m & Hget & Hpend & Hok').
  eexists m, _, _. split; [exact Hpend|]. split; [exact Hok'|].
  unfold receive_from.
  destruct (Z.eqb_spec peer (nid ckh)) as [?|_]; [done|].
  rewrite Hwin, Hget. cbn [Z.eqb negb]. unfold type_in_range.
  by destruct ((type (header m) <? 0)
               || (SWMC_KMSG_TYPE_MAX <=? type (header m))).
Qed.

Lemma pending_nil_inuse win : pending win = [] -> win_inuse win = 0.
Proof.
  unfold pending. intros H. apply fmap_nil_inv in H.
  pose proof (win_inuse_range win) as Hr.
  destruct (Z.eq_dec (win_inuse win) 0) as [?|Hne]; [done|].
  rewrite seqZ_cons in H by lia. done.
Qed.

Lemma pending_cons_inuse win x l : pending win = x :: l -> win_inuse win <> 0.
Proof.
  unfold pending. intros H E. rewrite E in H. done.
Qed.

(** X6.  [cxl_kmsg_receive] on a node with one peer hands the messages of the
    peer's window to [swmc_kmsg_process_message] in the order they were
    put, up to the first message whose type is out of range.  That
    message is taken out of the window and dropped, the call returns 0,
    and the messages behind it stay in the window for a later call. *)
Theorem receive_stops_at_bad_type good : forall rest fuel processed ckh g win,
  0 <= nid ckh < MAX_NODES ->
  win_rx ckh !! (1 - nid ckh) = Some win ->
  ring_ok win ->
  pending win = (Some <$> good) ++ rest ->
  Forall (fun m => type_in_range m = true) good ->
  (forall bad, rest !! 0%nat = Some (Some bad) -> type_in_range bad = false) ->
  (length good < fuel)%nat ->
  exists ckh' g' win',
    cxl_kmsg_receive fuel processed ckh g
    = Some (0, processed ++ good, ckh', g')
    /\ nid ckh' = nid ckh
    /\ win_tx ckh' = win_tx ckh
    /\ win_rx ckh' !! (1 - nid ckh) = Some win'
    /\ ring_ok win'
    /\ pending win' = drop 1 rest.
Proof.
  induction good as [|m good IH];
    intros rest fuel processed ckh g win Hn Hwin Hok Hpend Hgood Hbad Hfuel.
  - destruct fuel as [|fuel]; [cbn in Hfuel; lia|].
    cbn [cxl_kmsg_receive]. cbn [fmap list_fmap app] in Hpend.
    destruct (receive_pass_polls_peer processed ckh g Hn) as [-> _].
    assert (Hp : 1 - nid ckh <> nid ckh) by lia.
    destruct rest as [|x rest].
    + rewrite (receive_from_empty _ _ _ _ win) by
        (try done; by apply pending_nil_inuse).
      exists ckh, g, win. rewrite app_nil_r. by rewrite Hpend.
    + destruct (receive_from_message processed ckh g _ win Hp Hwin Hok)
        as (b & win' & g' & Hb & Hok' & ->).
      { by eapply pending_cons_inuse. }
      rewrite Hpend in Hb. injection Hb as -> Hrest.
      rewrite (Hbad b eq_refl).
      eexists _, g', win'. rewrite app_nil_r. split; [reflexivity|].
      cbn [nid win_tx win_rx with_win_rx drop]. rewrite lookup_insert_eq.
      by rewrite Hrest.
  - destruct fuel as [|fuel]; [cbn in Hfuel; lia|].
    cbn [length] in Hfuel. apply Forall_cons in Hgood as [Hm Hgood].
    cbn [cxl_kmsg_receive]. cbn [fmap list_fmap app] in Hpend.
    destruct (receive_pass_polls_peer processed ckh g Hn) as [-> _].
    assert (Hp : 1 - nid ckh <> nid ckh) by lia.
    destruct (receive_from_message processed ckh g _ win Hp Hwin Hok)
      as (b & win' & g' & Hb & Hok' & ->).
    { by eapply pending_cons_inuse. }
    rewrite Hpend in Hb. injection Hb as <- Hrest.
    rewrite Hm.
    set (ckh1 := with_win_rx (<[1 - nid ckh := win']> (win_rx ckh)) ckh).
    destruct (IH rest fuel (processed ++ [m]) ckh1 g' win')
      as (ckh' & g2 & win2 & Hrun & Hnid & Htx & Hrx & Hok2 & Hp2).
    + exact Hn.
    + subst ckh1. cbn [nid win_rx with_win_rx]. by rewrite lookup_insert_eq.
    + exact Hok'.
    + by rewrite Hrest.
    + exact Hgood.
    + exact Hbad.
    + lia.
    + exists ckh', g2, win2. rewrite Hrun, <- app_assoc.
      split; [reflexivity|]. split; [by rewrite Hnid|].
      split; [by rewrite Htx|]. split; [exact Hrx|]. split; [exact Hok2|].
      exact Hp2.
Qed.

Lemma receive_stops_at_bad_type_witness :
  exists ckh' g' win',
    cxl_kmsg_receive 3 [] receiving_handle no_counters
    = Some (0, [] ++ [plain_fetch; invalidate_frame_5], ckh', g')
    /\ nid ckh' = nid receiving_handle
    /\ win_tx ckh' = win_tx receiving_handle
    /\ win_rx ckh' !! (1 - nid receiving_handle) = Some win'
    /\ ring_ok win'
    /\ pending win' = drop 1 [Some garbled_message; Some late_message].
Proof.
  apply (receive_stops_at_bad_type [plain_fetch; invalidate_frame_5]
           [Some garbled_message; Some late_message] 3 [] receiving_handle
           no_counters inbox_window).
  - split; vm_compute; first [reflexivity | discriminate].
  - reflexivity.
  - repeat split; vm_compute; first [reflexivity | discriminate].
  - vm_compute. reflexivity.
  - repeat constructor.
  - intros bad [= <-]. reflexivity.
  - vm_compute. lia.
Defined.

End TransportFacts.

(** ** The histogram, continued *)

Module HistogramFacts.
Import Replication Hotness Invariants Scenarios Cases.

Lemma wrap64_id x : 0 <= x < 2 ^ 64 -> wrap64 x = x.
Proof. intros H. unfold wrap64. by apply Z.mod_small. Qed.

Lemma bucket_sum_nonneg l : Forall (fun x => 0 <= x) l -> 0 <= bucket_sum l.
Proof.
  induction 1 as [|x l Hx _ IH]; unfold bucket_sum in *; cbn [foldr]; lia.
Qed.

Lemma bucket_sum_app l1 l2 : bucket_sum (l1 ++ l2) = bucket_sum l1 + bucket_sum l2.
Proof.
  induction l1 as [|x l1 IH]; unfold bucket_sum in *; cbn [foldr app]; lia.
Qed.

Lemma bucket_sum_drop l i :
  (i < length l)%nat ->
  bucket_sum (drop i l) = bucket_sum (drop (S i) l) + nth i l 0.
Proof.
  revert i. induction l as [|x l IH]; intros i Hi; [cbn in Hi; lia|].
  destruct i as [|i];
    [rewrite drop_0; cbn [drop nth]; rewrite drop_0;
     unfold bucket_sum; cbn [foldr]; lia|].
  cbn [drop nth]. apply IH. cbn in Hi. lia.
Qed.

Lemma bucket_sum_suffix_le l i :
  Forall (fun x => 0 <= x) l -> 0 <= bucket_sum (drop i l) <= bucket_sum l.
Proof.
  intros Hl. rewrite <- (take_drop i l) at 3. rewrite bucket_sum_app.
  pose proof (bucket_sum_nonneg (take i l) (Forall_take _ _ _ Hl)).
  pose proof (bucket_sum_nonneg (drop i l) (Forall_drop _ _ _ Hl)). lia.
Qed.

Lemma wrapped_total l a :
  Forall (fun x => 0 <= x) l -> 0 <= a -> a + bucket_sum l < 2 ^ 64 ->
  fold_left (fun acc x => wrap64 (acc + x)) l a = a + bucket_sum l.
Proof.
  intros Hl. revert a. induction Hl as [|x l Hx Hl IH]; intros a Ha Hsum.
  - cbn. lia.
  - cbn [fold_left bucket_sum foldr] in *.
    pose proof (bucket_sum_nonneg l Hl).
    rewrite wrap64_id by (unfold bucket_sum in *; lia).
    rewrite IH; unfold bucket_sum in *; lia.
Qed.

Lemma threshold_scan_spec l target i cum :
  Forall (fun x => 0 <= x) l -> bucket_sum l < 2 ^ 64 ->
  target <= bucket_sum l ->
  (i < length l)%nat ->
  cum = bucket_sum (drop (S i) l) ->
  let r := threshold_scan l target cum i in
  0 <= r <= Z.of_nat i
  /\ target <= bucket_sum (drop (Z.to_nat r) l)
  /\ forall j : nat, r < Z.of_nat j -> (j <= i)%nat ->
       bucket_sum (drop j l) < target.
Proof.
  intros Hl Hfit Htarget. revert cum.
  induction i as [|k IH]; intros cum Hi Hcum r; subst r.
  - cbn [threshold_scan].
    rewrite Hcum, <- bucket_sum_drop by done.
    pose proof (bucket_sum_suffix_le l 0 Hl) as Hs.
    rewrite wrap64_id by lia. rewrite drop_0.
    destruct (target <=? bucket_sum l) eqn:E.
    + cbn. rewrite drop_0. apply Z.leb_le in E. repeat split; lia.
    + apply Z.leb_gt in E. lia.
  - cbn [threshold_scan].
    rewrite Hcum, <- bucket_sum_drop by done.
    pose proof (bucket_sum_suffix_le l (S k) Hl) as Hs.
    rewrite wrap64_id by lia.
    destruct (target <=? bucket_sum (drop (S k) l)) eqn:E.
    + apply Z.leb_le in E. rewrite Nat2Z.id. repeat split; lia.
    + apply Z.leb_gt in E.
      destruct (IH (bucket_sum (drop (S k) l)) ltac:(lia) eq_refl)
        as (Hr & Hge & Hlt).
      repeat split; try lia.
      intros j Hj Hle. destruct (decide (j = S k)) as [->|Hne]; [exact E|].
      apply Hlt; lia.
Qed.

(** X7.  [calculate_hotness_threshold] with samples in the histogram returns
    the highest bucket index [r] such that the buckets from [r] up hold
    at least [percentile] percent of the samples (rounded down); with an
    empty histogram it returns the threshold in force. *)
Theorem threshold_is_percentile_bucket (h : hot_state) (percentile : Z) :
  hist_ok (hist h) ->
  0 <= percentile <= 100 ->
  bucket_sum (hist h) * percentile < 2 ^ 64 ->
  let total := bucket_sum (hist h) in
  let r := calculate_hotness_threshold h percentile in
  (total = 0 -> r = hotness_threshold h)
  /\ (0 < total ->
      0 <= r <= 31
      /\ total * percentile / 100 <= bucket_sum (drop (Z.to_nat r) (hist h))
      /\ forall j : nat, r < Z.of_nat j -> (j <= 31)%nat ->
           bucket_sum (drop j (hist h)) < total * percentile / 100).
Proof.
  intros (Hlen & Hpos & Hfit) Hpct Hmul total r. subst total r.
  unfold calculate_hotness_threshold.
  rewrite firstn_all2 by lia.
  pose proof (bucket_sum_nonneg _ Hpos) as Hnn.
  rewrite wrapped_total by (done || lia). rewrite Z.add_0_l.
  split.
  - intros ->. reflexivity.
  - intros Htot.
    destruct (bucket_sum (hist h) =? 0) eqn:E; [apply Z.eqb_eq in E; lia|].
    rewrite wrap64_id by nia.
    assert (Htarget : bucket_sum (hist h) * percentile / 100
                      <= bucket_sum (hist h)).
    { apply Z.div_le_upper_bound; nia. }
    pose proof (threshold_scan_spec (hist h)
                  (bucket_sum (hist h) * percentile / 100) 31 0
                  Hpos Hfit Htarget ltac:(lia)) as Hscan.
    rewrite drop_ge in Hscan by lia.
    specialize (Hscan eq_refl). cbv zeta in Hscan.
    destruct Hscan as (Hr & Hge & Hlt).
    change (Z.of_nat 31) with 31 in Hr. repeat split; try lia; done.
Qed.

Lemma threshold_is_percentile_bucket_witness :
  let total := bucket_sum (hist flat_histogram) in
  let r := calculate_hotness_threshold flat_histogram 20 in
  (total = 0 -> r = hotness_threshold flat_histogram)
  /\ (0 < total ->
      0 <= r <= 31
      /\ total * 20 / 100 <= bucket_sum (drop (Z.to_nat r) (hist flat_histogram))
      /\ forall j : nat, r < Z.of_nat j -> (j <= 31)%nat ->
           bucket_sum (drop j (hist flat_histogram)) < total * 20 / 100).
Proof.
  apply (threshold_is_percentile_bucket flat_histogram 20).
  - split; [reflexivity|]. split; [|reflexivity].
    repeat (constructor; [discriminate|]). constructor.
  - split; discriminate.
  - reflexivity.
Defined.

Lemma bucket_sum_wrapped l :
  Forall (fun x => 0 <= x) l -> bucket_sum l < 2 ^ 64 ->
  bucket_sum (map wrap64 l) = bucket_sum l.
Proof.
  induction 1 as [|x l Hx Hl IH]; intros Hfit; [reflexivity|].
  cbn [map bucket_sum foldr] in *.
  pose proof (bucket_sum_nonneg l Hl). unfold bucket_sum in *.
  rewrite wrap64_id by lia. rewrite IH by lia. reflexivity.
Qed.

(** X8.  The cool-down at the end of the replication tick keeps the number
    of pages the histogram counts, and leaves a histogram of the same
    shape. *)
Theorem cool_down_keeps_total (h : hot_state) :
  hist_ok (hist h) ->
  bucket_sum (hist (replication_tick_tail h)) = bucket_sum (hist h)
  /\ hist_ok (hist (replication_tick_tail h)).
Proof.
  intros (Hlen & Hpos & Hfit).
  change (hist (replication_tick_tail h)) with (cool_down_histogram (hist h)).
  rewrite (HotnessFacts.cool_down_32 _ Hlen).
  destruct (hist h) as [|a [|b rest]] eqn:Hh; [discriminate Hlen..|].
  cbn [nth drop]. rewrite drop_0.
  apply Forall_cons in Hpos as [Ha Hpos]. apply Forall_cons in Hpos as [Hb Hpos].
  pose proof (bucket_sum_nonneg rest Hpos) as Hrest.
  assert (Hsum : bucket_sum (a :: b :: rest) = a + b + bucket_sum rest)
    by (unfold bucket_sum; cbn [foldr]; lia).
  rewrite Hsum in *.
  assert (Hnew : bucket_sum (wrap64 (a + b) :: map wrap64 rest ++ [0])
                 = a + b + bucket_sum rest).
  { change (bucket_sum (wrap64 (a + b) :: map wrap64 rest ++ [0]))
      with (wrap64 (a + b) + bucket_sum (map wrap64 rest ++ [0])).
    rewrite bucket_sum_app, bucket_sum_wrapped by (done || lia).
    rewrite wrap64_id by lia. unfold bucket_sum at 2. cbn [foldr]. lia. }
  split; [exact Hnew|]. split; [|split].
  - cbn [length] in *. rewrite length_app, length_map. cbn [length]. lia.
  - apply Forall_cons. split; [unfold wrap64; apply Z.mod_pos_bound; lia|].
    apply Forall_app. split; [|by repeat constructor].
    apply Forall_forall. intros x Hx. apply list_elem_of_In in Hx.
    apply in_map_iff in Hx as (y & <- & _).
    unfold wrap64. apply Z.mod_pos_bound. lia.
  - rewrite Hnew. exact Hfit.
Qed.

Lemma cool_down_keeps_total_witness :
  bucket_sum (hist (replication_tick_tail flat_histogram))
  = bucket_sum (hist flat_histogram)
  /\ hist_ok (hist (replication_tick_tail flat_histogram)).
Proof.
  apply (cool_down_keeps_total flat_histogram).
  split; [reflexivity|]. split; [|reflexivity].
  repeat (constructor; [discriminate|]). constructor.
Defined.

(** The [private] word [handle_sampled_address] writes: count in the
    upper half, age in bits 16 to 31, the two tag bits kept. *)
Lemma packed_word_bit n age v k :
  0 <= k ->
  Z.testbit (Z.lor (Z.lor (wrap64 (Z.shiftl n 32))
                          (Z.shiftl (age mod 2 ^ 16) 16))
                   (Z.land v SWMC_TAG_MASK)) k
  = if k <? 2 then Z.testbit v k
    else if k <? 16 then false
    else if k <? 32 then Z.testbit age (k - 16)
    else if k <? 64 then Z.testbit n (k - 32)
    else false.
Proof.
  intros Hk. rewrite !Z.lor_spec, Z.land_spec.
  change SWMC_TAG_MASK with (Z.ones 2). unfold wrap64.
  destruct (Z.ltb_spec k 2).
  { rewrite Z.mod_pow2_bits_low by lia.
    rewrite !Z.shiftl_spec_low by lia.
    rewrite Z.ones_spec_low by lia. cbn. by rewrite andb_true_r. }
  rewrite Z.ones_spec_high by lia. rewrite andb_false_r, orb_false_r.
  destruct (Z.ltb_spec k 16).
  { rewrite Z.mod_pow2_bits_low by lia.
    by rewrite !Z.shiftl_spec_low by lia. }
  destruct (Z.ltb_spec k 32).
  { rewrite Z.mod_pow2_bits_low by lia.
    rewrite Z.shiftl_spec_low by lia. rewrite Z.shiftl_spec by lia.
    rewrite Z.mod_pow2_bits_low by lia. reflexivity. }
  rewrite (Z.shiftl_spec (age mod 2 ^ 16)) by lia.
  rewrite (Z.mod_pow2_bits_high age) by lia. rewrite orb_false_r.
  destruct (Z.ltb_spec k 64).
  { rewrite Z.mod_pow2_bits_low by lia. by rewrite Z.shiftl_spec by lia. }
  by rewrite Z.mod_pow2_bits_high by lia.
Qed.

Lemma packed_word_count n age v :
  swmc_access_count
    (Z.lor (Z.lor (wrap64 (Z.shiftl n 32)) (Z.shiftl (age mod 2 ^ 16) 16))
           (Z.land v SWMC_TAG_MASK))
  = n mod 2 ^ 32.
Proof.
  unfold swmc_access_count. apply Z.bits_inj'. intros k Hk.
  destruct (Z.ltb_spec k 32).
  - rewrite !Z.mod_pow2_bits_low by lia. rewrite Z.shiftr_spec by lia.
    rewrite packed_word_bit by lia.
    destruct (Z.ltb_spec (k + 32) 2); [lia|].
    destruct (Z.ltb_spec (k + 32) 16); [lia|].
    destruct (Z.ltb_spec (k + 32) 32); [lia|].
    destruct (Z.ltb_spec (k + 32) 64); [|lia].
    f_equal. lia.
  - by rewrite !Z.mod_pow2_bits_high by lia.
Qed.

Lemma packed_word_age n age v :
  swmc_last_accessed_age
    (Z.lor (Z.lor (wrap64 (Z.shiftl n 32)) (Z.shiftl (age mod 2 ^ 16) 16))
           (Z.land v SWMC_TAG_MASK))
  = age mod 2 ^ 16.
Proof.
  unfold swmc_last_accessed_age. apply Z.bits_inj'. intros k Hk.
  destruct (Z.ltb_spec k 16).
  - rewrite !Z.mod_pow2_bits_low by lia. rewrite Z.shiftr_spec by lia.
    rewrite Z.land_spec, packed_word_bit by lia.
    change 4294901760 with (Z.shiftl (Z.ones 16) 16).
    rewrite Z.shiftl_spec, Z.ones_spec_low by lia. rewrite andb_true_r.
    destruct (Z.ltb_spec (k + 16) 2); [lia|].
    destruct (Z.ltb_spec (k + 16) 16); [lia|].
    destruct (Z.ltb_spec (k + 16) 32); [|lia].
    f_equal. lia.
  - by rewrite !Z.mod_pow2_bits_high by lia.
Qed.

Lemma packed_word_tag n age v :
  Z.land (Z.lor (Z.lor (wrap64 (Z.shiftl n 32)) (Z.shiftl (age mod 2 ^ 16) 16))
                (Z.land v SWMC_TAG_MASK)) SWMC_TAG_MASK
  = Z.land v SWMC_TAG_MASK.
Proof.
  apply Z.bits_inj'. intros k Hk.
  rewrite (Z.land_spec _ SWMC_TAG_MASK), packed_word_bit by lia.
  rewrite Z.land_spec. change SWMC_TAG_MASK with (Z.ones 2).
  destruct (Z.ltb_spec k 2); [reflexivity|].
  rewrite Z.ones_spec_high by lia. by rewrite !andb_false_r.
Qed.

(** X9.  A sample that [handle_sampled_address] accepts leaves in the
    [private] word of the page the aged access count plus one (modulo
    2^32), the current monitoring age (modulo 2^16) and the tag bits the
    word had; no other page is touched. *)
Theorem sample_packs_count_and_age pg node_alloc_ok h s h' s' :
  handle_sampled_address (Some pg) node_alloc_ok h s = Sampled 0 h' s' ->
  exists c,
    aged_counts (monitoring_age h) (private (page_at s pg)) = inr (c, c + 1)
    /\ swmc_access_count (private (page_at s' pg)) = (c + 1) mod 2 ^ 32
    /\ swmc_last_accessed_age (private (page_at s' pg))
       = monitoring_age h mod 2 ^ 16
    /\ Z.land (private (page_at s' pg)) SWMC_TAG_MASK
       = Z.land (private (page_at s pg)) SWMC_TAG_MASK
    /\ (forall q, q <> pg -> page_at s' q = page_at s q).
Proof.
  unfold handle_sampled_address. intros Hrun.
  destruct (pg =? NULL); [discriminate Hrun|].
  destruct (negb (PG_coherence (page_at s pg))); [discriminate Hrun|].
  destruct (aged_counts (monitoring_age h) (private (page_at s pg)))
    as [d|[c c']] eqn:Haged; [discriminate Hrun|].
  assert (Hc : c' = c + 1).
  { unfold aged_counts in Haged. repeat case_match; by simplify_eq. }
  subst c'. exists c. split; [reflexivity|].
  cbv zeta in Hrun.
  assert (Hs : s' = upd_page pg
                 (with_private
                    (Z.lor (Z.lor (wrap64 (Z.shiftl (c + 1) 32))
                                  (Z.shiftl (monitoring_age h mod 2 ^ 16) 16))
                           (Z.land (private (page_at s pg)) SWMC_TAG_MASK))) s).
  { repeat case_match; by simplify_eq. }
  subst s'. rewrite ReplicationFacts.page_at_upd_eq. cbn [private with_private].
  rewrite packed_word_count, packed_word_age, packed_word_tag.
  repeat split; try reflexivity.
  intros q Hq. by apply ReplicationFacts.page_at_upd_ne.
Qed.

Lemma sample_packs_count_and_age_witness :
  exists c,
    aged_counts (monitoring_age flat_histogram)
      (private (page_at counted_pool sampled_page)) = inr (c, c + 1)
    /\ swmc_access_count
         (private
            (page_at (upd_page sampled_page
                        (with_private (Z.lor (Z.shiftl 4 32) 0)) counted_pool)
               sampled_page))
       = (c + 1) mod 2 ^ 32
    /\ swmc_last_accessed_age
         (private
            (page_at (upd_page sampled_page
                        (with_private (Z.lor (Z.shiftl 4 32) 0)) counted_pool)
               sampled_page))
       = monitoring_age flat_histogram mod 2 ^ 16
    /\ Z.land
         (private
            (page_at (upd_page sampled_page
                        (with_private (Z.lor (Z.shiftl 4 32) 0)) counted_pool)
               sampled_page)) SWMC_TAG_MASK
       = Z.land (private (page_at counted_pool sampled_page)) SWMC_TAG_MASK
    /\ (forall q, q <> sampled_page ->
          page_at (upd_page sampled_page
                     (with_private (Z.lor (Z.shiftl 4 32) 0)) counted_pool) q
          = page_at counted_pool q).
Proof.
  apply (sample_packs_count_and_age sampled_page true flat_histogram
           counted_pool
           {| hist := <[2%nat := 5]> (<[1%nat := 3]> (hist flat_histogram));
              hotness_threshold := 10; monitoring_age := 0;
              hot_page_percentile := 20; replication_candidate := [] |}).
  reflexivity.
Defined.

End HistogramFacts.

(** ** The replica pool, continued *)

Module ReplicaFacts.
Import Replication ReplicationFacts Scenarios Cases.

Lemma self_tag_is_no_pointer v :
  Z.land (Z.lor (Z.lor (Z.land v (Z.lnot SWMC_TAG_MASK)) SWMC_TAG_REPLICA_SELF)
                SWMC_TAG_ACCESS) SWMC_TAG_MASK
  = SWMC_TAG_RSVD.
Proof.
  rewrite <- Z.lor_assoc.
  change (Z.lor SWMC_TAG_REPLICA_SELF SWMC_TAG_ACCESS) with SWMC_TAG_RSVD.
  rewrite Z.land_lor_distr_l, <- Z.land_assoc.
  change (Z.land (Z.lnot SWMC_TAG_MASK) SWMC_TAG_MASK) with 0.
  rewrite Z.land_0_r. reflexivity.
Qed.

Lemma memcpy_inside dst src n i : 0 <= i < n -> memcpy dst src n i = src i.
Proof.
  intros H. unfold memcpy.
  destruct (Z.leb_spec 0 i); [|lia]. destruct (Z.ltb_spec i n); [|lia]. done.
Qed.

Lemma memcpy_outside dst src n i : ~ (0 <= i < n) -> memcpy dst src n i = dst i.
Proof.
  intros H. unfold memcpy.
  destruct (Z.leb_spec 0 i); destruct (Z.ltb_spec i n); try lia; done.
Qed.

Section WithShrinker.

Variable replica_trigger_shrink : Z -> pool -> pool.
Variable orig : Z.

Hypothesis shrink_frame :
  forall n s, page_at (replica_trigger_shrink n s) orig = page_at s orig.

(** X10.  A creation that succeeds and leaves a replica links the two pages
    both ways: [get_replica_opt] of the original is the replica,
    [get_original_opt] of the replica is the original, and the replica
    itself reads as having no replica.  The replica holds the bytes of
    the original; the original keeps its own. *)
Theorem create_links_both_ways order allocs s s1 :
  0 <= order ->
  allocator_ok orig allocs ->
  create_page_replica replica_trigger_shrink orig order allocs s = (0, s1) ->
  get_replica_opt s1 orig <> NULL ->
  let r := get_replica_opt s1 orig in
  r <> orig
  /\ get_original_opt s1 r = orig
  /\ get_replica_opt s1 r = NULL
  /\ (forall i, 0 <= i < PAGE_SIZE * 2 ^ order ->
        contents (page_at s1 r) i = contents (page_at s orig) i)
  /\ (forall i, contents (page_at s1 orig) i = contents (page_at s orig) i).
Proof.
  intros Hord Hok Hcreate Hrep r.
  destruct (create_success_facts _ _ shrink_frame _ _ _ _ Hok Hcreate Hrep)
    as (pr & Hpr & Hne & Horig & Hal & Hpriv & Hcont & Hback & Hrpriv & _ & Hrc).
  assert (Hr : r = pr).
  { subst r. unfold get_replica_opt. rewrite Hpriv.
    destruct (pr =? 0) eqn:E; [apply Z.eqb_eq in E; done|].
    rewrite Hal. cbn. unfold swmc_decode_replica_ptr.
    by apply clear_tag_aligned. }
  rewrite Hr. split; [done|]. split; [exact Hback|]. split; [|split].
  - unfold get_replica_opt. rewrite Hrpriv.
    destruct (_ =? 0); [reflexivity|].
    by rewrite self_tag_is_no_pointer.
  - intros i Hi. rewrite Hrc. apply memcpy_inside.
    rewrite Z.shiftl_mul_pow2 by lia. exact Hi.
  - intros i. by rewrite Hcont.
Qed.

End WithShrinker.

Lemma create_links_both_ways_witness :
  let r := get_replica_opt replicated_pool original_addr in
  r <> original_addr
  /\ get_original_opt replicated_pool r = original_addr
  /\ get_replica_opt replicated_pool r = NULL
  /\ (forall i, 0 <= i < PAGE_SIZE * 2 ^ 0 ->
        contents (page_at replicated_pool r) i
        = contents (page_at one_page_pool original_addr) i)
  /\ (forall i, contents (page_at replicated_pool original_addr) i
                = contents (page_at one_page_pool original_addr) i).
Proof.
  apply (create_links_both_ways idle_shrinker original_addr
           (fun _ _ => eq_refl) 0 [replica_addr] one_page_pool replicated_pool).
  - discriminate.
  - constructor; [|constructor]. right. split; [discriminate | reflexivity].
  - reflexivity.
  - discriminate.
Defined.

(** The remaining facts hold for every shrinker. *)
Section AnyShrinker.

Variable replica_trigger_shrink : Z -> pool -> pool.
Variable orig : Z.

(** X11.  On an original that is stale-shared (MODIFIED and SHARED both set)
    when [create_page_replica] reads its flags, which is after the
    allocation and the copy, the call returns 0 without making a
    replica.  [pr] is the page [allocate_page_replica_with_retry] handed
    out and [sa] the pool it left: the page is freed again with one
    [__free_pages(pr, order)], the counter goes back down, and the two
    LRU lists and the [struct page] of the original are as in [sa].
    Nothing is assumed of the shrinker. *)
Theorem create_skips_stale_shared order allocs s pr sa :
  orig <> NULL ->
  get_replica_opt s orig = NULL ->
  allocate_page_replica_with_retry replica_trigger_shrink order allocs s
  = (pr, sa) ->
  pr <> NULL ->
  pr <> orig ->
  PG_modified (page_at sa orig) = true ->
  PG_shared (page_at sa orig) = true ->
  exists s1,
    create_page_replica replica_trigger_shrink orig order allocs s = (0, s1)
    /\ page_at s1 orig = page_at sa orig
    /\ get_replica_opt s1 orig = get_replica_opt sa orig
    /\ replica_active_lru s1 = replica_active_lru sa
    /\ replica_inactive_lru s1 = replica_inactive_lru sa
    /\ page_replica_allocated_pages s1
       = page_replica_allocated_pages sa - Z.shiftl 1 order
    /\ mm_calls s1 = mm_calls sa ++ [Free_pages pr order].
Proof.
  intros Horig Hnone Hrun Hpr Hne HM HS.
  assert (Hne' : orig <> pr) by congruence.
  unfold create_page_replica. rewrite Hnone. cbn [negb Z.eqb NULL].
  cbv iota. rewrite Hrun.
  destruct (pr =? NULL) eqn:Epr; [apply Z.eqb_eq in Epr; done|].
  unfold copy_data_page.
  destruct (orig =? NULL) eqn:E; [apply Z.eqb_eq in E; done|].
  rewrite Epr. cbn [orb negb Z.eqb]. cbv iota.
  rewrite !(page_at_upd_ne pr orig) by done.
  rewrite HM, HS. cbn [andb].
  eexists. split; [reflexivity|].
  assert (Hpage : forall f o c,
            page_at (track_page_free o (mm_call_log c (upd_page pr f sa))) orig
            = page_at sa orig).
  { intros f o c.
    by rewrite page_at_track_free, page_at_mm_call_log, page_at_upd_ne. }
  split; [apply Hpage|]. split; [|done].
  apply get_replica_opt_ext, Hpage.
Qed.

(** X12.  When the allocator fails four times in a row [create_page_replica]
    gives up with [-ENOMEM]; by then the shrinker has run three times,
    asked for 1 page (order 0) or 16 pages each time. *)
Theorem create_gives_up_after_three_shrinks order allocs s :
  get_replica_opt s orig = NULL ->
  (forall i, (i < 4)%nat -> nth i allocs NULL = NULL) ->
  let n := if order =? 0 then 1 else 16 in
  create_page_replica replica_trigger_shrink orig order allocs s
  = (- ENOMEM,
     replica_trigger_shrink n
       (replica_trigger_shrink n (replica_trigger_shrink n s))).
Proof.
  intros Hnone Hfail n. subst n.
  unfold create_page_replica. rewrite Hnone. cbn [negb Z.eqb NULL].
  cbv iota. unfold allocate_page_replica_with_retry, MAX_ALLOCATE_RETRIES.
  pose proof (Hfail 0%nat ltac:(lia)) as H0.
  pose proof (Hfail 1%nat ltac:(lia)) as H1.
  pose proof (Hfail 2%nat ltac:(lia)) as H2.
  pose proof (Hfail 3%nat ltac:(lia)) as H3.
  assert (Hhd : forall l : list Z, hd NULL l = nth 0 l NULL)
    by (by intros [|? ?]).
  assert (Htl : forall (l : list Z) k, nth k (tl l) NULL = nth (S k) l NULL)
    by (by intros [|? ?] [|?]).
  cbn [allocate_loop].
  rewrite !Hhd, !Htl, H0, H1, H2, H3. reflexivity.
Qed.

End AnyShrinker.

Lemma create_skips_stale_shared_witness :
  let sa := track_page_alloc 0 (alloc_pages replica_addr stale_original_pool) in
  allocate_page_replica_with_retry idle_shrinker 0 [NULL; replica_addr]
    stale_original_pool = (replica_addr, sa)
  /\ exists s1,
       create_page_replica idle_shrinker original_addr 0 [NULL; replica_addr]
         stale_original_pool = (0, s1)
       /\ page_at s1 original_addr = page_at sa original_addr
       /\ get_replica_opt s1 original_addr = get_replica_opt sa original_addr
       /\ replica_active_lru s1 = replica_active_lru sa
       /\ replica_inactive_lru s1 = replica_inactive_lru sa
       /\ page_replica_allocated_pages s1
          = page_replica_allocated_pages sa - Z.shiftl 1 0
       /\ mm_calls s1 = mm_calls sa ++ [Free_pages replica_addr 0].
Proof.
  split; [reflexivity|].
  apply (create_skips_stale_shared idle_shrinker original_addr 0
           [NULL; replica_addr] stale_original_pool replica_addr
           (track_page_alloc 0 (alloc_pages replica_addr stale_original_pool))).
  - discriminate.
  - reflexivity.
  - reflexivity.
  - discriminate.
  - discriminate.
  - reflexivity.
  - reflexivity.
Defined.

Lemma create_gives_up_after_three_shrinks_witness :
  let n := if 0 =? 0 then 1 else 16 in
  create_page_replica idle_shrinker original_addr 0 [] one_page_pool
  = (- ENOMEM,
     idle_shrinker n (idle_shrinker n (idle_shrinker n one_page_pool))).
Proof.
  apply (create_gives_up_after_three_shrinks idle_shrinker original_addr 0 []
           one_page_pool).
  - reflexivity.
  - intros i _. by destruct i.
Defined.

(** X13.  [fetch_page_replica] copies the first page of the replica over the
    original, in that direction, and leaves the replica and the rest of
    the original alone; without a replica it returns -1 and does
    nothing. *)
Theorem fetch_overwrites_original original s :
  let r := get_replica_opt s original in
  (r = NULL -> fetch_page_replica original s = (-1, s))
  /\ (r <> NULL -> original <> NULL -> r <> original ->
      exists s',
        fetch_page_replica original s = (0, s')
        /\ (forall i, 0 <= i < PAGE_SIZE ->
              contents (page_at s' original) i = contents (page_at s r) i)
        /\ (forall i, ~ (0 <= i < PAGE_SIZE) ->
              contents (page_at s' original) i
              = contents (page_at s original) i)
        /\ private (page_at s' original) = private (page_at s original)
        /\ (forall q, q <> original -> page_at s' q = page_at s q)).
Proof.
  intros r. subst r. unfold fetch_page_replica. split.
  - intros ->. reflexivity.
  - intros Hr Ho Hne.
    destruct (get_replica_opt s original =? NULL) eqn:E;
      [apply Z.eqb_eq in E; done|].
    unfold copy_data_page. rewrite E.
    destruct (original =? NULL) eqn:E2; [apply Z.eqb_eq in E2; done|].
    cbn [orb negb Z.eqb]. cbv iota.
    eexists. split; [reflexivity|].
    rewrite page_at_upd_eq. cbn [contents with_contents private].
    replace (Z.shiftl PAGE_SIZE 0) with PAGE_SIZE by reflexivity.
    repeat split.
    + intros i Hi. by apply memcpy_inside.
    + intros i Hi. by apply memcpy_outside.
    + intros q Hq. apply page_at_upd_ne. congruence.
Qed.

(** X14.  [writeback_page_replica] copies the first page of the replica over
    its original and asks for a cache flush of the original; a page that
    is not linked to an original is refused with [-EINVAL]. *)
Theorem writeback_copies_to_original page_replica s :
  let o := get_original_opt s page_replica in
  (o = NULL -> writeback_page_replica page_replica s = (- EINVAL, s))
  /\ (o <> NULL -> page_replica <> NULL -> page_replica <> o ->
      exists s',
        writeback_page_replica page_replica s = (0, s')
        /\ (forall i, 0 <= i < PAGE_SIZE ->
              contents (page_at s' o) i = contents (page_at s page_replica) i)
        /\ (forall i, ~ (0 <= i < PAGE_SIZE) ->
              contents (page_at s' o) i = contents (page_at s o) i)
        /\ (forall q, q <> o -> page_at s' q = page_at s q)
        /\ mm_calls s' = mm_calls s ++ [Flush_dcache_page o]).
Proof.
  intros o. subst o. unfold writeback_page_replica. split.
  - intros ->. reflexivity.
  - intros Ho Hr Hne.
    destruct (get_original_opt s page_replica =? NULL) eqn:E;
      [apply Z.eqb_eq in E; done|].
    unfold copy_data_page. rewrite E.
    destruct (page_replica =? NULL) eqn:E2; [apply Z.eqb_eq in E2; done|].
    cbn [orb]. cbv iota.
    eexists. split; [reflexivity|].
    rewrite page_at_mm_call_log, page_at_upd_eq.
    cbn [contents with_contents].
    replace (Z.shiftl PAGE_SIZE 0) with PAGE_SIZE by reflexivity.
    repeat split.
    + intros i Hi. by apply memcpy_inside.
    + intros i Hi. by apply memcpy_outside.
    + intros q Hq. rewrite page_at_mm_call_log. apply page_at_upd_ne.
      congruence.
Qed.

End ReplicaFacts.

(** ** The fault engine, continued *)

Module EngineFacts.
Import Kmsg Replication Coherence CoherenceFacts Invariants Scenarios Cases.

(** X15.  The action table keeps the two sides apart: a remote handle never
    gets a transaction, wait or map bit, a local handle never gets
    WRITEBACK, INVALIDATE or RESPOND, and every remote action other than
    the invalid one responds.  A writeback is selected exactly for a
    remote request that finds the page MODIFIED and not SHARED; an
    invalidation exactly for a remote write that finds it MODIFIED or
    SHARED (the invalid cell apart). *)
Theorem action_table_sides fh :
  let fh' := set_fh_action fh in
  (is_REMOTE fh = true ->
     Z.land (fh_action fh') FH_ACTION_LOCAL_ONLY = 0
     /\ (fh_action fh' <> FH_ACTION_INVALID ->
         has_action FH_ACTION_RESPOND fh' = true))
  /\ (is_REMOTE fh = false ->
      Z.land (fh_action fh') FH_ACTION_REMOTE_ONLY = 0)
  /\ has_action FH_ACTION_WRITEBACK fh'
     = is_REMOTE fh && is_MODIFIED fh && negb (is_SHARED fh)
  /\ has_action FH_ACTION_INVALIDATE fh'
     = is_REMOTE fh && is_NEEDWRITE fh
       && (is_MODIFIED fh || is_SHARED fh)
       && negb (is_REPLICATED fh && is_MODIFIED fh && is_SHARED fh).
Proof.
  destruct (flags_as_bits fh) as (-> & -> & -> & -> & -> & _).
  unfold has_action, set_fh_action. cbn [fh_action with_fh_action].
  rewrite land_31_bits.
  destruct (Z.testbit (fh_flags fh) 0), (Z.testbit (fh_flags fh) 1),
    (Z.testbit (fh_flags fh) 2), (Z.testbit (fh_flags fh) 3),
    (Z.testbit (fh_flags fh) 4); cbn; repeat split; intros; done.
Qed.

Lemma pfn_t_to_pfn_low x : 0 <= x < 2 ^ 64 -> pfn_t_to_pfn x = x mod 2 ^ 52.
Proof.
  intros Hx. unfold pfn_t_to_pfn. apply Z.bits_inj'. intros n Hn.
  rewrite Z.land_spec, Z.lnot_spec by lia.
  unfold PFN_FLAGS_MASK. change 4095 with (Z.ones 12).
  destruct (Z.ltb_spec n 52).
  - rewrite Z.shiftl_spec_low by lia. rewrite Z.mod_pow2_bits_low by lia.
    cbn. by rewrite andb_true_r.
  - rewrite Z.mod_pow2_bits_high by lia. rewrite Z.shiftl_spec by lia.
    destruct (Z.ltb_spec n 64).
    + rewrite Z.ones_spec_low by lia. cbn. by rewrite andb_false_r.
    + replace (Z.testbit x n) with false; [done|].
      symmetry. destruct (Z.eqb_spec x 0) as [->|Hne]; [apply Z.bits_0|].
      apply Z.bits_above_log2; [lia|].
      assert (Z.log2 x < 64) by (apply Z.log2_lt_pow2; lia). lia.
Qed.

(** X16.  The offset a node puts into a FETCH or INVALIDATE and the frame a
    peer with the same HDM base reads out of it: the peer finds the frame
    number of the fault, whatever flag bits [*pfn] carried. *)
Theorem broadcast_offset_names_the_frame e_send e_recv hdr original_pfn order :
  0 <= original_pfn < 2 ^ 64 ->
  cxl_hdm_base e_recv = cxl_hdm_base e_send ->
  message_pfn e_recv (mk_msg hdr (broadcast_payload original_pfn order e_send))
  = pfn_t_to_pfn original_pfn.
Proof.
  intros Hx Hbase. unfold message_pfn, broadcast_payload, pfn_to_pfn_t.
  cbn [payload cxl_hdm_offset]. rewrite Hbase.
  rewrite (pfn_t_to_pfn_low original_pfn) by done.
  set (p := original_pfn mod 2 ^ 52).
  assert (Hp : 0 <= p < 2 ^ 52) by (apply Z.mod_pos_bound; lia).
  assert (Hw : wrap64 (cxl_hdm_base e_send
                       + wrap64 (p * PAGE_SIZE - cxl_hdm_base e_send))
               = p * PAGE_SIZE).
  { unfold wrap64. rewrite Zplus_mod_idemp_r.
    replace (cxl_hdm_base e_send + (p * PAGE_SIZE - cxl_hdm_base e_send))
      with (p * PAGE_SIZE) by lia.
    apply Z.mod_small. unfold PAGE_SIZE. lia. }
  rewrite Hw. unfold PAGE_SIZE, PAGE_SHIFT.
  rewrite Z.shiftr_div_pow2 by lia. change (2 ^ 12) with 4096.
  rewrite Z.div_mul by lia.
  rewrite pfn_t_to_pfn_low by lia. apply Z.mod_small. lia.
Qed.

Lemma broadcast_offset_names_the_frame_witness :
  message_pfn idle_engine
    (mk_msg (header plain_fetch) (broadcast_payload flagged_pfn 0 idle_engine))
  = pfn_t_to_pfn flagged_pfn.
Proof.
  apply (broadcast_offset_names_the_frame idle_engine idle_engine
           (header plain_fetch) flagged_pfn 0).
  - split; vm_compute; first [reflexivity | discriminate].
  - reflexivity.
Defined.

(** *** What the remote handler does to the page *)

(** [update_metadata] writes the next state of the frame into the flags
    of its page: MODIFIED for a local write, SHARED for a read from
    either side, neither for a remote write. *)
Lemma update_metadata_flags pfn e :
  let fh := fh_of e pfn in
  let p := page_at (mem (update_metadata pfn e)) (original_page fh) in
  PG_modified p = is_NEEDWRITE fh && negb (is_REMOTE fh)
  /\ PG_shared p = negb (is_NEEDWRITE fh)
  /\ PG_coherence p = PG_coherence (page_at (mem e) (original_page fh)).
Proof.
  cbv zeta. unfold update_metadata.
  destruct (is_REMOTE (fh_of e pfn)), (is_NEEDWRITE (fh_of e pfn));
    cbn [mem with_mem emit]; by rewrite ReplicationFacts.page_at_upd_eq.
Qed.

(** The remote handler on a handle of its own: the work of the action
    bits, the ACK, and the handle freed. *)
Lemma serve_remote_own_handle w msg pfn e fh :
  handle_for e pfn = Some fh -> is_REMOTE fh = true -> complete fh = false ->
  snd (serve_remote_fault w msg pfn e)
  = fh_del pfn
      (emit (reply_to msg (ack_of (type (header msg))))
         (if fh_action fh =? 0 then e
          else
            let eA := if has_action FH_ACTION_WRITEBACK fh
                      then writeback_page pfn e else e in
            let eB := if has_action FH_ACTION_INVALIDATE fh
                      then invalidate_page pfn eA else eA in
            if has_action FH_ACTION_UPDATE_METADATA fh
            then update_metadata pfn eB else eB)).
Proof.
  intros Hfh Hrem Hc. unfold serve_remote_fault.
  assert (Hof : forall e', faults e' = faults e -> fh_of e' pfn = fh).
  { intros e' He'. rewrite (fh_of_faults e' e) by done.
    by apply fh_of_handle_for. }
  assert (Hfin : forall e', faults e' = faults e ->
            snd (__finish_remote_fault_handling pfn e') = fh_del pfn e').
  { intros e' He'. unfold __finish_remote_fault_handling.
    by rewrite (Hof e' He'), Hc, Hrem. }
  rewrite (Hof e eq_refl).
  destruct (fh_action fh =? 0); cbn [snd].
  - by rewrite Hfin.
  - cbv zeta.
    set (eA := if has_action FH_ACTION_WRITEBACK fh
               then writeback_page pfn e else e).
    assert (HA : faults eA = faults e)
      by (subst eA; case_match; [apply writeback_page_faults|done]).
    rewrite (Hof eA HA).
    set (eB := if has_action FH_ACTION_INVALIDATE fh
               then invalidate_page pfn eA else eA).
    assert (HB : faults eB = faults e) by (subst eB; by case_match).
    rewrite (Hof eB HB).
    set (eC := if has_action FH_ACTION_UPDATE_METADATA fh
               then update_metadata pfn eB else eB).
    assert (HC : faults eC = faults e)
      by (subst eC; case_match; [by rewrite update_metadata_faults|done]).
    assert (Hfind : find_fh pfn
                      (bucket (emit (reply_to msg (ack_of (type (header msg)))) eC)
                         (__fault_hash_key pfn)) = Some fh).
    { change (handle_for (emit (reply_to msg (ack_of (type (header msg)))) eC) pfn
              = Some fh).
      by rewrite (handle_for_faults _ e). }
    rewrite Hfind. cbn [snd]. by rewrite Hfin.
Qed.

(** The bits of a remote action, read off the flags. *)
Lemma remote_action_bits fh :
  fh_action fh = nth (Z.to_nat (Z.land (fh_flags fh) 31)) fh_action_table 0 ->
  is_REMOTE fh = true ->
  has_action FH_ACTION_WRITEBACK fh = is_MODIFIED fh && negb (is_SHARED fh)
  /\ has_action FH_ACTION_INVALIDATE fh
     = is_NEEDWRITE fh && (is_MODIFIED fh || is_SHARED fh)
       && negb (is_REPLICATED fh && is_MODIFIED fh && is_SHARED fh)
  /\ has_action FH_ACTION_UPDATE_METADATA fh
     = (is_MODIFIED fh && negb (is_SHARED fh))
       || (is_NEEDWRITE fh && (is_MODIFIED fh || is_SHARED fh)
           && negb (is_REPLICATED fh && is_MODIFIED fh && is_SHARED fh))
  /\ (fh_action fh =? 0)
     = is_REPLICATED fh && is_NEEDWRITE fh && is_MODIFIED fh && is_SHARED fh.
Proof.
  destruct (flags_as_bits fh) as (-> & -> & -> & -> & -> & _).
  unfold has_action. intros -> Hrem. rewrite land_31_bits, Hrem.
  destruct (Z.testbit (fh_flags fh) 0), (Z.testbit (fh_flags fh) 1),
    (Z.testbit (fh_flags fh) 2), (Z.testbit (fh_flags fh) 3); cbn; done.
Qed.

Lemma fresh_remote_handle is_write s pfn :
  let fh := refresh_handle true is_write s (blank_fh pfn) in
  original_pfn_val fh = pfn /\ original_page fh = pfn_to_page pfn
  /\ complete fh = false /\ is_REMOTE fh = true
  /\ is_NEEDWRITE fh = is_write
  /\ is_SHARED fh = PG_shared (page_at s (pfn_to_page pfn))
  /\ is_MODIFIED fh = PG_modified (page_at s (pfn_to_page pfn))
  /\ is_REPLICATED fh = negb (get_replica_opt s (pfn_to_page pfn) =? NULL).
Proof.
  cbv zeta.
  destruct (refresh_handle_spec true is_write s (blank_fh pfn))
    as (B0 & B1 & B2 & B3 & B4 & _ & _ & Hk & Hp & Hc).
  destruct (flags_as_bits (refresh_handle true is_write s (blank_fh pfn)))
    as (-> & -> & -> & -> & -> & _).
  by rewrite B0, B1, B2, B3, B4, Hk, Hp, Hc.
Qed.

(** [invalidate_page] with the handle in hand: the one call is
    [unmap_mapping_pages(mapping, index, 1, false)], on the replica when
    the handle is REPLICATED and on the original otherwise. *)
Lemma invalidate_page_run pfn e fh :
  handle_for e pfn = Some fh ->
  let pg := if is_REPLICATED fh
            then get_replica_opt (mem e) (original_page fh)
            else original_page fh in
  invalidate_page pfn e
  = with_mem (mm_call_log
                (Unmap_mapping_pages (mapping (page_at (mem e) pg))
                   (index (page_at (mem e) pg)) 1) (mem e))
      (emit (Invalidate_page pfn) e).
Proof.
  intros Hfh. unfold invalidate_page. by rewrite (fh_of_handle_for e pfn fh).
Qed.

(** [update_metadata] for a remote write clears both flags. *)
Lemma update_metadata_remote_write pfn e fh :
  handle_for e pfn = Some fh ->
  is_REMOTE fh = true -> is_NEEDWRITE fh = true ->
  update_metadata pfn e
  = with_mem (upd_page (original_page fh)
                (fun p => with_flags false false (PG_coherence p) p) (mem e))
      (emit (Update_metadata pfn) e).
Proof.
  intros Hfh Hrem Hw. unfold update_metadata.
  by rewrite (fh_of_handle_for e pfn fh), Hrem, Hw.
Qed.

(** The remote handler on a frame without a fault in progress, once a
    handle could be allocated, for a page that is not MODIFIED without
    SHARED, so that no writeback is selected: an INVALIDATE of a SHARED
    page unmaps it and clears its flags, any other request is only
    acknowledged (the invalid cell R, W, M, S included). *)
Lemma handler_without_writeback w msg e :
  is_request msg = true ->
  valid_order msg = true ->
  handle_for e (message_pfn e msg) = None ->
  handle_alloc_ok w = true ->
  let pfn := message_pfn e msg in
  let p0 := page_at (mem e) (pfn_to_page pfn) in
  let r := get_replica_opt (mem e) (pfn_to_page pfn) in
  let target := page_at (mem e) (if r =? NULL then pfn_to_page pfn else r) in
  let inv := (type (header msg) =? SWMC_KMSG_TYPE_INVALIDATE)
             && PG_shared p0
             && negb (negb (r =? NULL) && PG_modified p0) in
  PG_modified p0 && negb (PG_shared p0) = false ->
  let e' := snd (swmc_kmsg_handle_fetch_or_invalidate w (Some msg) e) in
  mem e'
  = (if inv
     then upd_page (pfn_to_page pfn)
            (fun p => with_flags false false (PG_coherence p) p)
            (mm_call_log
               (Unmap_mapping_pages (mapping target) (index target) 1)
               (mem e))
     else mem e)
  /\ events e'
     = events e
       ++ (if inv then [Invalidate_page pfn; Update_metadata pfn] else [])
       ++ [reply_to msg (ack_of (type (header msg)))]
  /\ handle_for e' pfn = None.
Proof.
  intros Hreq Hord Hnone Hok pfn p0 r target inv Hnwb e'.
  subst e' inv target r p0 pfn. rewrite handler_valid by done.
  rewrite start_remote_fresh by done.
  change (pfn_t_to_pfn (pfn_to_pfn_t
            (Z.shiftr (wrap64 (cxl_hdm_base e + cxl_hdm_offset (payload msg)))
               PAGE_SHIFT)))
    with (message_pfn e msg).
  set (pfn := message_pfn e msg) in *.
  set (p0 := page_at (mem e) (pfn_to_page pfn)) in *.
  set (W := type (header msg) =? SWMC_KMSG_TYPE_INVALIDATE).
  set (r := get_replica_opt (mem e) (pfn_to_page pfn)).
  cbn [negb].
  destruct (fresh_remote_handle W (mem e) pfn)
    as (Hk & Hpg & Hc & Hrem & Hw & HS & HM & HR).
  destruct (refresh_handle_spec true W (mem e) (blank_fh pfn))
    as (_ & _ & _ & _ & _ & _ & Hact & _).
  set (fh := refresh_handle true W (mem e) (blank_fh pfn)) in *.
  fold p0 in HS, HM. fold r in HR.
  assert (Hhead : handle_for (with_handle pfn fh e) pfn = Some fh)
    by (by apply handle_for_head).
  rewrite (serve_remote_own_handle w msg pfn _ fh Hhead Hrem Hc).
  destruct (remote_action_bits fh Hact Hrem) as (HWB & HINV & HUPD & H0).
  rewrite H0, HUPD, HINV, HWB, Hw, HS, HM, HR, Hnwb.
  set (e1 := with_handle pfn fh e) in *.
  assert (Hdel : forall x, faults x = faults e1 ->
                   handle_for (fh_del pfn x) pfn = None).
  { intros x Hx. rewrite (handle_for_faults _ (fh_del pfn e1)).
    - subst e1. by rewrite handle_for_del_head.
    - unfold fh_del, set_bucket, bucket. cbn [faults with_faults]. by rewrite Hx. }
  destruct W eqn:HW, (PG_shared p0) eqn:HS0, (PG_modified p0) eqn:HM0,
    (r =? NULL) eqn:HR0; try discriminate Hnwb;
    cbn [andb orb negb]; cbv iota zeta.
  all: try (split; [reflexivity|]; split; [reflexivity|]; by apply Hdel).
  all: rewrite (invalidate_page_run pfn e1 fh Hhead);
       rewrite (update_metadata_remote_write pfn _ fh
                  (Hhead : handle_for (with_mem _ (emit _ e1)) pfn = Some fh)
                  Hrem Hw);
       rewrite HR, Hpg; cbn [negb]; cbv iota;
       (split; [reflexivity|]); split;
       [cbn [events emit with_mem fh_del set_bucket with_faults];
        by rewrite <- ?app_assoc|by apply Hdel].
Qed.

(** X17.  A remote INVALIDATE for a frame without a fault in progress, once the
    handler has its fault handle, on a page that needs no writeback (not
    MODIFIED without SHARED) and is not in the invalid cell (replica,
    MODIFIED, SHARED).  A SHARED page is unmapped, with one call
    [unmap_mapping_pages(mapping, index, 1)] on the replica if the page
    has one and on the page itself otherwise, whose mapping is not
    [NULL]; then its flags are cleared.  A page that is neither MODIFIED
    nor SHARED is left alone.  Either way the page ends neither MODIFIED
    nor SHARED, no other [struct page] changes, the INVALIDATE_ACK goes
    out last and no handle stays behind. *)
Theorem remote_invalidate_leaves_invalid w msg e :
  type (header msg) = SWMC_KMSG_TYPE_INVALIDATE ->
  valid_order msg = true ->
  handle_for e (message_pfn e msg) = None ->
  handle_alloc_ok w = true ->
  let pfn := message_pfn e msg in
  let p0 := page_at (mem e) (pfn_to_page pfn) in
  let r := get_replica_opt (mem e) (pfn_to_page pfn) in
  let target := page_at (mem e) (if r =? NULL then pfn_to_page pfn else r) in
  page_reads_RMS e pfn = false ->
  PG_modified p0 && negb (PG_shared p0) = false ->
  (PG_shared p0 = true -> mapping target <> NULL) ->
  let e' := snd (swmc_kmsg_handle_fetch_or_invalidate w (Some msg) e) in
  let p' := page_at (mem e') (pfn_to_page pfn) in
  PG_modified p' = false /\ PG_shared p' = false
  /\ PG_coherence p' = PG_coherence p0
  /\ (forall a, a <> pfn_to_page pfn -> page_at (mem e') a = page_at (mem e) a)
  /\ mm_calls (mem e')
     = mm_calls (mem e)
       ++ (if PG_shared p0
           then [Unmap_mapping_pages (mapping target) (index target) 1]
           else [])
  /\ events e'
     = events e
       ++ (if PG_shared p0
           then [Invalidate_page pfn; Update_metadata pfn] else [])
       ++ [reply_to msg SWMC_KMSG_TYPE_INVALIDATE_ACK]
  /\ handle_for e' pfn = None.
Proof.
  intros Hty Hord Hnone Hok pfn p0 r target Hrms Hnwb _ e' p'.
  assert (Hreq : is_request msg = true).
  { unfold is_request. rewrite Hty. reflexivity. }
  destruct (handler_without_writeback w msg e Hreq Hord Hnone Hok Hnwb)
    as (Hmem & Hev & Hh).
  fold pfn p0 r target e' in Hmem, Hev, Hh.
  rewrite Hty in Hmem, Hev.
  change (SWMC_KMSG_TYPE_INVALIDATE =? SWMC_KMSG_TYPE_INVALIDATE)
    with true in *.
  change (ack_of SWMC_KMSG_TYPE_INVALIDATE)
    with SWMC_KMSG_TYPE_INVALIDATE_ACK in Hev.
  unfold page_reads_RMS in Hrms. fold pfn p0 r in Hrms.
  assert (Hinv : true && PG_shared p0 && negb (negb (r =? NULL) && PG_modified p0)
                 = PG_shared p0).
  { destruct (PG_shared p0), (PG_modified p0), (r =? NULL);
      try discriminate Hrms; reflexivity. }
  rewrite Hinv in Hmem, Hev. subst p'. rewrite Hmem, Hev.
  destruct (PG_shared p0) eqn:HS.
  - rewrite ReplicationFacts.page_at_upd_eq. cbn [PG_modified PG_shared
      PG_coherence with_flags].
    repeat split; try done.
    intros a Ha. by rewrite ReplicationFacts.page_at_upd_ne.
  - cbn [negb] in Hnwb. rewrite andb_true_r in Hnwb.
    rewrite app_nil_r. done.
Qed.

Lemma remote_invalidate_leaves_invalid_witness :
  let pfn := message_pfn shared_engine winning_invalidate in
  let p0 := page_at (mem shared_engine) (pfn_to_page pfn) in
  let e' := snd (swmc_kmsg_handle_fetch_or_invalidate calm_world
                   (Some winning_invalidate) shared_engine) in
  let p' := page_at (mem e') (pfn_to_page pfn) in
  PG_shared p0 = true /\ mapping p0 = file_mapping
  /\ PG_modified p' = false /\ PG_shared p' = false
  /\ PG_coherence p' = PG_coherence p0
  /\ (forall a, a <> pfn_to_page pfn ->
        page_at (mem e') a = page_at (mem shared_engine) a)
  /\ mm_calls (mem e')
     = mm_calls (mem shared_engine) ++ [Unmap_mapping_pages file_mapping 3 1]
  /\ events e'
     = events shared_engine
       ++ [Invalidate_page pfn; Update_metadata pfn]
       ++ [reply_to winning_invalidate SWMC_KMSG_TYPE_INVALIDATE_ACK]
  /\ handle_for e' pfn = None.
Proof.
  split; [reflexivity|]. split; [reflexivity|].
  apply (remote_invalidate_leaves_invalid calm_world winning_invalidate
           shared_engine); try reflexivity.
  intros _. discriminate.
Defined.

(** X18.  A remote FETCH for a frame without a fault in progress, once the
    handler has its fault handle, on a page that is not MODIFIED without
    SHARED: no writeback is selected and the handler only acknowledges.
    The pool is left as it was, the FETCH_ACK is the one event, and no
    handle stays behind. *)
Theorem remote_fetch_without_writeback w msg e :
  type (header msg) = SWMC_KMSG_TYPE_FETCH ->
  valid_order msg = true ->
  handle_for e (message_pfn e msg) = None ->
  handle_alloc_ok w = true ->
  let pfn := message_pfn e msg in
  let p0 := page_at (mem e) (pfn_to_page pfn) in
  PG_modified p0 && negb (PG_shared p0) = false ->
  let e' := snd (swmc_kmsg_handle_fetch_or_invalidate w (Some msg) e) in
  mem e' = mem e
  /\ events e' = events e ++ [reply_to msg SWMC_KMSG_TYPE_FETCH_ACK]
  /\ handle_for e' pfn = None.
Proof.
  intros Hty Hord Hnone Hok pfn p0 Hnwb e'.
  assert (Hreq : is_request msg = true).
  { unfold is_request. rewrite Hty. reflexivity. }
  destruct (handler_without_writeback w msg e Hreq Hord Hnone Hok Hnwb)
    as (Hmem & Hev & Hh).
  fold pfn p0 e' in Hmem, Hev, Hh.
  rewrite Hty in Hmem, Hev.
  change (SWMC_KMSG_TYPE_FETCH =? SWMC_KMSG_TYPE_INVALIDATE) with false in *.
  change (ack_of SWMC_KMSG_TYPE_FETCH) with SWMC_KMSG_TYPE_FETCH_ACK in Hev.
  cbn [andb] in Hmem, Hev. done.
Qed.

Lemma remote_fetch_without_writeback_witness :
  let pfn := message_pfn shared_engine plain_fetch in
  let e' := snd (swmc_kmsg_handle_fetch_or_invalidate calm_world
                   (Some plain_fetch) shared_engine) in
  mem e' = mem shared_engine
  /\ events e'
     = events shared_engine ++ [reply_to plain_fetch SWMC_KMSG_TYPE_FETCH_ACK]
  /\ handle_for e' pfn = None.
Proof.
  apply (remote_fetch_without_writeback calm_world plain_fetch shared_engine);
    reflexivity.
Defined.

(** *** Refusals and priorities *)

Lemma start_remote_refusal w pfn iw c r l e e1 :
  __start_remote_fault_handling w pfn iw c r l e = (false, e1) -> e1 = e.
Proof.
  unfold __start_remote_fault_handling, __alloc_fault_handle.
  repeat case_match; by intros [= <-].
Qed.

Lemma ack_is_not_nack ty : ack_of ty <> nack_of ty.
Proof. unfold ack_of, nack_of. by case_match. Qed.

(** X19.  A request the handler refuses leaves no trace: whenever its reply is
    the NACK, the engine is as before but for that reply, and the return
    value is that of [swmc_kmsg_unicast]. *)
Theorem refused_request_changes_nothing w msg e :
  is_request msg = true ->
  valid_order msg = true ->
  replies (events (snd (swmc_kmsg_handle_fetch_or_invalidate w (Some msg) e)))
  = replies (events e) ++ [reply_to msg (nack_of (type (header msg)))] ->
  swmc_kmsg_handle_fetch_or_invalidate w (Some msg) e
  = (unicast_ret w, emit (reply_to msg (nack_of (type (header msg)))) e).
Proof.
  intros Hreq Hord. rewrite handler_valid by done.
  pose proof (start_remote_events w
    (pfn_to_pfn_t (Z.shiftr (wrap64 (cxl_hdm_base e + cxl_hdm_offset (payload msg)))
                     PAGE_SHIFT))
    (type (header msg) =? SWMC_KMSG_TYPE_INVALIDATE)
    (acked_fault_count (payload msg)) (from_nid (header msg))
    (to_nid (header msg)) e) as Hev.
  destruct (__start_remote_fault_handling _ _ _ _ _ _ _) as [got e1] eqn:Hstart.
  cbn [snd] in Hev. destruct got; cbn [negb].
  - rewrite serve_remote_replies, Hev. intros Hrep.
    apply app_inj_tail in Hrep as [_ Hrep]. injection Hrep as Hrep.
    by apply ack_is_not_nack in Hrep.
  - intros _. by rewrite (start_remote_refusal _ _ _ _ _ _ _ _ Hstart).
Qed.

Lemma refused_request_changes_nothing_witness :
  swmc_kmsg_handle_fetch_or_invalidate calm_world (Some tie_invalidate)
    writing_engine
  = (unicast_ret calm_world,
     emit (reply_to tie_invalidate (nack_of (type (header tie_invalidate))))
       writing_engine).
Proof.
  apply (refused_request_changes_nothing calm_world tie_invalidate
           writing_engine); reflexivity.
Defined.

(** X20.  A remote request that meets a local fault in progress, the two not
    both being writes: a remote read is refused when the local fault is a
    write and acknowledged when it is a read; a remote write against a
    local read is acknowledged and marks the local handle RETRY.  The
    local handle stays in the table, with no other flag changed. *)
Theorem remote_request_against_local_fault w msg e fh :
  is_request msg = true ->
  valid_order msg = true ->
  handle_for e (message_pfn e msg) = Some fh ->
  is_REMOTE fh = false ->
  type (header msg) = SWMC_KMSG_TYPE_FETCH \/ is_NEEDWRITE fh = false ->
  let e' := snd (swmc_kmsg_handle_fetch_or_invalidate w (Some msg) e) in
  let refused :=
    (type (header msg) =? SWMC_KMSG_TYPE_FETCH) && is_NEEDWRITE fh in
  replies (events e')
  = replies (events e)
    ++ [reply_to msg (if refused then nack_of (type (header msg))
                      else ack_of (type (header msg)))]
  /\ exists fh',
       handle_for e' (message_pfn e msg) = Some fh'
       /\ fh_flags fh'
          = (if type (header msg) =? SWMC_KMSG_TYPE_INVALIDATE
             then Z.lor (fh_flags fh) FH_STATE_RETRY else fh_flags fh).
Proof.
  intros Hreq Hord Hfh Hloc Hmix e' refused. subst e' refused.
  rewrite handler_valid by done.
  unfold __start_remote_fault_handling.
  change (pfn_t_to_pfn (pfn_to_pfn_t
            (Z.shiftr (wrap64 (cxl_hdm_base e + cxl_hdm_offset (payload msg)))
               PAGE_SHIFT)))
    with (message_pfn e msg).
  set (pfn := message_pfn e msg) in *.
  unfold handle_for in Hfh. rewrite Hfh, Hloc.
  unfold has_lower_priority.
  assert (Hty : type (header msg) = SWMC_KMSG_TYPE_FETCH
                \/ type (header msg) = SWMC_KMSG_TYPE_INVALIDATE).
  { unfold is_request in Hreq. apply orb_true_iff in Hreq.
    destruct Hreq as [H|H]; apply Z.eqb_eq in H; [by left|by right]. }
  destruct Hty as [Hty|Hty]; rewrite Hty;
    change (SWMC_KMSG_TYPE_FETCH =? SWMC_KMSG_TYPE_INVALIDATE) with false;
    change (SWMC_KMSG_TYPE_FETCH =? SWMC_KMSG_TYPE_FETCH) with true;
    change (SWMC_KMSG_TYPE_INVALIDATE =? SWMC_KMSG_TYPE_INVALIDATE) with true;
    change (SWMC_KMSG_TYPE_INVALIDATE =? SWMC_KMSG_TYPE_FETCH) with false;
    cbn [negb andb].
  - destruct (is_NEEDWRITE fh) eqn:Hw; cbn [negb snd].
    + split; [by rewrite replies_emit|].
      exists fh. split; [|done].
      by rewrite (handle_for_faults _ e).
    + split; [rewrite serve_remote_replies, Hty; reflexivity|].
      by apply serve_remote_keeps_local.
  - destruct Hmix as [Hmix|Hw]; [rewrite Hty in Hmix; discriminate Hmix|].
    rewrite Hw. cbn [negb snd andb].
    assert (Hretry : handle_for (fh_upd pfn (set_flag FH_STATE_RETRY) e) pfn
                     = Some (set_flag FH_STATE_RETRY fh)).
    { rewrite handle_for_fh_upd by done. unfold handle_for. by rewrite Hfh. }
    split; [rewrite serve_remote_replies, Hty; reflexivity|].
    apply (serve_remote_keeps_local w msg pfn _ _ Hretry).
    unfold is_REMOTE in *. by rewrite is_flag_set_other.
Qed.

Lemma remote_request_against_local_fault_witness :
  let e' := snd (swmc_kmsg_handle_fetch_or_invalidate calm_world
                   (Some plain_fetch) writing_engine) in
  let refused :=
    (type (header plain_fetch) =? SWMC_KMSG_TYPE_FETCH)
    && is_NEEDWRITE writer_handle in
  replies (events e')
  = replies (events writing_engine)
    ++ [reply_to plain_fetch
          (if refused then nack_of (type (header plain_fetch))
           else ack_of (type (header plain_fetch)))]
  /\ exists fh',
       handle_for e' (message_pfn writing_engine plain_fetch) = Some fh'
       /\ fh_flags fh'
          = (if type (header plain_fetch) =? SWMC_KMSG_TYPE_INVALIDATE
             then Z.lor (fh_flags writer_handle) FH_STATE_RETRY
             else fh_flags writer_handle).
Proof.
  apply (remote_request_against_local_fault calm_world plain_fetch
           writing_engine writer_handle); try reflexivity.
  left. reflexivity.
Defined.

(** *** Properties of the fault table kept by every step

    A property of the engine that depends on the fault table only and
    survives the three operations on the handle of [pfn] survives a
    whole request and a whole fault on [pfn]. *)

Section TableProperty.

Variable pfn : Z.
Variable P : engine -> Prop.

Hypothesis P_faults : forall e1 e2, faults e1 = faults e2 -> P e1 -> P e2.
Hypothesis P_upd :
  forall f e, (forall x, original_pfn_val (f x) = original_pfn_val x) ->
              P e -> P (fh_upd pfn f e).
Hypothesis P_del : forall e, P e -> P (fh_del pfn e).
Hypothesis P_alloc :
  forall e, handle_for e pfn = None -> P e ->
            P (set_bucket (__fault_hash_key pfn)
                 (blank_fh pfn :: bucket e (__fault_hash_key pfn)) e).

Lemma start_remote_keeps w original_pfn iw c r l e :
  pfn_t_to_pfn original_pfn = pfn -> P e ->
  P (snd (__start_remote_fault_handling w original_pfn iw c r l e)).
Proof.
  intros Hpfn HP. unfold __start_remote_fault_handling. rewrite Hpfn.
  destruct (find_fh pfn (bucket e (__fault_hash_key pfn))) as [fh|] eqn:Hfind.
  - repeat case_match; cbn [snd]; try done. by apply P_upd.
  - unfold __alloc_fault_handle. destruct (handle_alloc_ok w); cbn [snd]; [|done].
    apply P_upd; [intros x; apply refresh_handle_key|].
    by apply P_alloc.
Qed.

Lemma finish_remote_keeps e :
  P e -> P (snd (__finish_remote_fault_handling pfn e)).
Proof.
  intros HP. unfold __finish_remote_fault_handling.
  repeat case_match; cbn [snd]; try done.
  - apply P_upd; [done|]. by apply (P_faults e).
  - by apply P_del.
Qed.

Lemma serve_remote_keeps w msg e :
  P e -> P (snd (serve_remote_fault w msg pfn e)).
Proof.
  intros HP. unfold serve_remote_fault.
  destruct (fh_action (fh_of e pfn) =? 0); cbn [snd].
  - apply finish_remote_keeps. by apply (P_faults e).
  - cbv zeta.
    match goal with
    | |- context [emit (reply_to msg _) ?e2] => remember e2 as e3 eqn:Hdef
    end.
    assert (faults e3 = faults e) as He3.
    { subst e3. repeat case_match;
        rewrite ?update_metadata_faults, ?invalidate_page_faults,
          ?writeback_page_faults; reflexivity. }
    clear Hdef.
    assert (HP3 : P (emit (reply_to msg (ack_of (type (header msg)))) e3))
      by (by apply (P_faults e)).
    destruct (find_fh _ _); cbn [snd]; [|done].
    by apply finish_remote_keeps.
Qed.

Lemma handler_keeps w msg e :
  (forall m, msg = Some m -> message_pfn e m = pfn) ->
  P e -> P (snd (swmc_kmsg_handle_fetch_or_invalidate w msg e)).
Proof.
  intros Hpfn HP. destruct msg as [m|]; [|done].
  specialize (Hpfn m eq_refl).
  unfold swmc_kmsg_handle_fetch_or_invalidate.
  destruct (_ && _); [done|]. cbv zeta.
  destruct (negb _); [done|].
  pose proof (start_remote_keeps w
    (pfn_to_pfn_t (Z.shiftr (wrap64 (cxl_hdm_base e + cxl_hdm_offset (payload m)))
                     PAGE_SHIFT))
    (type (header m) =? SWMC_KMSG_TYPE_INVALIDATE)
    (acked_fault_count (payload m)) (from_nid (header m))
    (to_nid (header m)) e Hpfn HP) as Hstart.
  destruct (__start_remote_fault_handling _ _ _ _ _ _ _) as [got e1].
  cbn [snd] in Hstart.
  change (pfn_t_to_pfn (pfn_to_pfn_t
            (Z.shiftr (wrap64 (cxl_hdm_base e + cxl_hdm_offset (payload m)))
               PAGE_SHIFT)))
    with (message_pfn e m).
  rewrite Hpfn.
  destruct got; cbn [negb snd].
  - by apply serve_remote_keeps.
  - by apply (P_faults e1).
Qed.

Variable w : world.
Hypothesis P_waiting : forall e, P e -> P (while_waiting w e).
Hypothesis P_asleep : forall e e', P e -> while_asleep w e = Some e' -> P e'.

Lemma start_local_keeps original_pfn write e :
  pfn_t_to_pfn original_pfn = pfn -> P e ->
  match __start_local_fault_handling w original_pfn write e with
  | Handle e' | No_handle e' | Asleep e' => P e'
  end.
Proof.
  intros Hpfn HP. unfold __start_local_fault_handling. rewrite Hpfn.
  destruct (find_fh pfn (bucket e (__fault_hash_key pfn))) as [fh|] eqn:Hfind.
  - assert (HP1 : P (fh_upd pfn (with_complete true) e)) by (by apply P_upd).
    destruct (while_asleep w _) as [e1|] eqn:Hsleep; [|done].
    pose proof (P_asleep _ _ HP1 Hsleep) as HP2.
    destruct (is_NEEDWRITE (fh_of e1 pfn)); [by apply P_del|].
    apply P_upd; [intros x; apply refresh_handle_key|done].
  - unfold __alloc_fault_handle. destruct (handle_alloc_ok w); [|done].
    apply P_upd; [intros x; apply refresh_handle_key|].
    by apply P_alloc.
Qed.

Lemma emit_n_faults n evs e : faults (emit_n n evs e) = faults e.
Proof.
  assert (Hfold : forall x,
            faults (fold_left (fun e1 ev => emit ev e1) evs x) = faults x).
  { induction evs as [|ev evs IHe]; intros x; [reflexivity|].
    cbn [fold_left]. by rewrite IHe. }
  unfold emit_n. induction n as [|n IH]; [reflexivity|].
  rewrite Nat.iter_succ. by rewrite Hfold.
Qed.

Lemma broadcast_loops_faults ty p e : faults (broadcast_loops w ty p e) = faults e.
Proof. unfold broadcast_loops. cbn [faults emit]. by rewrite !emit_n_faults. Qed.

Lemma broadcast_and_wait_keeps ty original_pfn order e :
  P e -> P (snd (broadcast_message_and_wait w ty original_pfn order e)).
Proof.
  intros HP. unfold broadcast_message_and_wait. cbv zeta.
  assert (P (while_waiting w
               (emit (Wait_at_station (station_id w))
                  (broadcast_loops w ty
                     (broadcast_payload original_pfn order e) e)))).
  { apply P_waiting. apply (P_faults e); [|done].
    cbn [faults emit]. by rewrite broadcast_loops_faults. }
  by repeat case_match.
Qed.

Lemma issue_transaction_keeps e :
  P e -> P (snd (issue_page_coherence_transaction w pfn e)).
Proof.
  intros HP. unfold issue_page_coherence_transaction. cbv zeta.
  match goal with
  | |- context [if ?c then broadcast_message_and_wait w SWMC_KMSG_TYPE_FETCH ?a 0 e
                else ?b] =>
      set (S1 := if c then broadcast_message_and_wait w SWMC_KMSG_TYPE_FETCH a 0 e
                 else b)
  end.
  assert (H1 : P (snd S1)).
  { subst S1. case_match; [by apply broadcast_and_wait_keeps|done]. }
  destruct S1 as [r1 e1]. cbn [snd] in H1.
  match goal with
  | |- context [if ?c
                then broadcast_message_and_wait w SWMC_KMSG_TYPE_INVALIDATE ?a 0 e1
                else ?b] =>
      set (S2 := if c
                 then broadcast_message_and_wait w SWMC_KMSG_TYPE_INVALIDATE a 0 e1
                 else b)
  end.
  assert (H2 : P (snd S2)).
  { subst S2. case_match; [by apply broadcast_and_wait_keeps|done]. }
  destruct S2 as [r2 e2]. cbn [snd] in H2.
  destruct (r2 =? - EAGAIN); [done|].
  destruct (negb (r2 =? 0)); [done|].
  destruct (_ && _); [|done].
  destruct (fetch_page_replica _ _) as [r3 m3].
  assert (P (emit (Fetch_page_replica pfn) (with_mem m3 e2)))
    by (by apply (P_faults e2)).
  by destruct (negb (r3 =? 0)).
Qed.

Lemma finish_local_fault_keeps original_pfn e :
  pfn_t_to_pfn original_pfn = pfn -> P e ->
  P (outcome_engine (finish_local_fault original_pfn e)).
Proof.
  intros Hpfn HP. unfold finish_local_fault. rewrite Hpfn. cbv zeta.
  set (e1 := if has_action FH_ACTION_UPDATE_METADATA (fh_of e pfn)
             then update_metadata pfn e else e).
  assert (H1 : P e1).
  { subst e1. case_match; [|done].
    apply (P_faults e); [|done]. by rewrite update_metadata_faults. }
  set (S2 := if is_REPLICATED (fh_of e1 pfn) then _ else _).
  assert (H2 : P (snd S2)).
  { subst S2. case_match; cbn [snd]; [|done]. by apply (P_faults e1). }
  destruct S2 as [pfn_out e2]. cbn [snd] in H2.
  unfold __finish_local_fault_handling.
  assert (H3 : P (fh_del pfn e2)) by (by apply P_del).
  case_match; cbn [outcome_engine]; [|done].
  by apply (P_faults (fh_del pfn e2)).
Qed.

Lemma fault_keeps original_pfn write filename e :
  pfn_t_to_pfn original_pfn = pfn -> P e ->
  P (outcome_engine (page_coherence_fault w original_pfn write filename e)).
Proof.
  intros Hpfn HP. unfold page_coherence_fault.
  destruct (negb (fault_is_handled original_pfn filename e)); [done|].
  assert (HP0 : P (count_fault write e)) by (by apply (P_faults e)).
  pose proof (start_local_keeps original_pfn write _ Hpfn HP0) as Hstart.
  destruct (__start_local_fault_handling _ _ _ _) as [e1|e1|e1]; try done.
  rewrite Hpfn.
  assert (HP1 : P (set_page_coherence pfn e1)) by (by apply (P_faults e1)).
  revert HP1. generalize (set_page_coherence pfn e1). clear HP0 Hstart HP e1 e.
  intros e HP. unfold serve_local_fault. rewrite Hpfn. cbv zeta.
  assert (Hdel : forall x, P x ->
                   P (snd (__finish_local_fault_handling pfn x)))
    by (intros x Hx; by apply P_del).
  destruct (fh_action (fh_of e pfn) =? FH_ACTION_INVALID);
    [by apply Hdel|].
  set (e1 := if has_action FH_ACTION_WAIT_FOR_ASYNC_TRANSACTION (fh_of e pfn)
             then _ else e).
  assert (H1 : P e1).
  { subst e1. case_match; [|done]. by apply (P_faults e). }
  clearbody e1.
  destruct (_ || _).
  - pose proof (issue_transaction_keeps e1 H1) as H2.
    destruct (issue_page_coherence_transaction w pfn e1) as [ret e2].
    cbn [snd] in H2.
    destruct (negb (ret =? 0)); [by apply Hdel|].
    apply finish_local_fault_keeps; [done|]. by apply (P_faults e2).
  - destruct (has_action FH_ACTION_ISSUE_ASYNC_TRANSACTION (fh_of e1 pfn)).
    + unfold issue_page_coherence_transaction_async, broadcast_message.
      cbn [negb Z.eqb]. cbv iota.
      apply finish_local_fault_keeps; [done|].
      apply (P_faults e1); [|done].
      cbn [faults inc_in_flight]. by rewrite broadcast_loops_faults.
    + by apply finish_local_fault_keeps.
Qed.

End TableProperty.

(** *** The table stays well formed *)

Lemma keys_update_first pfn f b :
  (forall x, original_pfn_val (f x) = original_pfn_val x) ->
  original_pfn_val <$> update_first pfn f b = original_pfn_val <$> b.
Proof.
  intros Hf. induction b as [|fh b IH]; [reflexivity|].
  cbn [update_first]. destruct (original_pfn_val fh =? pfn);
    cbn [fmap list_fmap]; [by rewrite Hf|]. by f_equal.
Qed.

Lemma table_ok_set_bucket fk b e :
  table_ok e ->
  NoDup (original_pfn_val <$> b) ->
  Forall (fun fh => __fault_hash_key (original_pfn_val fh) = fk) b ->
  table_ok (set_bucket fk b e).
Proof.
  intros Hok Hnd Hkeys fk' b' Hb'. unfold set_bucket in Hb'.
  cbn [faults with_faults] in Hb'.
  destruct (decide (fk = fk')) as [->|Hne].
  - rewrite lookup_insert_eq in Hb'. by simplify_eq.
  - rewrite lookup_insert_ne in Hb' by done. by apply Hok.
Qed.

Lemma table_ok_bucket e fk :
  table_ok e ->
  NoDup (original_pfn_val <$> bucket e fk)
  /\ Forall (fun fh => __fault_hash_key (original_pfn_val fh) = fk) (bucket e fk).
Proof.
  intros Hok. unfold bucket.
  destruct (faults e !! fk) as [b|] eqn:Hb; cbn [default].
  - by apply Hok.
  - split; constructor.
Qed.

Lemma table_ok_faults e1 e2 : faults e1 = faults e2 -> table_ok e1 -> table_ok e2.
Proof. unfold table_ok. by intros ->. Qed.

Lemma table_ok_upd pfn f e :
  (forall x, original_pfn_val (f x) = original_pfn_val x) ->
  table_ok e -> table_ok (fh_upd pfn f e).
Proof.
  intros Hf Hok. unfold fh_upd.
  destruct (table_ok_bucket e (__fault_hash_key pfn) Hok) as [Hnd Hkeys].
  apply table_ok_set_bucket; [done| |].
  - by rewrite keys_update_first.
  - clear Hnd. induction Hkeys as [|fh b Hfh Hb IH]; [constructor|].
    cbn [update_first]. destruct (original_pfn_val fh =? pfn).
    + apply Forall_cons. by rewrite Hf.
    + by apply Forall_cons.
Qed.

Lemma remove_first_sublist pfn b : sublist (remove_first pfn b) b.
Proof.
  induction b as [|fh b IH]; [constructor|].
  cbn [remove_first]. destruct (original_pfn_val fh =? pfn).
  - by apply sublist_cons.
  - by apply sublist_skip.
Qed.

Lemma table_ok_del pfn e : table_ok e -> table_ok (fh_del pfn e).
Proof.
  intros Hok. unfold fh_del.
  destruct (table_ok_bucket e (__fault_hash_key pfn) Hok) as [Hnd Hkeys].
  pose proof (remove_first_sublist pfn (bucket e (__fault_hash_key pfn))) as Hsub.
  apply table_ok_set_bucket; [done| |].
  - eapply sublist_NoDup; [exact Hnd|]. by apply fmap_sublist.
  - clear Hnd Hsub. induction Hkeys as [|fh b Hfh Hb IH]; [constructor|].
    cbn [remove_first]. destruct (original_pfn_val fh =? pfn); [done|].
    by apply Forall_cons.
Qed.

Lemma find_fh_none pfn b :
  find_fh pfn b = None -> pfn ∉ (original_pfn_val <$> b).
Proof.
  induction b as [|fh b IH]; [intros _; apply not_elem_of_nil|].
  unfold find_fh. cbn [find fmap list_fmap].
  destruct (Z.eqb_spec (original_pfn_val fh) pfn) as [->|Hne]; [done|].
  intros H. apply not_elem_of_cons. split; [done|]. by apply IH.
Qed.

Lemma table_ok_alloc pfn e :
  handle_for e pfn = None -> table_ok e ->
  table_ok (set_bucket (__fault_hash_key pfn)
              (blank_fh pfn :: bucket e (__fault_hash_key pfn)) e).
Proof.
  intros Hnone Hok.
  destruct (table_ok_bucket e (__fault_hash_key pfn) Hok) as [Hnd Hkeys].
  apply table_ok_set_bucket; [done| |].
  - cbn [fmap list_fmap blank_fh original_pfn_val]. apply NoDup_cons.
    split; [|done]. by apply find_fh_none.
  - by apply Forall_cons.
Qed.

(** X21.  The fault table stays well formed through every request and every
    fault: the handler and [page_coherence_fault] leave a table in which
    a frame has at most one handle, in the bucket of the frame.  The
    fault is taken in a world whose other threads keep the table well
    formed while it sleeps or waits. *)
Theorem table_stays_well_formed e :
  table_ok e ->
  (forall w msg,
     table_ok (snd (swmc_kmsg_handle_fetch_or_invalidate w msg e)))
  /\ (forall w original_pfn write filename,
        (forall x, table_ok x -> table_ok (while_waiting w x)) ->
        (forall x y, table_ok x -> while_asleep w x = Some y -> table_ok y) ->
        table_ok (outcome_engine
                    (page_coherence_fault w original_pfn write filename e))).
Proof.
  intros Hok. split.
  - intros w [m|]; [|done].
    apply (handler_keeps (message_pfn e m) table_ok table_ok_faults
             (table_ok_upd _) (table_ok_del _) (table_ok_alloc _));
      [by intros ? [= ->]|done].
  - intros w original_pfn write filename Hwait Hsleep.
    by apply (fault_keeps (pfn_t_to_pfn original_pfn) table_ok table_ok_faults
                (table_ok_upd _) (table_ok_del _) (table_ok_alloc _)
                w Hwait Hsleep).
Qed.

Lemma table_stays_well_formed_witness :
  (forall w msg,
     table_ok (snd (swmc_kmsg_handle_fetch_or_invalidate w msg writing_engine)))
  /\ (forall w original_pfn write filename,
        (forall x, table_ok x -> table_ok (while_waiting w x)) ->
        (forall x y, table_ok x -> while_asleep w x = Some y -> table_ok y) ->
        table_ok (outcome_engine
                    (page_coherence_fault w original_pfn write filename
                       writing_engine))).
Proof.
  apply (table_stays_well_formed writing_engine).
  intros fk b Hb. change (faults writing_engine)
    with ({[ __fault_hash_key 2 := [writer_handle] ]}
          : gmap Z (list fault_handle)) in Hb.
  apply lookup_singleton_Some in Hb as [<- <-].
  split; repeat constructor. intros Hin. inversion Hin.
Defined.

(** *** A NACK at the wait station: the error code and the handle *)

Lemma find_fh_absent pfn b :
  pfn ∉ (original_pfn_val <$> b) -> find_fh pfn b = None.
Proof.
  induction b as [|fh b IH]; [done|].
  cbn [fmap list_fmap]. intros Hnot.
  apply not_elem_of_cons in Hnot as [Hne Hnot].
  unfold find_fh. cbn [find].
  destruct (Z.eqb_spec (original_pfn_val fh) pfn) as [Heq|_]; [congruence|].
  by apply IH.
Qed.

(** In a well-formed table the handle of a frame is the only one: once
    it is unlinked the frame has none. *)
Lemma handle_for_del_only pfn e :
  table_ok e -> handle_for (fh_del pfn e) pfn = None.
Proof.
  intros Hok. unfold handle_for, fh_del. rewrite bucket_set_bucket.
  destruct (table_ok_bucket e (__fault_hash_key pfn) Hok) as [Hnd _].
  induction (bucket e (__fault_hash_key pfn)) as [|fh b IH]; [done|].
  cbn [fmap list_fmap] in Hnd. apply NoDup_cons in Hnd as [Hnot Hnd].
  cbn [remove_first].
  destruct (Z.eqb_spec (original_pfn_val fh) pfn) as [Heq|Hne].
  - apply find_fh_absent. by rewrite <- Heq.
  - unfold find_fh. cbn [find].
    destruct (Z.eqb_spec (original_pfn_val fh) pfn) as [Heq|_]; [done|].
    by apply IH.
Qed.

(** C4, amended.  When a local fault issues its synchronous transaction
    and the wait at the station ends in a NACK ([wait_at_station]
    returns [(void * )-1]), [page_coherence_fault] returns [-EAGAIN], a
    negative errno and not [VM_FAULT_RETRY], with the frame number it
    was given.  On the way out it unlinks its handle: in a table that
    was well formed on entry, and that the other threads keep well
    formed while the fault sleeps or waits, the frame has no handle
    afterwards. *)
Theorem nacked_transaction_returns_eagain w original_pfn write filename e e1 :
  fault_is_handled original_pfn filename e = true ->
  __start_local_fault_handling w original_pfn write (count_fault write e)
  = Handle e1 ->
  issues_sync_transaction (fh_of e1 (pfn_t_to_pfn original_pfn))
    (nr_in_flight_transactions e1) = true ->
  wait_result w = -1 ->
  exists e',
    page_coherence_fault w original_pfn write filename e
    = Returned (- EAGAIN) original_pfn e'
    /\ - EAGAIN < 0
    /\ - EAGAIN <> VM_FAULT_RETRY
    /\ (table_ok e ->
        (forall x, table_ok x -> table_ok (while_waiting w x)) ->
        (forall x y, table_ok x -> while_asleep w x = Some y -> table_ok y) ->
        handle_for e' (pfn_t_to_pfn original_pfn) = None).
Proof.
  intros Hin Hstart Hsync Hn. unfold page_coherence_fault.
  rewrite Hin, Hstart. cbn [negb].
  set (pfn := pfn_t_to_pfn original_pfn) in *.
  unfold issues_sync_transaction in Hsync.
  apply andb_true_iff in Hsync as [Hsync Hwant].
  apply andb_true_iff in Hsync as [Hact Hpath].
  unfold serve_local_fault. fold pfn.
  set (e2 := set_page_coherence pfn e1).
  assert (Hfh : forall e3, faults e3 = faults e1 -> fh_of e3 pfn = fh_of e1 pfn)
    by (intros e3 He3; by apply fh_of_faults).
  rewrite (Hfh e2) by reflexivity.
  apply negb_true_iff in Hact. rewrite Hact.
  set (e3 := if has_action FH_ACTION_WAIT_FOR_ASYNC_TRANSACTION (fh_of e1 pfn)
             then emit (Msleep 100) (emit (Wait_for_async pfn) e2) else e2).
  assert (He3 : faults e3 = faults e1) by (subst e3; by case_match).
  assert (Hnr : nr_in_flight_transactions e3 = nr_in_flight_transactions e1)
    by (subst e3; by case_match).
  rewrite (Hfh e3), Hnr, Hpath by done.
  pose proof (issue_transaction_nacked w pfn e3 Hn) as Hret.
  rewrite (Hfh e3) in Hret by done. specialize (Hret Hwant).
  assert (Hkeep : table_ok e ->
            (forall x, table_ok x -> table_ok (while_waiting w x)) ->
            (forall x y, table_ok x -> while_asleep w x = Some y -> table_ok y) ->
            table_ok (snd (issue_page_coherence_transaction w pfn e3))).
  { intros Hok Hwait Hsleep.
    assert (Hok0 : table_ok (count_fault write e))
      by (by apply (table_ok_faults e)).
    pose proof (start_local_keeps pfn table_ok (table_ok_upd _) (table_ok_del _)
                  (table_ok_alloc _) w Hsleep original_pfn write _
                  eq_refl Hok0) as Hok1.
    rewrite Hstart in Hok1.
    apply (issue_transaction_keeps pfn table_ok table_ok_faults w Hwait).
    by apply (table_ok_faults e1). }
  destruct (issue_page_coherence_transaction w pfn e3) as [ret e4].
  cbn [fst] in Hret. cbn [snd] in Hkeep. subst ret.
  cbn [negb Z.eqb EAGAIN Z.opp]. eexists. split; [reflexivity|].
  split; [done|]. split; [done|].
  intros Hok Hwait Hsleep. cbn [__finish_local_fault_handling snd].
  apply handle_for_del_only. by apply Hkeep.
Qed.

Lemma nacked_transaction_returns_eagain_witness :
  fault_is_handled 5 "data" idle_engine = true
  /\ wait_result nacking_world = -1
  /\ table_ok idle_engine
  /\ exists e',
       page_coherence_fault nacking_world 5 true "data" idle_engine
       = Returned (- EAGAIN) 5 e'
       /\ handle_for e' (pfn_t_to_pfn 5) = None.
Proof.
  assert (Hok : table_ok idle_engine).
  { intros fk b Hb. change (faults idle_engine) with (∅ : gmap Z (list fault_handle)) in Hb.
    by rewrite lookup_empty in Hb. }
  split; [reflexivity|]. split; [reflexivity|]. split; [exact Hok|].
  destruct (nacked_transaction_returns_eagain nacking_world 5 true "data"
              idle_engine _ eq_refl eq_refl eq_refl eq_refl)
    as (e' & Hret & _ & _ & Hdel).
  exists e'. split; [exact Hret|].
  apply Hdel; [exact Hok| |].
  - intros x Hx. exact Hx.
  - intros x y Hx [= <-]. exact Hx.
Defined.

(** *** Other frames are left alone *)

Lemma find_fh_update_first_ne pfn q f b :
  (forall x, original_pfn_val (f x) = original_pfn_val x) -> q <> pfn ->
  find_fh q (update_first pfn f b) = find_fh q b.
Proof.
  intros Hf Hne. induction b as [|fh b IH]; [reflexivity|].
  unfold find_fh in *. cbn [update_first].
  destruct (Z.eqb_spec (original_pfn_val fh) pfn) as [Hk|Hk]; cbn [find].
  - rewrite Hf, Hk. by destruct (Z.eqb_spec pfn q).
  - by rewrite IH.
Qed.

Lemma find_fh_remove_first_ne pfn q b :
  q <> pfn -> find_fh q (remove_first pfn b) = find_fh q b.
Proof.
  intros Hne. induction b as [|fh b IH]; [reflexivity|].
  unfold find_fh in *. cbn [remove_first].
  destruct (Z.eqb_spec (original_pfn_val fh) pfn) as [Hk|Hk]; cbn [find].
  - rewrite Hk. by destruct (Z.eqb_spec pfn q).
  - by rewrite IH.
Qed.

Lemma handle_for_set_bucket q fk b e :
  (fk = __fault_hash_key q -> find_fh q b = handle_for e q) ->
  handle_for (set_bucket fk b e) q = handle_for e q.
Proof.
  intros Hb. unfold handle_for at 1, bucket, set_bucket.
  cbn [faults with_faults].
  destruct (decide (fk = __fault_hash_key q)) as [Heq|Hne].
  - subst fk. rewrite lookup_insert_eq. cbn [default]. by apply Hb.
  - by rewrite lookup_insert_ne.
Qed.

(** X22.  A request or a fault on one frame never touches the handle of
    another frame, the frames that share its hash bucket included.  The
    fault is taken in a world whose other threads leave that handle alone
    while it sleeps or waits. *)
Theorem other_frames_untouched e q :
  (forall w m,
     message_pfn e m <> q ->
     handle_for (snd (swmc_kmsg_handle_fetch_or_invalidate w (Some m) e)) q
     = handle_for e q)
  /\ (forall w original_pfn write filename,
        pfn_t_to_pfn original_pfn <> q ->
        (forall x, handle_for (while_waiting w x) q = handle_for x q) ->
        (forall x y, while_asleep w x = Some y ->
                     handle_for y q = handle_for x q) ->
        handle_for (outcome_engine
                      (page_coherence_fault w original_pfn write filename e)) q
        = handle_for e q).
Proof.
  set (P := fun x => handle_for x q = handle_for e q).
  assert (Hfaults : forall e1 e2, faults e1 = faults e2 -> P e1 -> P e2).
  { intros e1 e2 Heq H1. unfold P. by rewrite <- (handle_for_faults e1 e2). }
  assert (Hupd : forall pfn, pfn <> q ->
            forall f x, (forall y, original_pfn_val (f y) = original_pfn_val y) ->
                        P x -> P (fh_upd pfn f x)).
  { intros pfn Hne f x Hf Hx. unfold P, fh_upd. rewrite <- Hx.
    apply handle_for_set_bucket. intros Hk. unfold handle_for. rewrite <- Hk.
    by apply find_fh_update_first_ne. }
  assert (Hdel : forall pfn, pfn <> q -> forall x, P x -> P (fh_del pfn x)).
  { intros pfn Hne x Hx. unfold P, fh_del. rewrite <- Hx.
    apply handle_for_set_bucket. intros Hk. unfold handle_for. rewrite <- Hk.
    by apply find_fh_remove_first_ne. }
  assert (Halloc : forall pfn, pfn <> q ->
            forall x, handle_for x pfn = None -> P x ->
              P (set_bucket (__fault_hash_key pfn)
                   (blank_fh pfn :: bucket x (__fault_hash_key pfn)) x)).
  { intros pfn Hne x _ Hx. unfold P. rewrite <- Hx.
    apply handle_for_set_bucket. intros Hk. unfold handle_for. rewrite <- Hk.
    unfold find_fh. cbn [find blank_fh original_pfn_val].
    by destruct (Z.eqb_spec pfn q). }
  split.
  - intros w m Hne.
    apply (handler_keeps (message_pfn e m) P Hfaults (Hupd _ Hne) (Hdel _ Hne)
             (Halloc _ Hne)); [by intros ? [= ->]|done].
  - intros w original_pfn write filename Hne Hwait Hsleep.
    apply (fault_keeps (pfn_t_to_pfn original_pfn) P Hfaults (Hupd _ Hne)
             (Hdel _ Hne) (Halloc _ Hne) w); try done.
    + intros x Hx. unfold P. by rewrite Hwait.
    + intros x y Hx Hy. unfold P. by rewrite (Hsleep x y Hy).
Qed.

(** *** Local faults on an Invalid page *)

Lemma emit_n_events n evs e :
  events (emit_n n evs e) = events e ++ concat (replicate n evs).
Proof.
  assert (Hfold : forall x,
            events (fold_left (fun e1 ev => emit ev e1) evs x) = events x ++ evs).
  { induction evs as [|ev evs IHe]; intros x; [by rewrite app_nil_r|].
    cbn [fold_left]. rewrite IHe. cbn [events emit].
    by rewrite <- app_assoc. }
  unfold emit_n. induction n as [|n IH]; [by rewrite app_nil_r|].
  rewrite Nat.iter_succ, Hfold, IH.
  rewrite <- app_assoc. f_equal.
  change (replicate (S n) evs) with (evs :: replicate n evs).
  cbn [concat].
  clear. induction n as [|n IH]; [by rewrite app_nil_r|].
  cbn [replicate concat]. by rewrite <- app_assoc, IH.
Qed.

Lemma broadcast_loops_events w ty p e :
  events (broadcast_loops w ty p e)
  = events e
    ++ concat (replicate (ws_failures w) [Msleep 10])
    ++ concat (replicate (broadcast_failures w)
                 [Broadcast ty (station_id w) p; Msleep 10])
    ++ [Broadcast ty (station_id w) p].
Proof.
  unfold broadcast_loops. cbn [events emit].
  by rewrite !emit_n_events, <- !app_assoc.
Qed.

Lemma emit_n_rest n evs e :
  mem (emit_n n evs e) = mem e
  /\ nr_in_flight_transactions (emit_n n evs e) = nr_in_flight_transactions e
  /\ cxl_hdm_base (emit_n n evs e) = cxl_hdm_base e
  /\ __local_acked_fault_count (emit_n n evs e) = __local_acked_fault_count e.
Proof.
  assert (Hfold : forall x,
            mem (fold_left (fun e1 ev => emit ev e1) evs x) = mem x
            /\ nr_in_flight_transactions
                 (fold_left (fun e1 ev => emit ev e1) evs x)
               = nr_in_flight_transactions x
            /\ cxl_hdm_base (fold_left (fun e1 ev => emit ev e1) evs x)
               = cxl_hdm_base x
            /\ __local_acked_fault_count
                 (fold_left (fun e1 ev => emit ev e1) evs x)
               = __local_acked_fault_count x).
  { induction evs as [|ev evs IHe]; intros x; [done|].
    cbn [fold_left]. by destruct (IHe (emit ev x)) as (-> & -> & -> & ->). }
  unfold emit_n. induction n as [|n IH]; [done|].
  rewrite Nat.iter_succ.
  destruct (Hfold (Nat.iter n
              (fun e0 => fold_left (fun e1 ev => emit ev e1) evs e0) e))
    as (-> & -> & -> & ->).
  exact IH.
Qed.

Lemma broadcast_loops_rest w ty p e :
  mem (broadcast_loops w ty p e) = mem e
  /\ nr_in_flight_transactions (broadcast_loops w ty p e)
     = nr_in_flight_transactions e
  /\ cxl_hdm_base (broadcast_loops w ty p e) = cxl_hdm_base e
  /\ __local_acked_fault_count (broadcast_loops w ty p e)
     = __local_acked_fault_count e.
Proof.
  unfold broadcast_loops.
  cbn [mem nr_in_flight_transactions cxl_hdm_base __local_acked_fault_count emit].
  destruct (emit_n_rest (broadcast_failures w)
              [Broadcast ty (station_id w) p; Msleep 10]
              (emit_n (ws_failures w) [Msleep 10] e)) as (-> & -> & -> & ->).
  apply emit_n_rest.
Qed.

Lemma fresh_local_handle is_write s pfn :
  let fh := refresh_handle false is_write s (blank_fh pfn) in
  original_pfn_val fh = pfn /\ original_page fh = pfn_to_page pfn
  /\ complete fh = false /\ is_REMOTE fh = false /\ is_RETRY fh = false
  /\ is_NEEDWRITE fh = is_write
  /\ is_SHARED fh = PG_shared (page_at s (pfn_to_page pfn))
  /\ is_MODIFIED fh = PG_modified (page_at s (pfn_to_page pfn))
  /\ is_REPLICATED fh = negb (get_replica_opt s (pfn_to_page pfn) =? NULL).
Proof.
  cbv zeta.
  destruct (refresh_handle_spec false is_write s (blank_fh pfn))
    as (B0 & B1 & B2 & B3 & B4 & B5 & _ & Hk & Hp & Hc).
  destruct (flags_as_bits (refresh_handle false is_write s (blank_fh pfn)))
    as (-> & -> & -> & -> & -> & ->).
  by rewrite B0, B1, B2, B3, B4, B5, Hk, Hp, Hc.
Qed.

(** X23.  A local write fault on a page that is Invalid here (neither MODIFIED
    nor SHARED, no replica) and has no fault in progress: the node
    broadcasts INVALIDATE for the frame, waits at the station, and once
    every peer has acknowledged marks the page MODIFIED and returns 0
    with [*pfn] unchanged.  The handle is gone and one more transaction
    counts as in flight. *)
Theorem local_write_fault_on_invalid_page w original_pfn filename e :
  fault_is_handled original_pfn filename e = true ->
  handle_for e (pfn_t_to_pfn original_pfn) = None ->
  handle_alloc_ok w = true ->
  (forall x, while_waiting w x = x) ->
  wait_result w = 0 ->
  let pfn := pfn_t_to_pfn original_pfn in
  let p0 := page_at (mem e) (pfn_to_page pfn) in
  PG_modified p0 = false -> PG_shared p0 = false ->
  get_replica_opt (mem e) (pfn_to_page pfn) = NULL ->
  let inv := Broadcast SWMC_KMSG_TYPE_INVALIDATE (station_id w)
               (broadcast_payload pfn 0 e) in
  exists e',
    page_coherence_fault w original_pfn true filename e
    = Returned 0 original_pfn e'
    /\ PG_modified (page_at (mem e') (pfn_to_page pfn)) = true
    /\ PG_shared (page_at (mem e') (pfn_to_page pfn)) = false
    /\ PG_coherence (page_at (mem e') (pfn_to_page pfn)) = true
    /\ handle_for e' pfn = None
    /\ nr_in_flight_transactions e' = nr_in_flight_transactions e + 1
    /\ events e'
       = events e
         ++ concat (replicate (ws_failures w) [Msleep 10])
         ++ concat (replicate (broadcast_failures w) [inv; Msleep 10])
         ++ [inv; Wait_at_station (station_id w); Update_metadata pfn].
Proof.
  intros Hin Hnone Hok Hquiet Hwait pfn p0 HM HS HR inv.
  subst inv p0. unfold page_coherence_fault. rewrite Hin. cbn [negb].
  rewrite start_local_fresh by done. fold pfn.
  change (mem (count_fault true e)) with (mem e).
  destruct (fresh_local_handle true (mem e) pfn)
    as (Hk & Hpg & Hc & Hrem & Hretry & Hw & HfS & HfM & HfR).
  pose proof (refresh_handle_action false true (mem e) (blank_fh pfn)) as Hact.
  cbn [original_page blank_fh] in Hact.
  rewrite HS, HM, HR in Hact. rewrite HS in HfS. rewrite HM in HfM.
  rewrite HR in HfR.
  change (negb (NULL =? NULL)) with false in Hact, HfR.
  match type of Hact with
  | _ = ?rhs => let v := eval vm_compute in rhs in change rhs with v in Hact
  end.
  set (fh := refresh_handle false true (mem e) (blank_fh pfn)) in *.
  set (e1 := set_page_coherence pfn (with_handle pfn fh (count_fault true e))).
  assert (Hfh : forall x, faults x = faults e1 -> fh_of x pfn = fh).
  { intros x Hx.
    rewrite (fh_of_faults x (with_handle pfn fh (count_fault true e)))
      by done.
    apply fh_of_handle_for. by apply handle_for_head. }
  assert (HbW : has_action FH_ACTION_WAIT_FOR_ASYNC_TRANSACTION fh = false)
    by (unfold has_action; by rewrite Hact).
  assert (HbS : has_action FH_ACTION_ISSUE_SYNC_TRANSACTION fh = true)
    by (unfold has_action; by rewrite Hact).
  assert (HbU : has_action FH_ACTION_UPDATE_METADATA fh = true)
    by (unfold has_action; by rewrite Hact).
  unfold serve_local_fault. fold pfn. rewrite (Hfh e1 eq_refl).
  rewrite Hact. change (19 =? FH_ACTION_INVALID) with false. cbv zeta iota.
  rewrite HbW, (Hfh e1 eq_refl), HbS. cbn [orb].
  unfold issue_page_coherence_transaction. cbv zeta.
  rewrite (Hfh e1 eq_refl), Hw, HfM. cbn [negb andb].
  unfold broadcast_message_and_wait. cbv zeta.
  rewrite Hquiet, Hwait. cbn [Z.eqb Z.leb Z.ltb Z.compare andb Z.opp].
  match goal with
  | |- context [emit (Wait_at_station (station_id w)) ?x] =>
      set (e2 := emit (Wait_at_station (station_id w)) x)
  end.
  assert (Hf2 : faults e2 = faults e1).
  { subst e2. cbn [faults emit]. by rewrite broadcast_loops_faults. }
  cbv iota. rewrite (Hfh e1 eq_refl), Hw, HfM. cbn [negb andb]. cbv iota.
  change (0 =? - EAGAIN) with false. change (negb (0 =? 0)) with false.
  cbv iota. rewrite (Hfh e2 Hf2), HfR. cbn [andb]. cbv iota.
  unfold finish_local_fault. fold pfn. cbv zeta.
  rewrite (Hfh (inc_in_flight e2) Hf2), HbU.
  set (e3 := update_metadata pfn (inc_in_flight e2)).
  assert (Hf3 : faults e3 = faults e1)
    by (subst e3; by rewrite update_metadata_faults).
  rewrite (Hfh e3 Hf3), HfR.
  unfold __finish_local_fault_handling.
  rewrite (Hfh e3 Hf3), Hretry.
  eexists. split; [reflexivity|].
  change (mem (fh_del pfn e3)) with (mem e3).
  pose proof (update_metadata_flags pfn (inc_in_flight e2)) as Hu.
  cbv zeta in Hu. rewrite (Hfh (inc_in_flight e2) Hf2) in Hu.
  rewrite Hpg, Hw, Hrem in Hu. fold e3 in Hu.
  destruct Hu as (HuM & HuS & HuC).
  assert (Hbm := fun ty p x => proj1 (broadcast_loops_rest w ty p x)).
  assert (Hbn := fun ty p x => proj1 (proj2 (broadcast_loops_rest w ty p x))).
  split; [exact HuM|]. split; [exact HuS|]. split.
  { rewrite HuC. subst e2.
    change (mem (inc_in_flight (emit ?ev ?x))) with (mem x).
    rewrite Hbm. subst e1. unfold set_page_coherence.
    rewrite (fh_of_handle_for _ _ fh) by (by apply handle_for_head).
    rewrite Hpg. cbn [mem with_mem].
    by rewrite ReplicationFacts.page_at_upd_eq. }
  split.
  { rewrite (handle_for_faults _ (fh_del pfn (with_handle pfn fh (count_fault true e)))).
    - by rewrite handle_for_del_head.
    - unfold fh_del, set_bucket, bucket. cbn [faults with_faults].
      by rewrite Hf3. }
  split.
  { change (nr_in_flight_transactions (fh_del pfn e3))
      with (nr_in_flight_transactions e3).
    subst e3. unfold update_metadata.
    rewrite (Hfh (inc_in_flight e2) Hf2), Hrem, Hw.
    subst e2. cbn [nr_in_flight_transactions with_mem emit inc_in_flight].
    by rewrite Hbn. }
  change (events (fh_del pfn e3)) with (events e3).
  subst e3. unfold update_metadata.
  rewrite (Hfh (inc_in_flight e2) Hf2), Hrem, Hw.
  subst e2. cbn [events with_mem emit inc_in_flight].
  rewrite broadcast_loops_events. change (events e1) with (events e).
  rewrite (Hfh e1 eq_refl), Hk.
  change (broadcast_payload (pfn_to_pfn_t pfn) 0 e1)
    with (broadcast_payload pfn 0 e).
  by rewrite <- !app_assoc.
Qed.

Lemma local_write_fault_on_invalid_page_witness :
  let pfn := pfn_t_to_pfn 2 in
  let inv := Broadcast SWMC_KMSG_TYPE_INVALIDATE (station_id calm_world)
               (broadcast_payload pfn 0 idle_engine) in
  exists e',
    page_coherence_fault calm_world 2 true "data" idle_engine
    = Returned 0 2 e'
    /\ PG_modified (page_at (mem e') (pfn_to_page pfn)) = true
    /\ PG_shared (page_at (mem e') (pfn_to_page pfn)) = false
    /\ PG_coherence (page_at (mem e') (pfn_to_page pfn)) = true
    /\ handle_for e' pfn = None
    /\ nr_in_flight_transactions e' = nr_in_flight_transactions idle_engine + 1
    /\ events e'
       = events idle_engine
         ++ concat (replicate (ws_failures calm_world) [Msleep 10])
         ++ concat (replicate (broadcast_failures calm_world) [inv; Msleep 10])
         ++ [inv; Wait_at_station (station_id calm_world); Update_metadata pfn].
Proof.
  apply (local_write_fault_on_invalid_page calm_world 2 "data" idle_engine);
    try reflexivity.
Defined.

(** X24.  A local read fault on a page that is Invalid here and has no fault
    in progress, with the count of transactions in flight at or below
    the threshold: the node broadcasts FETCH and does not wait for any
    answer; it marks the page SHARED at once and returns 0 with [*pfn]
    unchanged. *)
Theorem local_read_fault_on_invalid_page w original_pfn filename e :
  fault_is_handled original_pfn filename e = true ->
  handle_for e (pfn_t_to_pfn original_pfn) = None ->
  handle_alloc_ok w = true ->
  to_int32 (nr_in_flight_transactions e) <= WAIT_STATION_THRESHOLD ->
  let pfn := pfn_t_to_pfn original_pfn in
  let p0 := page_at (mem e) (pfn_to_page pfn) in
  PG_modified p0 = false -> PG_shared p0 = false ->
  get_replica_opt (mem e) (pfn_to_page pfn) = NULL ->
  let fetch := Broadcast SWMC_KMSG_TYPE_FETCH (station_id w)
                 (broadcast_payload pfn 0 e) in
  exists e',
    page_coherence_fault w original_pfn false filename e
    = Returned 0 original_pfn e'
    /\ PG_modified (page_at (mem e') (pfn_to_page pfn)) = false
    /\ PG_shared (page_at (mem e') (pfn_to_page pfn)) = true
    /\ PG_coherence (page_at (mem e') (pfn_to_page pfn)) = true
    /\ handle_for e' pfn = None
    /\ nr_in_flight_transactions e' = nr_in_flight_transactions e + 1
    /\ events e'
       = events e
         ++ concat (replicate (ws_failures w) [Msleep 10])
         ++ concat (replicate (broadcast_failures w) [fetch; Msleep 10])
         ++ [fetch; Update_metadata pfn].
Proof.
  intros Hin Hnone Hok Hlow pfn p0 HM HS HR fetch.
  subst fetch p0. unfold page_coherence_fault. rewrite Hin. cbn [negb].
  rewrite start_local_fresh by done. fold pfn.
  change (mem (count_fault false e)) with (mem e).
  destruct (fresh_local_handle false (mem e) pfn)
    as (Hk & Hpg & Hc & Hrem & Hretry & Hw & HfS & HfM & HfR).
  pose proof (refresh_handle_action false false (mem e) (blank_fh pfn)) as Hact.
  cbn [original_page blank_fh] in Hact.
  rewrite HS, HM, HR in Hact. rewrite HS in HfS. rewrite HM in HfM.
  rewrite HR in HfR.
  change (negb (NULL =? NULL)) with false in Hact, HfR.
  match type of Hact with
  | _ = ?rhs => let v := eval vm_compute in rhs in change rhs with v in Hact
  end.
  set (fh := refresh_handle false false (mem e) (blank_fh pfn)) in *.
  set (e1 := set_page_coherence pfn (with_handle pfn fh (count_fault false e))).
  assert (Hfh : forall x, faults x = faults e1 -> fh_of x pfn = fh).
  { intros x Hx.
    rewrite (fh_of_faults x (with_handle pfn fh (count_fault false e)))
      by done.
    apply fh_of_handle_for. by apply handle_for_head. }
  assert (HbW : has_action FH_ACTION_WAIT_FOR_ASYNC_TRANSACTION fh = false)
    by (unfold has_action; by rewrite Hact).
  assert (HbS : has_action FH_ACTION_ISSUE_SYNC_TRANSACTION fh = false)
    by (unfold has_action; by rewrite Hact).
  assert (HbA : has_action FH_ACTION_ISSUE_ASYNC_TRANSACTION fh = true)
    by (unfold has_action; by rewrite Hact).
  assert (HbU : has_action FH_ACTION_UPDATE_METADATA fh = true)
    by (unfold has_action; by rewrite Hact).
  assert (Hbm := fun ty p x => proj1 (broadcast_loops_rest w ty p x)).
  assert (Hbn := fun ty p x => proj1 (proj2 (broadcast_loops_rest w ty p x))).
  unfold serve_local_fault. fold pfn. rewrite (Hfh e1 eq_refl).
  rewrite Hact. change (21 =? FH_ACTION_INVALID) with false. cbv zeta iota.
  rewrite HbW, (Hfh e1 eq_refl), HbS, HbA. cbn [orb].
  change (nr_in_flight_transactions e1) with (nr_in_flight_transactions e).
  destruct (Z.ltb_spec WAIT_STATION_THRESHOLD
              (to_int32 (nr_in_flight_transactions e))) as [Hhi|_]; [lia|].
  unfold issue_page_coherence_transaction_async, broadcast_message.
  change (negb (0 =? 0)) with false. cbv iota.
  rewrite (Hfh e1 eq_refl), Hk.
  change (broadcast_payload (pfn_to_pfn_t pfn) 0 e1)
    with (broadcast_payload pfn 0 e).
  set (e2 := broadcast_loops w SWMC_KMSG_TYPE_FETCH (broadcast_payload pfn 0 e) e1).
  assert (Hf2 : faults e2 = faults e1) by apply broadcast_loops_faults.
  unfold finish_local_fault. fold pfn. cbv zeta.
  rewrite (Hfh (inc_in_flight e2) Hf2), HbU.
  set (e3 := update_metadata pfn (inc_in_flight e2)).
  assert (Hf3 : faults e3 = faults e1)
    by (subst e3; by rewrite update_metadata_faults).
  rewrite (Hfh e3 Hf3), HfR.
  unfold __finish_local_fault_handling.
  rewrite (Hfh e3 Hf3), Hretry.
  eexists. split; [reflexivity|].
  change (mem (fh_del pfn e3)) with (mem e3).
  pose proof (update_metadata_flags pfn (inc_in_flight e2)) as Hu.
  cbv zeta in Hu. rewrite (Hfh (inc_in_flight e2) Hf2) in Hu.
  rewrite Hpg, Hw, Hrem in Hu. fold e3 in Hu.
  destruct Hu as (HuM & HuS & HuC).
  split; [exact HuM|]. split; [exact HuS|]. split.
  { rewrite HuC. subst e2.
    change (mem (inc_in_flight ?x)) with (mem x).
    rewrite Hbm. subst e1. unfold set_page_coherence.
    rewrite (fh_of_handle_for _ _ fh) by (by apply handle_for_head).
    rewrite Hpg. cbn [mem with_mem].
    by rewrite ReplicationFacts.page_at_upd_eq. }
  split.
  { rewrite (handle_for_faults _ (fh_del pfn (with_handle pfn fh (count_fault false e)))).
    - by rewrite handle_for_del_head.
    - unfold fh_del, set_bucket, bucket. cbn [faults with_faults].
      by rewrite Hf3. }
  split.
  { change (nr_in_flight_transactions (fh_del pfn e3))
      with (nr_in_flight_transactions e3).
    subst e3. unfold update_metadata.
    rewrite (Hfh (inc_in_flight e2) Hf2), Hrem, Hw.
    subst e2. cbn [nr_in_flight_transactions with_mem emit inc_in_flight].
    by rewrite Hbn. }
  change (events (fh_del pfn e3)) with (events e3).
  subst e3. unfold update_metadata.
  rewrite (Hfh (inc_in_flight e2) Hf2), Hrem, Hw.
  subst e2. cbn [events with_mem emit inc_in_flight].
  rewrite broadcast_loops_events. change (events e1) with (events e).
  by rewrite <- !app_assoc.
Qed.

Lemma local_read_fault_on_invalid_page_witness :
  let pfn := pfn_t_to_pfn 2 in
  let fetch := Broadcast SWMC_KMSG_TYPE_FETCH (station_id calm_world)
                 (broadcast_payload pfn 0 idle_engine) in
  exists e',
    page_coherence_fault calm_world 2 false "data" idle_engine
    = Returned 0 2 e'
    /\ PG_modified (page_at (mem e') (pfn_to_page pfn)) = false
    /\ PG_shared (page_at (mem e') (pfn_to_page pfn)) = true
    /\ PG_coherence (page_at (mem e') (pfn_to_page pfn)) = true
    /\ handle_for e' pfn = None
    /\ nr_in_flight_transactions e' = nr_in_flight_transactions idle_engine + 1
    /\ events e'
       = events idle_engine
         ++ concat (replicate (ws_failures calm_world) [Msleep 10])
         ++ concat (replicate (broadcast_failures calm_world) [fetch; Msleep 10])
         ++ [fetch; Update_metadata pfn].
Proof.
  apply (local_read_fault_on_invalid_page calm_world 2 "data" idle_engine);
    try reflexivity.
  discriminate.
Defined.

(** *** A local write that loses the race *)

(** A remote INVALIDATE that wins against a local write in progress
    whose action holds UPDATE_METADATA and neither remote bit: the
    handler marks the handle RETRY, runs [update_metadata] on the local
    handle and acknowledges. *)
Lemma handler_wins_over_local_write w msg e fh :
  type (header msg) = SWMC_KMSG_TYPE_INVALIDATE ->
  valid_order msg = true ->
  handle_for e (message_pfn e msg) = Some fh ->
  is_REMOTE fh = false -> is_NEEDWRITE fh = true -> complete fh = false ->
  remote_write_loses e msg = false ->
  fh_action fh <> 0 ->
  has_action FH_ACTION_WRITEBACK fh = false ->
  has_action FH_ACTION_INVALIDATE fh = false ->
  has_action FH_ACTION_UPDATE_METADATA fh = true ->
  snd (swmc_kmsg_handle_fetch_or_invalidate w (Some msg) e)
  = emit (reply_to msg SWMC_KMSG_TYPE_INVALIDATE_ACK)
      (update_metadata (message_pfn e msg)
         (fh_upd (message_pfn e msg) (set_flag FH_STATE_RETRY) e)).
Proof.
  intros Hty Hord Hfh Hloc Hw Hc Hwin Hact HWB HINV HUPD.
  assert (Hreq : is_request msg = true).
  { unfold is_request. rewrite Hty. reflexivity. }
  rewrite handler_valid by done. rewrite Hty.
  unfold __start_remote_fault_handling.
  change (pfn_t_to_pfn (pfn_to_pfn_t
            (Z.shiftr (wrap64 (cxl_hdm_base e + cxl_hdm_offset (payload msg)))
               PAGE_SHIFT)))
    with (message_pfn e msg).
  set (pfn := message_pfn e msg) in *.
  unfold handle_for in Hfh. rewrite Hfh, Hloc.
  change (SWMC_KMSG_TYPE_INVALIDATE =? SWMC_KMSG_TYPE_INVALIDATE) with true.
  rewrite has_lower_priority_writes by done. rewrite Hwin. cbn [negb].
  set (e1 := fh_upd pfn (set_flag FH_STATE_RETRY) e).
  set (fh' := set_flag FH_STATE_RETRY fh).
  assert (Hh1 : handle_for e1 pfn = Some fh').
  { subst e1. rewrite handle_for_fh_upd by done. unfold handle_for.
    by rewrite Hfh. }
  assert (Hof : forall x, faults x = faults e1 -> fh_of x pfn = fh').
  { intros x Hx. rewrite (fh_of_faults x e1) by done.
    by apply fh_of_handle_for. }
  unfold serve_remote_fault. rewrite Hty, (Hof e1 eq_refl).
  change (fh_action fh') with (fh_action fh).
  change (has_action ?a fh') with (has_action a fh).
  destruct (Z.eqb_spec (fh_action fh) 0) as [H0|_]; [done|].
  cbv zeta. rewrite HWB. cbv iota. rewrite (Hof e1 eq_refl).
  change (has_action ?a fh') with (has_action a fh). rewrite HINV. cbv iota.
  rewrite (Hof e1 eq_refl).
  change (has_action ?a fh') with (has_action a fh). rewrite HUPD. cbv iota.
  set (e2 := emit (reply_to msg (ack_of SWMC_KMSG_TYPE_INVALIDATE))
               (update_metadata pfn e1)).
  assert (Hf2 : faults e2 = faults e1).
  { subst e2. cbn [faults emit]. by rewrite update_metadata_faults. }
  assert (Hfind : find_fh pfn (bucket e2 (__fault_hash_key pfn)) = Some fh').
  { change (handle_for e2 pfn = Some fh').
    by rewrite (handle_for_faults e2 e1). }
  rewrite Hfind. cbn [snd]. unfold __finish_remote_fault_handling.
  rewrite (Hof e2 Hf2).
  change (complete fh') with (complete fh). rewrite Hc.
  assert (Hrem' : is_REMOTE fh' = false).
  { subst fh'. unfold is_REMOTE in *. by rewrite is_flag_set_other. }
  rewrite Hrem'. reflexivity.
Qed.

(** X25.  A local write fault on an Invalid page during whose wait a remote
    INVALIDATE for the same frame arrives and wins the priority test:
    the handler acknowledges the remote write, marks the handle RETRY
    and runs [update_metadata] on the local handle; when the wait ends
    with success the fault updates the metadata again, frees the handle,
    sleeps 1 ms and returns [VM_FAULT_RETRY].  The page is left marked
    MODIFIED. *)
Theorem local_write_losing_to_remote_retries w w' msg original_pfn filename e :
  fault_is_handled original_pfn filename e = true ->
  handle_for e (pfn_t_to_pfn original_pfn) = None ->
  handle_alloc_ok w = true ->
  (forall x, while_waiting w x
             = snd (swmc_kmsg_handle_fetch_or_invalidate w' (Some msg) x)) ->
  wait_result w = 0 ->
  type (header msg) = SWMC_KMSG_TYPE_INVALIDATE ->
  valid_order msg = true ->
  message_pfn e msg = pfn_t_to_pfn original_pfn ->
  remote_write_loses e msg = false ->
  let pfn := pfn_t_to_pfn original_pfn in
  let p0 := page_at (mem e) (pfn_to_page pfn) in
  PG_modified p0 = false -> PG_shared p0 = false ->
  get_replica_opt (mem e) (pfn_to_page pfn) = NULL ->
  let inv := Broadcast SWMC_KMSG_TYPE_INVALIDATE (station_id w)
               (broadcast_payload pfn 0 e) in
  exists e',
    page_coherence_fault w original_pfn true filename e
    = Returned VM_FAULT_RETRY original_pfn e'
    /\ PG_modified (page_at (mem e') (pfn_to_page pfn)) = true
    /\ PG_shared (page_at (mem e') (pfn_to_page pfn)) = false
    /\ handle_for e' pfn = None
    /\ events e'
       = events e
         ++ concat (replicate (ws_failures w) [Msleep 10])
         ++ concat (replicate (broadcast_failures w) [inv; Msleep 10])
         ++ [inv; Wait_at_station (station_id w);
             Update_metadata pfn;
             reply_to msg SWMC_KMSG_TYPE_INVALIDATE_ACK;
             Update_metadata pfn; Msleep 1].
Proof.
  intros Hin Hnone Hok Hrace Hwait Hty Hord Hmp Hwin pfn p0 HM HS HR inv.
  subst inv p0. unfold page_coherence_fault. rewrite Hin. cbn [negb].
  rewrite start_local_fresh by done. fold pfn. fold pfn in Hmp.
  change (mem (count_fault true e)) with (mem e).
  destruct (fresh_local_handle true (mem e) pfn)
    as (Hk & Hpg & Hc & Hrem & Hretry & Hw & HfS & HfM & HfR).
  pose proof (refresh_handle_action false true (mem e) (blank_fh pfn)) as Hact.
  cbn [original_page blank_fh] in Hact.
  rewrite HS, HM, HR in Hact. rewrite HS in HfS. rewrite HM in HfM.
  rewrite HR in HfR.
  change (negb (NULL =? NULL)) with false in Hact, HfR.
  match type of Hact with
  | _ = ?rhs => let v := eval vm_compute in rhs in change rhs with v in Hact
  end.
  set (fh := refresh_handle false true (mem e) (blank_fh pfn)) in *.
  set (e0 := with_handle pfn fh (count_fault true e)).
  set (e1 := set_page_coherence pfn e0).
  assert (Hfh : forall x, faults x = faults e1 -> fh_of x pfn = fh).
  { intros x Hx. rewrite (fh_of_faults x e0) by done.
    apply fh_of_handle_for. by apply handle_for_head. }
  assert (HbW : has_action FH_ACTION_WAIT_FOR_ASYNC_TRANSACTION fh = false)
    by (unfold has_action; by rewrite Hact).
  assert (HbS : has_action FH_ACTION_ISSUE_SYNC_TRANSACTION fh = true)
    by (unfold has_action; by rewrite Hact).
  assert (HbU : has_action FH_ACTION_UPDATE_METADATA fh = true)
    by (unfold has_action; by rewrite Hact).
  assert (HbB : has_action FH_ACTION_WRITEBACK fh = false)
    by (unfold has_action; by rewrite Hact).
  assert (HbI : has_action FH_ACTION_INVALIDATE fh = false)
    by (unfold has_action; by rewrite Hact).
  unfold serve_local_fault. fold pfn. rewrite (Hfh e1 eq_refl).
  rewrite Hact. change (19 =? FH_ACTION_INVALID) with false. cbv zeta iota.
  rewrite HbW, (Hfh e1 eq_refl), HbS. cbn [orb].
  unfold issue_page_coherence_transaction. cbv zeta.
  rewrite (Hfh e1 eq_refl), Hw, HfM. cbn [negb andb].
  unfold broadcast_message_and_wait. cbv zeta.
  rewrite Hwait. cbn [Z.eqb Z.leb Z.ltb Z.compare andb Z.opp].
  match goal with
  | |- context [emit (Wait_at_station (station_id w)) ?x] =>
      set (e2 := emit (Wait_at_station (station_id w)) x)
  end.
  assert (Hf2 : faults e2 = faults e1).
  { subst e2. cbn [faults emit]. by rewrite broadcast_loops_faults. }
  assert (Hb2 := fun ty p x =>
            proj1 (proj2 (proj2 (broadcast_loops_rest w ty p x)))).
  assert (Ha2 := fun ty p x =>
            proj2 (proj2 (proj2 (broadcast_loops_rest w ty p x)))).
  assert (Hmp2 : message_pfn e2 msg = pfn).
  { rewrite <- Hmp. unfold message_pfn. subst e2.
    cbn [cxl_hdm_base emit]. by rewrite Hb2. }
  assert (Hwin2 : remote_write_loses e2 msg = false).
  { rewrite <- Hwin. unfold remote_write_loses. subst e2.
    cbn [__local_acked_fault_count emit]. by rewrite Ha2. }
  assert (Hh2p : handle_for e2 pfn = Some fh).
  { rewrite (handle_for_faults e2 e0) by done. by apply handle_for_head. }
  assert (Hh2 : handle_for e2 (message_pfn e2 msg) = Some fh)
    by (by rewrite Hmp2).
  rewrite Hrace.
  rewrite (handler_wins_over_local_write w' msg e2 fh) by
    (try done; rewrite Hact; done).
  rewrite Hmp2.
  set (fh' := set_flag FH_STATE_RETRY fh).
  set (e3 := emit (reply_to msg SWMC_KMSG_TYPE_INVALIDATE_ACK)
               (update_metadata pfn (fh_upd pfn (set_flag FH_STATE_RETRY) e2))).
  assert (Hh3 : forall x, faults x = faults e3 -> fh_of x pfn = fh').
  { intros x Hx. rewrite (fh_of_faults x (fh_upd pfn (set_flag FH_STATE_RETRY) e2)).
    - apply fh_of_handle_for. rewrite handle_for_fh_upd by done.
      by rewrite Hh2p.
    - rewrite Hx. subst e3. cbn [faults emit]. by rewrite update_metadata_faults. }
  assert (Hw' : is_NEEDWRITE fh' = true).
  { subst fh'. unfold is_NEEDWRITE. by rewrite is_flag_set_other. }
  assert (HfM' : is_MODIFIED fh' = false).
  { subst fh'. unfold is_MODIFIED. by rewrite is_flag_set_other. }
  assert (HfR' : is_REPLICATED fh' = false).
  { subst fh'. unfold is_REPLICATED. by rewrite is_flag_set_other. }
  assert (Hrem' : is_REMOTE fh' = false).
  { subst fh'. unfold is_REMOTE. by rewrite is_flag_set_other. }
  assert (Hretry' : is_RETRY fh' = true).
  { subst fh'. unfold is_RETRY. by rewrite is_flag_set_same. }
  cbv iota. rewrite (Hfh e1 eq_refl), Hw, HfM. cbn [negb andb]. cbv iota.
  change (0 =? - EAGAIN) with false. change (negb (0 =? 0)) with false.
  cbv iota. rewrite (Hh3 e3 eq_refl), HfR'. cbn [andb]. cbv iota.
  unfold finish_local_fault. fold pfn. cbv zeta.
  rewrite (Hh3 (inc_in_flight e3) eq_refl).
  change (has_action FH_ACTION_UPDATE_METADATA fh')
    with (has_action FH_ACTION_UPDATE_METADATA fh). rewrite HbU.
  set (e4 := update_metadata pfn (inc_in_flight e3)).
  assert (Hf4 : faults e4 = faults e3)
    by (subst e4; by rewrite update_metadata_faults).
  rewrite (Hh3 e4 Hf4), HfR'.
  unfold __finish_local_fault_handling.
  rewrite (Hh3 e4 Hf4), Hretry'.
  eexists. split; [reflexivity|].
  change (mem (emit (Msleep 1) (fh_del pfn e4))) with (mem e4).
  pose proof (update_metadata_flags pfn (inc_in_flight e3)) as Hu.
  cbv zeta in Hu. rewrite (Hh3 (inc_in_flight e3) eq_refl) in Hu.
  change (original_page fh') with (original_page fh) in Hu.
  rewrite Hpg, Hw', Hrem' in Hu. fold e4 in Hu.
  destruct Hu as (HuM & HuS & HuC).
  split; [exact HuM|]. split; [exact HuS|]. split.
  { rewrite (handle_for_faults _ (fh_del pfn (with_handle pfn fh' (count_fault true e)))).
    - rewrite handle_for_del_head; [done|]. by subst fh'.
    - change (faults (emit (Msleep 1) (fh_del pfn e4))) with (faults (fh_del pfn e4)).
      unfold fh_del, set_bucket, bucket. cbn [faults with_faults].
      rewrite Hf4. subst e3. cbn [faults emit]. rewrite update_metadata_faults.
      assert (Hx : faults (fh_upd pfn (set_flag FH_STATE_RETRY) e2)
                   = faults (with_handle pfn fh' (count_fault true e))).
      { transitivity (faults (fh_upd pfn (set_flag FH_STATE_RETRY) e0)).
        - unfold fh_upd, set_bucket, bucket. cbn [faults with_faults].
          by rewrite Hf2.
        - subst e0 fh'. by rewrite fh_upd_head. }
      by rewrite Hx. }
  change (events (emit (Msleep 1) (fh_del pfn e4))) with (events e4 ++ [Msleep 1]).
  subst e4. unfold update_metadata at 1.
  rewrite (Hh3 (inc_in_flight e3) eq_refl), Hrem', Hw'.
  cbn [events with_mem emit inc_in_flight]. subst e3.
  cbn [events emit]. unfold update_metadata at 1.
  assert (Hq : fh_of (fh_upd pfn (set_flag FH_STATE_RETRY) e2) pfn = fh').
  { apply Hh3. cbn [faults emit]. by rewrite update_metadata_faults. }
  rewrite Hq, Hrem', Hw'.
  cbn [events with_mem emit]. change (events (fh_upd pfn ?f e2)) with (events e2).
  subst e2. cbn [events emit].
  rewrite broadcast_loops_events. change (events e1) with (events e).
  rewrite (Hfh e1 eq_refl), Hk.
  change (broadcast_payload (pfn_to_pfn_t pfn) 0 e1)
    with (broadcast_payload pfn 0 e).
  by rewrite <- !app_assoc.
Qed.

Lemma local_write_losing_to_remote_retries_witness :
  let pfn := pfn_t_to_pfn 2 in
  let inv := Broadcast SWMC_KMSG_TYPE_INVALIDATE (station_id racing_world)
               (broadcast_payload pfn 0 idle_engine) in
  exists e',
    page_coherence_fault racing_world 2 true "data" idle_engine
    = Returned VM_FAULT_RETRY 2 e'
    /\ PG_modified (page_at (mem e') (pfn_to_page pfn)) = true
    /\ PG_shared (page_at (mem e') (pfn_to_page pfn)) = false
    /\ handle_for e' pfn = None
    /\ events e'
       = events idle_engine
         ++ concat (replicate (ws_failures racing_world) [Msleep 10])
         ++ concat (replicate (broadcast_failures racing_world)
                      [inv; Msleep 10])
         ++ [inv; Wait_at_station (station_id racing_world);
             Update_metadata pfn;
             reply_to winning_invalidate SWMC_KMSG_TYPE_INVALIDATE_ACK;
             Update_metadata pfn; Msleep 1].
Proof.
  apply (local_write_losing_to_remote_retries racing_world calm_world
           winning_invalidate 2 "data" idle_engine); reflexivity.
Defined.

(** *** Two writers at once *)

(** The reply to a remote INVALIDATE that meets a local write in
    progress. *)
Lemma write_race_reply w msg e fh :
  type (header msg) = SWMC_KMSG_TYPE_INVALIDATE ->
  valid_order msg = true ->
  handle_for e (message_pfn e msg) = Some fh ->
  is_REMOTE fh = false -> is_NEEDWRITE fh = true ->
  replies (events (snd (swmc_kmsg_handle_fetch_or_invalidate w (Some msg) e)))
  = replies (events e)
    ++ [reply_to msg (if remote_write_loses e msg
                      then SWMC_KMSG_TYPE_INVALIDATE_NACK
                      else SWMC_KMSG_TYPE_INVALIDATE_ACK)].
Proof.
  intros Hty Hord Hfh Hloc Hw.
  assert (Hreq : is_request msg = true).
  { unfold is_request. rewrite Hty. reflexivity. }
  rewrite handler_valid by done. rewrite Hty.
  unfold __start_remote_fault_handling.
  change (pfn_t_to_pfn (pfn_to_pfn_t
            (Z.shiftr (wrap64 (cxl_hdm_base e + cxl_hdm_offset (payload msg)))
               PAGE_SHIFT)))
    with (message_pfn e msg).
  unfold handle_for in Hfh. rewrite Hfh, Hloc.
  change (SWMC_KMSG_TYPE_INVALIDATE =? SWMC_KMSG_TYPE_INVALIDATE) with true.
  rewrite has_lower_priority_writes by done.
  destruct (remote_write_loses e msg); cbn [negb snd].
  - by rewrite replies_emit.
  - rewrite serve_remote_replies, Hty. reflexivity.
Qed.

(** X26.  Two nodes write the same frame at once and each receives the
    INVALIDATE of the other while its own write is in progress, the
    counts of acknowledged faults being those the messages carry.  Then
    exactly one of the two INVALIDATEs is acknowledged and the other is
    refused: the write of the node with fewer acknowledged faults wins,
    and with equal counts that of the node with the lower id. *)
Theorem concurrent_writes_have_one_winner wA wB eA eB mA mB fhA fhB :
  type (header mA) = SWMC_KMSG_TYPE_INVALIDATE ->
  type (header mB) = SWMC_KMSG_TYPE_INVALIDATE ->
  valid_order mA = true -> valid_order mB = true ->
  from_nid (header mA) = to_nid (header mB) ->
  to_nid (header mA) = from_nid (header mB) ->
  from_nid (header mA) <> from_nid (header mB) ->
  acked_fault_count (payload mA) = __local_acked_fault_count eA ->
  acked_fault_count (payload mB) = __local_acked_fault_count eB ->
  handle_for eA (message_pfn eA mB) = Some fhA ->
  is_REMOTE fhA = false -> is_NEEDWRITE fhA = true ->
  handle_for eB (message_pfn eB mA) = Some fhB ->
  is_REMOTE fhB = false -> is_NEEDWRITE fhB = true ->
  let a_wins :=
    (__local_acked_fault_count eA <? __local_acked_fault_count eB)
    || ((__local_acked_fault_count eA =? __local_acked_fault_count eB)
        && (from_nid (header mA) <? from_nid (header mB))) in
  replies (events (snd (swmc_kmsg_handle_fetch_or_invalidate wA (Some mB) eA)))
  = replies (events eA)
    ++ [reply_to mB (if a_wins then SWMC_KMSG_TYPE_INVALIDATE_NACK
                     else SWMC_KMSG_TYPE_INVALIDATE_ACK)]
  /\ replies (events (snd (swmc_kmsg_handle_fetch_or_invalidate wB (Some mA) eB)))
     = replies (events eB)
       ++ [reply_to mA (if a_wins then SWMC_KMSG_TYPE_INVALIDATE_ACK
                        else SWMC_KMSG_TYPE_INVALIDATE_NACK)].
Proof.
  intros HtA HtB HoA HoB Hab Hba Hne HcA HcB HfA HlA HwA HfB HlB HwB a_wins.
  rewrite (write_race_reply wA mB eA fhA) by done.
  rewrite (write_race_reply wB mA eB fhB) by done.
  assert (HA : remote_write_loses eA mB = a_wins).
  { subst a_wins. unfold remote_write_loses. rewrite HcB, <- Hab, <- Hba.
    by rewrite (Z.eqb_sym (__local_acked_fault_count eB)). }
  assert (HB : remote_write_loses eB mA = negb a_wins).
  { subst a_wins. unfold remote_write_loses. rewrite HcA, Hba.
    set (ca := __local_acked_fault_count eA).
    set (cb := __local_acked_fault_count eB).
    set (a := from_nid (header mA)) in *. set (b := from_nid (header mB)) in *.
    destruct (Z.ltb_spec cb ca); destruct (Z.ltb_spec ca cb);
      destruct (Z.eqb_spec ca cb); destruct (Z.ltb_spec b a);
      destruct (Z.ltb_spec a b); cbn; try reflexivity; lia. }
  rewrite HA, HB. split; [reflexivity|]. by destruct a_wins.
Qed.

Lemma concurrent_writes_have_one_winner_witness :
  let a_wins :=
    (__local_acked_fault_count writing_engine
     <? __local_acked_fault_count writing_engine)
    || ((__local_acked_fault_count writing_engine
         =? __local_acked_fault_count writing_engine)
        && (from_nid (header writer_invalidate)
            <? from_nid (header tie_invalidate))) in
  replies (events (snd (swmc_kmsg_handle_fetch_or_invalidate calm_world
                          (Some tie_invalidate) writing_engine)))
  = replies (events writing_engine)
    ++ [reply_to tie_invalidate
          (if a_wins then SWMC_KMSG_TYPE_INVALIDATE_NACK
           else SWMC_KMSG_TYPE_INVALIDATE_ACK)]
  /\ replies (events (snd (swmc_kmsg_handle_fetch_or_invalidate calm_world
                             (Some writer_invalidate) writing_engine)))
     = replies (events writing_engine)
       ++ [reply_to writer_invalidate
             (if a_wins then SWMC_KMSG_TYPE_INVALIDATE_ACK
              else SWMC_KMSG_TYPE_INVALIDATE_NACK)].
Proof.
  apply (concurrent_writes_have_one_winner calm_world calm_world
           writing_engine writing_engine writer_invalidate tie_invalidate
           writer_handle writer_handle); try reflexivity.
  discriminate.
Defined.

End EngineFacts.

(** ** Answers and the work queue *)

Module CompletionFacts.
Import Kmsg Completion Scenarios Cases.

Lemma to_int32_small x : - 2 ^ 31 <= x < 2 ^ 31 -> to_int32 x = x.
Proof. intros H. unfold to_int32. rewrite Z.mod_small; lia. Qed.

Lemma handle_answer_sync m st ws :
  stations st !! ws_id (header m) = Some ws ->
  async_page ws = 0 ->
  0 < pendings_count ws < 2 ^ 31 ->
  let ws' := {| private := if is_nack m then NACK_RECEIVED else private ws;
                async_page := 0;
                pendings_count := pendings_count ws - 1 |} in
  let st1 := with_stations (<[ws_id (header m) := ws']> (stations st)) st in
  swmc_kmsg_handle_ack_or_nack m st
  = Some (0, if pendings_count ws =? 1
             then called [Complete_station (ws_id (header m))]
                    (with_coherence (count_acked (coherence st1)) st1)
             else st1).
Proof.
  intros Hws Hsync Hn ws' st1. unfold swmc_kmsg_handle_ack_or_nack.
  rewrite Hws. cbv zeta. fold (is_nack m).
  assert (Hp : forall b : bool,
             pendings_count (if b then {| private := NACK_RECEIVED;
                                          async_page := async_page ws;
                                          pendings_count := pendings_count ws |}
                             else ws) = pendings_count ws)
    by (by intros []).
  assert (Ha : forall b : bool,
             async_page (if b then {| private := NACK_RECEIVED;
                                      async_page := async_page ws;
                                      pendings_count := pendings_count ws |}
                         else ws) = 0)
    by (by intros []).
  assert (Hv : forall b : bool,
             private (if b then {| private := NACK_RECEIVED;
                                   async_page := async_page ws;
                                   pendings_count := pendings_count ws |}
                      else ws) = if b then NACK_RECEIVED else private ws)
    by (by intros []).
  cbn [pendings_count async_page private].
  rewrite Hp, Ha, Hv, to_int32_small by lia. cbn [negb Z.eqb].
  subst st1 ws'.
  destruct (Z.eqb_spec (pendings_count ws - 1) 0) as [H0|H0];
    destruct (Z.eqb_spec (pendings_count ws) 1) as [H1|H1]; try lia;
    reflexivity.
Qed.

(** X27.  A station that waits for [n] answers and has no asynchronous page is
    completed by the [n]-th answer and by none before: fewer than [n]
    answers leave the counters and the calls as they were, the [n]-th
    calls [complete] once, takes one transaction out of flight and counts
    one acknowledged fault.  [private] carries the NACK mark from the
    first NACK on, whatever comes after. *)
Theorem answers_complete_station_once msgs : forall st ws id,
  stations st !! id = Some ws ->
  async_page ws = 0 ->
  Forall (fun m => ws_id (header m) = id) msgs ->
  0 < pendings_count ws < 2 ^ 31 ->
  Z.of_nat (length msgs) <= pendings_count ws ->
  exists st',
    handle_answers msgs st = Some st'
    /\ stations st' !! id
       = Some {| private := if existsb is_nack msgs then NACK_RECEIVED
                            else private ws;
                 async_page := 0;
                 pendings_count := pendings_count ws - Z.of_nat (length msgs) |}
    /\ (forall j, j <> id -> stations st' !! j = stations st !! j)
    /\ async_transaction_workqueue st' = async_transaction_workqueue st
    /\ async_transaction_workqueue_head st' = async_transaction_workqueue_head st
    /\ async_transaction_workqueue_tail st' = async_transaction_workqueue_tail st
    /\ (Z.of_nat (length msgs) < pendings_count ws ->
        calls st' = calls st /\ coherence st' = coherence st)
    /\ (Z.of_nat (length msgs) = pendings_count ws ->
        calls st' = calls st ++ [Complete_station id]
        /\ coherence st' = count_acked (coherence st)).
Proof.
  induction msgs as [|m msgs IH]; intros st ws id Hws Hsync Hall Hn Hlen.
  - exists st. cbn [handle_answers existsb length].
    split; [done|]. split.
    { rewrite Hws. f_equal. destruct ws as [p a c]. cbn in *. subst a.
      f_equal. lia. }
    repeat split; try done; cbn in *; lia.
  - apply Forall_cons in Hall as [Hid Hall]. cbn [length] in Hlen.
    rewrite <- Hid in Hws.
    cbn [handle_answers]. rewrite (handle_answer_sync m st ws) by done.
    cbn [mbind option_bind snd]. rewrite Hid.
    set (ws1 := {| private := if is_nack m then NACK_RECEIVED else private ws;
                   async_page := 0;
                   pendings_count := pendings_count ws - 1 |}).
    set (st1 := with_stations (<[id := ws1]> (stations st)) st).
    destruct (Z.eqb_spec (pendings_count ws) 1) as [H1|H1].
    + assert (msgs = []) as -> by (destruct msgs; [done|cbn in Hlen; lia]).
      eexists. cbn [handle_answers]. split; [reflexivity|].
      cbn [stations called with_coherence with_stations st1 existsb length
           async_transaction_workqueue async_transaction_workqueue_head
           async_transaction_workqueue_tail calls coherence].
      rewrite lookup_insert_eq, orb_false_r. split.
      { reflexivity. }
      split; [by intros j Hj; rewrite lookup_insert_ne|].
      repeat split; try done; cbn in *; lia.
    + destruct (IH st1 ws1 id) as (st' & Hrun & Hst & Hoth & Hq & Hh & Ht & Hlt & Heq).
      * subst st1. cbn [stations with_stations]. by rewrite lookup_insert_eq.
      * done.
      * done.
      * subst ws1. cbn [pendings_count]. lia.
      * subst ws1. cbn [pendings_count]. lia.
      * exists st'. split; [exact Hrun|]. split.
        { rewrite Hst. subst ws1. cbn [private pendings_count existsb].
          f_equal. f_equal; [|cbn [length]; lia].
          destruct (is_nack m); cbn [orb]; [|done].
          by destruct (existsb is_nack msgs). }
        split.
        { intros j Hj. rewrite Hoth by done. subst st1.
          cbn [stations with_stations]. by rewrite lookup_insert_ne. }
        split; [by rewrite Hq|]. split; [by rewrite Hh|].
        split; [by rewrite Ht|].
        subst ws1. cbn [pendings_count] in Hlt, Heq. split.
        { intros Hc. cbn [length] in Hc. apply Hlt. lia. }
        { intros Hc. cbn [length] in Hc. apply Heq. lia. }
Qed.

Lemma answers_complete_station_once_witness :
  exists st',
    handle_answers [ack_for_7; nack_for_7] waiting_state = Some st'
    /\ stations st' !! 7
       = Some {| private := if existsb is_nack [ack_for_7; nack_for_7]
                            then NACK_RECEIVED else 0;
                 async_page := 0;
                 pendings_count := 2 - Z.of_nat (length [ack_for_7; nack_for_7]) |}
    /\ (forall j, j <> 7 -> stations st' !! j = stations waiting_state !! j)
    /\ async_transaction_workqueue st'
       = async_transaction_workqueue waiting_state
    /\ async_transaction_workqueue_head st'
       = async_transaction_workqueue_head waiting_state
    /\ async_transaction_workqueue_tail st'
       = async_transaction_workqueue_tail waiting_state
    /\ (Z.of_nat (length [ack_for_7; nack_for_7]) < 2 ->
        calls st' = calls waiting_state
        /\ coherence st' = coherence waiting_state)
    /\ (Z.of_nat (length [ack_for_7; nack_for_7]) = 2 ->
        calls st' = calls waiting_state ++ [Complete_station 7]
        /\ coherence st' = count_acked (coherence waiting_state)).
Proof.
  apply (answers_complete_station_once [ack_for_7; nack_for_7] waiting_state
           {| private := 0; async_page := 0; pendings_count := 2 |} 7).
  - reflexivity.
  - reflexivity.
  - repeat constructor.
  - split; reflexivity.
  - discriminate.
Defined.

Lemma rem_ring x :
  0 <= x -> Z.rem x ASYNC_TRANSACTION_RING_SIZE = x mod ASYNC_TRANSACTION_RING_SIZE.
Proof. intros H. apply Z.rem_mod_nonneg; unfold ASYNC_TRANSACTION_RING_SIZE; lia. Qed.

Lemma workqueue_full_test st :
  workqueue_ok st ->
  async_transaction_workqueue_head st < 2 ^ 31 - 1 ->
  (Z.rem (to_int32 (async_transaction_workqueue_head st + 1))
     ASYNC_TRANSACTION_RING_SIZE
   =? Z.rem (async_transaction_workqueue_tail st) ASYNC_TRANSACTION_RING_SIZE)
  = (async_transaction_workqueue_head st - async_transaction_workqueue_tail st
     =? ASYNC_TRANSACTION_RING_SIZE - 1).
Proof.
  intros (Ht & Hth & _ & Hcap & _) Hh.
  rewrite to_int32_small by lia. rewrite !rem_ring by lia.
  unfold ASYNC_TRANSACTION_RING_SIZE in *.
  set (h := async_transaction_workqueue_head st) in *.
  set (t := async_transaction_workqueue_tail st) in *.
  pose proof (Z.div_mod (h + 1) 1024 ltac:(lia)).
  pose proof (Z.div_mod t 1024 ltac:(lia)).
  pose proof (Z.mod_pos_bound (h + 1) 1024 ltac:(lia)).
  pose proof (Z.mod_pos_bound t 1024 ltac:(lia)).
  destruct (Z.eqb_spec ((h + 1) mod 1024) (t mod 1024));
    destruct (Z.eqb_spec (h - t) (1024 - 1)); try reflexivity; lia.
Qed.

Lemma entries_differ a j k :
  0 <= j < k -> k < ASYNC_TRANSACTION_RING_SIZE ->
  Z.to_nat ((a + j) mod ASYNC_TRANSACTION_RING_SIZE)
  <> Z.to_nat ((a + k) mod ASYNC_TRANSACTION_RING_SIZE).
Proof.
  unfold ASYNC_TRANSACTION_RING_SIZE. intros Hj Hk Heq.
  pose proof (Z.mod_pos_bound (a + j) 1024 ltac:(lia)).
  pose proof (Z.mod_pos_bound (a + k) 1024 ltac:(lia)).
  apply Z2Nat.inj in Heq; try lia.
  pose proof (Z.div_mod (a + j) 1024 ltac:(lia)).
  pose proof (Z.div_mod (a + k) 1024 ltac:(lia)).
  lia.
Qed.

Lemma entry_in_range (q : list async_transaction_work) k :
  length q = Z.to_nat ASYNC_TRANSACTION_RING_SIZE ->
  (Z.to_nat (k mod ASYNC_TRANSACTION_RING_SIZE) < length q)%nat.
Proof.
  intros ->. unfold ASYNC_TRANSACTION_RING_SIZE.
  pose proof (Z.mod_pos_bound k 1024 ltac:(lia)). lia.
Qed.

Lemma seqZ_single m : seqZ m 1 = [m].
Proof. rewrite seqZ_cons by lia. by rewrite seqZ_nil by lia. Qed.

(** [put_work_to_workqueue] with room in the queue. *)
Lemma put_work_appends async_page id station st :
  workqueue_ok st ->
  async_transaction_workqueue_head st < 2 ^ 31 - 1 ->
  stations st !! id = Some station ->
  async_transaction_workqueue_head st - async_transaction_workqueue_tail st
  < ASYNC_TRANSACTION_RING_SIZE - 1 ->
  exists st',
    put_work_to_workqueue async_page id st = Some st'
    /\ queued st'
       = queued st ++ [Some {| original_page := async_page;
                               nacked := private station =? NACK_RECEIVED |}]
    /\ workqueue_ok st'
    /\ calls st' = calls st ++ [Put_wait_station id]
    /\ coherence st' = coherence st
    /\ stations st' = stations st
    /\ async_transaction_workqueue_tail st' = async_transaction_workqueue_tail st.
Proof.
  intros Hok Hh Hst Hroom. pose proof Hok as (Ht & Hth & _ & Hcap & Hlen).
  unfold put_work_to_workqueue. cbv zeta.
  rewrite workqueue_full_test by done.
  destruct (Z.eqb_spec (async_transaction_workqueue_head st
                        - async_transaction_workqueue_tail st)
              (ASYNC_TRANSACTION_RING_SIZE - 1)) as [E|_]; [lia|].
  rewrite Hst, rem_ring, to_int32_small by lia.
  set (h := async_transaction_workqueue_head st) in *.
  set (t := async_transaction_workqueue_tail st) in *.
  pose proof (Z.mod_pos_bound h ASYNC_TRANSACTION_RING_SIZE ltac:(done)) as Hm.
  destruct (Z.ltb_spec (h mod ASYNC_TRANSACTION_RING_SIZE) 0) as [?|_]; [lia|].
  destruct (Z.leb_spec (Z.of_nat (length (async_transaction_workqueue st)))
              (h mod ASYNC_TRANSACTION_RING_SIZE)) as [Hle|_].
  { rewrite Hlen in Hle. lia. }
  cbn [orb]. eexists. split; [reflexivity|].
  assert (Hhs : h mod ASYNC_TRANSACTION_RING_SIZE
                = (t + (h - t)) mod ASYNC_TRANSACTION_RING_SIZE)
    by (f_equal; lia).
  split; [|split].
  - unfold queued.
    cbn [async_transaction_workqueue async_transaction_workqueue_head
         async_transaction_workqueue_tail called with_workqueue].
    fold h t. replace (h + 1 - t) with ((h - t) + 1) by lia.
    rewrite seqZ_app by lia. rewrite fmap_app. f_equal.
    + apply list_fmap_ext. intros i k Hk. apply list_elem_of_lookup_2 in Hk.
      apply elem_of_seqZ in Hk.
      rewrite list_lookup_insert_ne; [reflexivity|].
      rewrite Hhs. intros Heq.
      apply (entries_differ t k (h - t)); [lia|lia|]. by symmetry.
    + rewrite Z.add_0_l, seqZ_single. cbn [fmap list_fmap].
      rewrite <- Hhs. f_equal.
      apply list_lookup_insert_eq. by apply entry_in_range.
  - unfold workqueue_ok.
    cbn [async_transaction_workqueue async_transaction_workqueue_head
         async_transaction_workqueue_tail called with_workqueue].
    fold h t. rewrite length_insert. repeat split; lia.
  - done.
Qed.

(** One turn of the daemon on a queue that holds work. *)
Lemma daemon_turn_pops st :
  workqueue_ok st ->
  async_transaction_workqueue_head st <> async_transaction_workqueue_tail st ->
  exists w st',
    async_transaction_daemon_turn st = Some st'
    /\ queued st = Some w :: queued st'
    /\ workqueue_ok st'
    /\ coherence st' = ClearPageModified (original_page w) (coherence st)
    /\ stations st' = stations st
    /\ calls st'
       = calls st ++ [Kmap (original_page w)]
         ++ ((fun k => Clflush (original_page w) (k * CL_SIZE))
               <$> seqZ 0 (PAGE_SIZE / CL_SIZE))
         ++ [Kunmap (original_page w)]
    /\ async_transaction_workqueue_head st' = async_transaction_workqueue_head st.
Proof.
  intros Hok Hne. pose proof Hok as (Ht & Hth & Hh & Hcap & Hlen).
  unfold async_transaction_daemon_turn. cbv zeta.
  destruct (Z.eqb_spec (async_transaction_workqueue_head st)
              (async_transaction_workqueue_tail st)) as [?|_]; [done|].
  cbn [negb]. rewrite rem_ring by lia.
  set (h := async_transaction_workqueue_head st) in *.
  set (t := async_transaction_workqueue_tail st) in *.
  pose proof (Z.mod_pos_bound t ASYNC_TRANSACTION_RING_SIZE ltac:(done)) as Hm.
  destruct (Z.ltb_spec (t mod ASYNC_TRANSACTION_RING_SIZE) 0) as [?|_]; [lia|].
  destruct (lookup_lt_is_Some_2 (async_transaction_workqueue st)
              (Z.to_nat (t mod ASYNC_TRANSACTION_RING_SIZE))
              (entry_in_range _ t Hlen)) as [w Hw].
  rewrite Hw. cbn [mbind option_bind]. rewrite to_int32_small by lia.
  exists w. eexists. split; [reflexivity|].
  split; [|split; [|split; [reflexivity|split; [reflexivity|]]]].
  - unfold queued.
    cbn [async_transaction_workqueue async_transaction_workqueue_head
         async_transaction_workqueue_tail called with_workqueue with_coherence].
    fold h t. replace (h - t) with (1 + (h - (t + 1))) by lia.
    rewrite seqZ_app by lia. rewrite fmap_app, seqZ_single.
    cbn [fmap list_fmap app]. f_equal.
    + by rewrite Z.add_0_r.
    + change (0 + 1) with (1 + 0).
      rewrite <- (fmap_add_seqZ 1 0), <- list_fmap_compose.
      apply list_fmap_ext. intros i k _. unfold compose.
      do 3 f_equal. lia.
  - unfold workqueue_ok.
    cbn [async_transaction_workqueue async_transaction_workqueue_head
         async_transaction_workqueue_tail called with_workqueue with_coherence].
    fold h t. repeat split; lia.
  - split; reflexivity.
Qed.

(** X28.  The answer a station with an asynchronous page was still waiting
    for, with room in the queue: the page is queued behind the work
    already there, marked [nacked] when this answer or an earlier one was
    a NACK; the station is released with [put_wait_station] and nobody is
    woken with [complete]. *)
Theorem last_answer_queues_async_work m st ws :
  stations st !! ws_id (header m) = Some ws ->
  async_page ws <> 0 ->
  pendings_count ws = 1 ->
  workqueue_ok st ->
  async_transaction_workqueue_head st < 2 ^ 31 - 1 ->
  async_transaction_workqueue_head st - async_transaction_workqueue_tail st
  < ASYNC_TRANSACTION_RING_SIZE - 1 ->
  exists st',
    swmc_kmsg_handle_ack_or_nack m st = Some (0, st')
    /\ queued st'
       = queued st
         ++ [Some {| original_page := async_page ws;
                     nacked := is_nack m || (private ws =? NACK_RECEIVED) |}]
    /\ workqueue_ok st'
    /\ calls st' = calls st ++ [Put_wait_station (ws_id (header m))]
    /\ coherence st' = count_acked (coherence st)
    /\ (pendings_count <$> stations st' !! ws_id (header m)) = Some 0.
Proof.
  intros Hws Hasync Hn Hok Hh Hroom.
  unfold swmc_kmsg_handle_ack_or_nack. rewrite Hws. cbv zeta.
  fold (is_nack m).
  set (ws1 := if is_nack m
              then {| private := NACK_RECEIVED; async_page := async_page ws;
                      pendings_count := pendings_count ws |}
              else ws).
  assert (Hp : pendings_count ws1 = 1) by (subst ws1; by destruct (is_nack m)).
  assert (Ha : async_page ws1 = async_page ws)
    by (subst ws1; by destruct (is_nack m)).
  assert (Hv : (private ws1 =? NACK_RECEIVED)
               = is_nack m || (private ws =? NACK_RECEIVED))
    by (subst ws1; by destruct (is_nack m)).
  cbn [pendings_count async_page private]. rewrite Hp, Ha.
  change (to_int32 (1 - 1) =? 0) with true. cbv iota.
  destruct (Z.eqb_spec (async_page ws) 0) as [?|_]; [done|]. cbn [negb].
  set (ws2 := {| private := private ws1; async_page := async_page ws;
                 pendings_count := to_int32 (1 - 1) |}).
  set (st1 := with_coherence _ _).
  destruct (put_work_appends (async_page ws) (ws_id (header m)) ws2 st1)
    as (st' & Hput & Hq & Hok' & Hcalls & Hcoh & Hst & _).
  - exact Hok.
  - exact Hh.
  - subst st1. cbn [stations with_coherence with_stations].
    by rewrite lookup_insert_eq.
  - exact Hroom.
  - rewrite Hput. cbn [mbind option_bind]. exists st'.
    split; [reflexivity|]. split.
    { rewrite Hq. subst ws2. cbn [private]. by rewrite Hv. }
    split; [exact Hok'|]. split; [exact Hcalls|]. split; [exact Hcoh|].
    rewrite Hst. subst st1. cbn [stations with_coherence with_stations].
    by rewrite lookup_insert_eq.
Qed.

Lemma last_answer_queues_async_work_witness :
  exists st',
    swmc_kmsg_handle_ack_or_nack nack_for_7 (async_state 3) = Some (0, st')
    /\ queued st'
       = queued (async_state 3)
         ++ [Some {| original_page := Coherence.pfn_to_page 2;
                     nacked := is_nack nack_for_7 || (0 =? NACK_RECEIVED) |}]
    /\ workqueue_ok st'
    /\ calls st' = calls (async_state 3) ++ [Put_wait_station 7]
    /\ coherence st' = count_acked (coherence (async_state 3))
    /\ (pendings_count <$> stations st' !! 7) = Some 0.
Proof.
  apply (last_answer_queues_async_work nack_for_7 (async_state 3)
           {| private := 0; async_page := Coherence.pfn_to_page 2;
              pendings_count := 1 |}).
  - reflexivity.
  - discriminate.
  - reflexivity.
  - repeat split; vm_compute; first [reflexivity | discriminate].
  - reflexivity.
  - reflexivity.
Defined.

(** X29.  The same answer when the queue is full (1023 entries): the work is
    dropped.  The counters move as for any completed transaction, but
    the queue is left as it was and neither [put_wait_station] nor
    [complete] is called: the station stays taken. *)
Theorem full_workqueue_drops_work m st ws :
  stations st !! ws_id (header m) = Some ws ->
  async_page ws <> 0 ->
  pendings_count ws = 1 ->
  workqueue_ok st ->
  async_transaction_workqueue_head st < 2 ^ 31 - 1 ->
  async_transaction_workqueue_head st - async_transaction_workqueue_tail st
  = ASYNC_TRANSACTION_RING_SIZE - 1 ->
  exists st',
    swmc_kmsg_handle_ack_or_nack m st = Some (0, st')
    /\ queued st' = queued st
    /\ async_transaction_workqueue st' = async_transaction_workqueue st
    /\ async_transaction_workqueue_head st' = async_transaction_workqueue_head st
    /\ calls st' = calls st
    /\ coherence st' = count_acked (coherence st)
    /\ (pendings_count <$> stations st' !! ws_id (header m)) = Some 0.
Proof.
  intros Hws Hasync Hn Hok Hh Hfull.
  unfold swmc_kmsg_handle_ack_or_nack. rewrite Hws. cbv zeta.
  fold (is_nack m).
  set (ws1 := if is_nack m
              then {| private := NACK_RECEIVED; async_page := async_page ws;
                      pendings_count := pendings_count ws |}
              else ws).
  assert (Hp : pendings_count ws1 = 1) by (subst ws1; by destruct (is_nack m)).
  assert (Ha : async_page ws1 = async_page ws)
    by (subst ws1; by destruct (is_nack m)).
  cbn [pendings_count async_page private]. rewrite Hp, Ha.
  change (to_int32 (1 - 1) =? 0) with true. cbv iota.
  destruct (Z.eqb_spec (async_page ws) 0) as [?|_]; [done|]. cbn [negb].
  unfold put_work_to_workqueue. cbv zeta.
  cbn [async_transaction_workqueue_head async_transaction_workqueue_tail
       with_coherence with_stations].
  rewrite (workqueue_full_test st) by done. rewrite Hfull, Z.eqb_refl.
  cbn [mbind option_bind]. eexists. split; [reflexivity|].
  cbn [stations with_coherence with_stations calls coherence
       async_transaction_workqueue async_transaction_workqueue_head].
  rewrite lookup_insert_eq. done.
Qed.

Lemma full_workqueue_drops_work_witness :
  exists st',
    swmc_kmsg_handle_ack_or_nack ack_for_7 (async_state 1023) = Some (0, st')
    /\ queued st' = queued (async_state 1023)
    /\ async_transaction_workqueue st'
       = async_transaction_workqueue (async_state 1023)
    /\ async_transaction_workqueue_head st'
       = async_transaction_workqueue_head (async_state 1023)
    /\ calls st' = calls (async_state 1023)
    /\ coherence st' = count_acked (coherence (async_state 1023))
    /\ (pendings_count <$> stations st' !! 7) = Some 0.
Proof.
  apply (full_workqueue_drops_work ack_for_7 (async_state 1023)
           {| private := 0; async_page := Coherence.pfn_to_page 2;
              pendings_count := 1 |}).
  - reflexivity.
  - discriminate.
  - reflexivity.
  - repeat split; vm_compute; first [reflexivity | discriminate].
  - reflexivity.
  - reflexivity.
Defined.

Lemma clear_modified_page pg e a :
  Replication.page_at (Coherence.mem (ClearPageModified pg e)) a
  = if bool_decide (a = pg)
    then Replication.with_flags false
           (Replication.PG_shared (Replication.page_at (Coherence.mem e) a))
           (Replication.PG_coherence (Replication.page_at (Coherence.mem e) a))
           (Replication.page_at (Coherence.mem e) a)
    else Replication.page_at (Coherence.mem e) a.
Proof.
  unfold ClearPageModified. cbn [Coherence.mem Coherence.with_mem].
  case_bool_decide as H.
  - subst a. by rewrite ReplicationFacts.page_at_upd_eq.
  - by rewrite ReplicationFacts.page_at_upd_ne.
Qed.

Lemma queued_length st :
  length (queued st)
  = Z.to_nat (async_transaction_workqueue_head st
              - async_transaction_workqueue_tail st).
Proof. unfold queued. by rewrite length_fmap, length_seqZ. Qed.

Lemma daemon_drains n : forall st,
  workqueue_ok st ->
  length (queued st) = n ->
  exists st',
    async_transaction_daemon n st = Some st'
    /\ queued st' = []
    /\ workqueue_ok st'
    /\ async_transaction_workqueue_head st' = async_transaction_workqueue_head st
    /\ stations st' = stations st
    /\ coherence st'
       = Coherence.with_mem (Coherence.mem (coherence st')) (coherence st)
    /\ forall a,
        let p := Replication.page_at (Coherence.mem (coherence st)) a in
        Replication.page_at (Coherence.mem (coherence st')) a
        = if bool_decide (a ∈ queued_pages st)
          then Replication.with_flags false (Replication.PG_shared p)
                 (Replication.PG_coherence p) p
          else p.
Proof.
  induction n as [|n IH]; intros st Hok Hlen.
  - exists st. cbn [async_transaction_daemon].
    apply nil_length_inv in Hlen as Hq.
    split; [done|]. split; [done|]. split; [done|]. split; [done|].
    split; [done|]. split; [by destruct (coherence st)|].
    intros a. cbv zeta. unfold queued_pages. rewrite Hq. cbn [omap list_omap].
    by rewrite bool_decide_eq_false_2 by apply not_elem_of_nil.
  - assert (Hne : async_transaction_workqueue_head st
                  <> async_transaction_workqueue_tail st).
    { intros E. rewrite queued_length, E, Z.sub_diag in Hlen. done. }
    destruct (daemon_turn_pops st Hok Hne)
      as (w & st1 & Hturn & Hq & Hok1 & Hcoh & Hst & _ & Hh1).
    destruct (IH st1 Hok1) as (st' & Hrun & Hq' & Hok' & Hh' & Hst' & Hc' & Hpg).
    { rewrite Hq in Hlen. cbn [length] in Hlen. lia. }
    exists st'. cbn [async_transaction_daemon]. rewrite Hturn.
    cbn [mbind option_bind]. split; [exact Hrun|]. split; [exact Hq'|].
    split; [exact Hok'|]. split; [by rewrite Hh'|]. split; [by rewrite Hst'|].
    split.
    { rewrite Hc', Hcoh. unfold ClearPageModified. by destruct (coherence st). }
    intros a. cbv zeta. pose proof (Hpg a) as Ha. cbv zeta in Ha.
    rewrite Ha, Hcoh, clear_modified_page. clear Ha.
    assert (Hqp : queued_pages st = original_page w :: queued_pages st1)
      by (unfold queued_pages; by rewrite Hq).
    rewrite Hqp.
    set (p := Replication.page_at (Coherence.mem (coherence st)) a).
    destruct (bool_decide (a = original_page w)) eqn:E1.
    + apply bool_decide_eq_true in E1.
      rewrite (bool_decide_eq_true_2 (a ∈ original_page w :: queued_pages st1))
        by (subst a; left).
      by destruct (bool_decide (a ∈ queued_pages st1)).
    + apply bool_decide_eq_false in E1.
      destruct (bool_decide (a ∈ queued_pages st1)) eqn:E2.
      * apply bool_decide_eq_true in E2.
        by rewrite bool_decide_eq_true_2 by (by right).
      * apply bool_decide_eq_false in E2.
        rewrite bool_decide_eq_false_2; [done|].
        by apply not_elem_of_cons.
Qed.

(** X30.  The daemon works the queue off, oldest first, one entry a turn: after
    as many turns as the queue holds entries the queue is empty, every
    page that was queued has [PG_modified] cleared with its other fields
    kept, no other page is touched, and nothing else of the engine
    changes. *)
Theorem daemon_drains_queue st :
  workqueue_ok st ->
  exists st',
    async_transaction_daemon (length (queued st)) st = Some st'
    /\ queued st' = []
    /\ stations st' = stations st
    /\ coherence st'
       = Coherence.with_mem (Coherence.mem (coherence st')) (coherence st)
    /\ forall a,
        let p := Replication.page_at (Coherence.mem (coherence st)) a in
        Replication.page_at (Coherence.mem (coherence st')) a
        = if bool_decide (a ∈ queued_pages st)
          then Replication.with_flags false (Replication.PG_shared p)
                 (Replication.PG_coherence p) p
          else p.
Proof.
  intros Hok.
  destruct (daemon_drains (length (queued st)) st Hok eq_refl)
    as (st' & Hrun & Hq & _ & _ & Hst & Hc & Hpg).
  by exists st'.
Qed.

Lemma daemon_drains_queue_witness :
  exists st',
    async_transaction_daemon (length (queued busy_queue_state)) busy_queue_state
    = Some st'
    /\ queued st' = []
    /\ stations st' = stations busy_queue_state
    /\ coherence st'
       = Coherence.with_mem (Coherence.mem (coherence st'))
           (coherence busy_queue_state)
    /\ forall a,
        let p := Replication.page_at
                   (Coherence.mem (coherence busy_queue_state)) a in
        Replication.page_at (Coherence.mem (coherence st')) a
        = if bool_decide (a ∈ queued_pages busy_queue_state)
          then Replication.with_flags false (Replication.PG_shared p)
                 (Replication.PG_coherence p) p
          else p.
Proof.
  apply (daemon_drains_queue busy_queue_state).
  repeat split; vm_compute; first [reflexivity | discriminate].
Defined.

End CompletionFacts.
